(** * tab-audit: the cleanup rule engine of [src/background/index.ts]

    A shallow embedding of the background script: the domain matcher, the
    activity tracker, the duplicate detector and [applyCleanupRules], with
    the module-level state ([tabActivityMap], [warningActive]) threaded
    explicitly and the calls to the browser recorded as a trace of requests.

    Conventions of the embedding.
    - A JavaScript [number] that holds a tab id, a count, a millisecond
      timestamp or the idle timeout in minutes is an integer of [Z];
      optional fields are [option]. The setting [maxTabs], which need
      not be an integer (the restore handler of the options page stores
      the number an imported file holds) and which decides how many tabs
      the engine closes, is a JavaScript number in full ([JS.number]: a
      double, with the rounding of [-] and the comparisons of IEEE 754).
    - [x || 0] and the truthiness tests [if (x)] are written out
      ([orZero], [truthyNum], [truthyStr]): [undefined], [0] and the empty
      string are falsy.
    - A [Set<number>] is the list of its members in insertion order (what
      [Array.from] returns), a [Map<string, Tab[]>] an association list in
      insertion order (what [forEach] walks), and [tabActivityMap] a
      [gmap Z Z].
    - [new URL(url).hostname] is a browser builtin: the engine is
      parametrised by it.

    Beside the engine the development covers the listeners of the
    background script, [saveSettings] of [src/shared/settings.ts] with the
    commands that write the settings ([handleCommand], the popup's
    [handleToggle]) and [formatTime] of [src/shared/utils.ts]. Of the
    stored settings the six keys the background script reads are kept. *)

From Stdlib Require Import ZArith Bool Lia Ascii.
From stdpp Require Import base option list sorting gmap strings pretty.

Local Open Scope Z_scope.

(** ** JavaScript primitives used by the script *)

Module JS.

(** [x || 0] on an optional number. *)
Definition orZero (x : option Z) : Z :=
  match x with
  | Some n => n
  | None => 0
  end.

(** Truthiness of an optional number: [undefined] and [0] are falsy. *)
Definition truthyNum (x : option Z) : bool :=
  match x with
  | Some n => negb (n =? 0)
  | None => false
  end.

(** Truthiness of a string: only the empty string is falsy. *)
Definition truthyString (s : string) : bool :=
  match s with
  | EmptyString => false
  | String _ _ => true
  end.

(** Truthiness of an optional string. *)
Definition truthyStr (x : option string) : bool :=
  match x with
  | Some s => truthyString s
  | None => false
  end.

(** [s.endsWith(suffix)]: the last [suffix.length] code units of [s] are
    compared with [suffix]. *)
Definition endsWith (s suffix : string) : bool :=
  let n := String.length s in
  let k := String.length suffix in
  (k <=? n)%nat && String.eqb (String.substring (n - k) k s) suffix.

(** [Array.prototype.sort(cmp)]: a stable sort; [a] stays in front of a
    later [b] unless [cmp a b > 0]. With a comparator that is a total
    preorder, as both comparators of the script are, the stable sorted
    arrangement is unique ([sort_unique] below), so insertion from the
    right computes what any engine's algorithm returns. *)
Section Sort.
Context {A : Type} (cmp : A → A → Z).

Fixpoint sortInsert (x : A) (l : list A) : list A :=
  match l with
  | [] => [x]
  | y :: l' => if cmp x y <=? 0 then x :: y :: l' else y :: sortInsert x l'
  end.

Fixpoint sort (l : list A) : list A :=
  match l with
  | [] => []
  | x :: l' => sortInsert x (sort l')
  end.
End Sort.

(** [Set.prototype.has] and [Set.prototype.add] on the insertion-ordered
    list of members; [size] is the length. *)
Definition setHas (x : Z) (s : list Z) : bool := bool_decide (x ∈ s).

Definition setAdd (x : Z) (s : list Z) : list Z :=
  if setHas x s then s else s ++ [x].

Definition setSize (s : list Z) : Z := Z.of_nat (length s).

(** A JavaScript number, that is an IEEE 754 double. Every finite double
    is an integer multiple of [2^-1074], the smallest positive double, so
    a finite double is kept as that integer: [Finite n] is the number
    [n * 2^-1074], the number 1 is [Finite (2^1074)] and 2.5 is
    [Finite (5 * 2^1073)]. The two zeros are not told apart (nothing in
    the script divides by [maxTabs] or prints a zero with its sign). *)
Inductive number :=
| NaN
| Infinity (negative : bool)
| Finite (n : Z).

(** The number 1, in units of [2^-1074]. *)
Definition one : Z := 2 ^ 1074.

(** [a / 2^d] rounded to the nearest integer, ties to even ([0 <= a],
    [0 < d]). *)
Definition roundShift (a d : Z) : Z :=
  let q := a `div` 2 ^ d in
  let r := a `mod` 2 ^ d in
  let half := 2 ^ (d - 1) in
  if r <? half then q
  else if half <? r then q + 1
  else if Z.even q then q else q + 1.

(** The double nearest to [n * 2^-1074] (round to nearest, ties to even):
    below [2^53] units every integer is a double (the subnormal numbers
    and the first binade); above, the 53 leading bits are kept; a result
    of [2^1024] or more is an infinity. *)
Definition round64 (n : Z) : number :=
  let a := Z.abs n in
  if a <? 2 ^ 53 then Finite n
  else
    let d := Z.log2 a - 52 in
    let r := roundShift a d * 2 ^ d in
    if 2 ^ 2098 <=? r then Infinity (n <? 0) else Finite (Z.sgn n * r).

(** The double nearest to [m * 2^e] ([-1074 <= e]); 2.5 is [dyadic 5 (-1)]. *)
Definition dyadic (m e : Z) : number := round64 (m * 2 ^ (1074 + e)).

(** An integer as a number: a tab count, a literal. *)
Definition ofZ (z : Z) : number := round64 (z * one).

(** [x - y]. *)
Definition sub (x y : number) : number :=
  match x, y with
  | NaN, _ | _, NaN => NaN
  | Infinity s, Infinity s' => if Bool.eqb s s' then NaN else Infinity s
  | Infinity s, Finite _ => Infinity s
  | Finite _, Infinity s => Infinity (negb s)
  | Finite a, Finite b => round64 (a - b)
  end.

(** [x < y] and [x <= y]: false when an operand is [NaN]. *)
Definition ltb (x y : number) : bool :=
  match x, y with
  | NaN, _ | _, NaN => false
  | Infinity s, Infinity s' => s && negb s'
  | Infinity s, Finite _ => s
  | Finite _, Infinity s => negb s
  | Finite a, Finite b => a <? b
  end.

Definition leb (x y : number) : bool :=
  match x, y with
  | NaN, _ | _, NaN => false
  | Infinity s, Infinity s' => s || negb s'
  | Infinity s, Finite _ => s
  | Finite _, Infinity s => negb s
  | Finite a, Finite b => a <=? b
  end.

(** [x > y] and [x >= y]. *)
Definition gtb (x y : number) : bool := ltb y x.
Definition geb (x y : number) : bool := leb y x.

Global Instance number_eq_dec : EqDecision number.
Proof. solve_decision. Defined.

End JS.

Global Arguments JS.round64 : simpl never.
Global Arguments JS.ofZ : simpl never.
Global Arguments JS.dyadic : simpl never.
Global Arguments JS.sub : simpl never.
Global Arguments JS.ltb : simpl never.
Global Arguments JS.leb : simpl never.
Global Arguments JS.gtb : simpl never.
Global Arguments JS.geb : simpl never.

(** ** Data model *)

(** The fields of [chrome.tabs.Tab] the script reads. *)
Record Tab := mkTab {
  tab_id : option Z;
  tab_url : option string;
  tab_active : bool;
  tab_lastAccessed : option Z
}.

Global Instance Tab_eq_dec : EqDecision Tab.
Proof. solve_decision. Defined.

(** [Settings] of [src/shared/settings.ts], without the fields the
    background script never reads ([warningShown], [theme]). *)
Record Settings := mkSettings {
  enabled : bool;
  idleTimeout : Z;
  maxTabs : JS.number;
  whitelist : list string;
  blacklist : list string;
  notificationsEnabled : bool
}.

Definition DEFAULT_SETTINGS : Settings :=
  {| enabled := false;
     idleTimeout := 30;
     maxTabs := JS.ofZ 50;
     whitelist := [];
     blacklist := [];
     notificationsEnabled := true |}.

(** The object [chrome.storage.local.get] resolves to: only the keys that
    were ever saved are present. *)
Record StoredSettings := mkStored {
  stored_enabled : option bool;
  stored_idleTimeout : option Z;
  stored_maxTabs : option JS.number;
  stored_whitelist : option (list string);
  stored_blacklist : option (list string);
  stored_notificationsEnabled : option bool
}.

(** [{ ...defaults, ...result }]. *)
Definition mergeSettings (defaults : Settings) (result : StoredSettings) : Settings :=
  {| enabled := default (enabled defaults) (stored_enabled result);
     idleTimeout := default (idleTimeout defaults) (stored_idleTimeout result);
     maxTabs := default (maxTabs defaults) (stored_maxTabs result);
     whitelist := default (whitelist defaults) (stored_whitelist result);
     blacklist := default (blacklist defaults) (stored_blacklist result);
     notificationsEnabled :=
       default (notificationsEnabled defaults) (stored_notificationsEnabled result) |}.

(** The module-level variables of the background script. *)
Record State := mkState {
  tabActivityMap : gmap Z Z;
  warningActive : bool
}.

(** ** Effects *)

(** The two notifications the script creates, by title, with the numbers
    their messages are formatted from. *)
Inductive Notification :=
| TabWarning (tabCount : Z) (limit : JS.number)
| TabsCleaned (count : Z).

(** The calls a run makes that leave a mark outside the script. *)
Inductive Request :=
| SetIcon (enable : bool)
| NotificationsCreate (n : Notification)
| TabsRemove (ids : list Z)
| ConsoleError (context : string)
| ConsoleLog (ids : list Z).

Global Instance Notification_eq_dec : EqDecision Notification.
Proof. solve_decision. Defined.

Global Instance Request_eq_dec : EqDecision Request.
Proof. solve_decision. Defined.

(** What the browser answers during one run. For the calls the script
    awaits ([storage.local.get], [tabs.query], [action.setIcon],
    [tabs.remove]) [None] or [false] is a rejected promise or a thrown
    exception. [notifications.create] is not awaited: only an exception it
    throws at the call reaches the script, and that is its [false]; a
    promise it returns and that rejects later is its [true]. *)
Record Browser := mkBrowser {
  storageLocalGet : option StoredSettings;
  tabsQuery : option (list Tab);
  dateNow : Z;
  actionSetIcon : bool → bool;
  notificationsCreate : Notification → bool;
  tabsRemove : list Z → bool
}.

(** How a piece of script ends: normally with a value, or by throwing. *)
Inductive Completion (A : Type) :=
| Normal (a : A)
| Thrown.
Arguments Normal {A} a.
Arguments Thrown {A}.

(** A piece of script: it reads the browser, updates the module state and
    makes requests; one run is atomic (the script is single-threaded and
    the model does not interleave other handlers at its [await]s). *)
Definition Run (A : Type) : Type :=
  Browser → State → Completion A * State * list Request.

Global Instance Run_ret : MRet Run :=
  λ A a _ st, (Normal a, st, []).

Global Instance Run_bind : MBind Run :=
  λ A B f m b st,
    match m b st with
    | (Normal a, st', tr) =>
        let '(r, st'', tr') := f a b st' in (r, st'', tr ++ tr')
    | (Thrown, st', tr) => (Thrown, st', tr)
    end.

(** [try { body } catch { handler }]. *)
Definition tryCatch {A : Type} (body handler : Run A) : Run A :=
  λ b st,
    match body b st with
    | (Normal a, st', tr) => (Normal a, st', tr)
    | (Thrown, st', tr) =>
        let '(r, st'', tr') := handler b st' in (r, st'', tr ++ tr')
    end.

(** A call that may throw and whose request is recorded. *)
Definition call (r : Request) (ok : bool) : Run unit :=
  λ _ st, (if ok then Normal tt else Thrown, st, [r]).

Definition chromeStorageLocalGet : Run StoredSettings :=
  λ b st,
    match storageLocalGet b with
    | Some result => (Normal result, st, [])
    | None => (Thrown, st, [])
    end.

Definition chromeTabsQuery : Run (list Tab) :=
  λ b st,
    match tabsQuery b with
    | Some tabs => (Normal tabs, st, [])
    | None => (Thrown, st, [])
    end.

Definition dateNowCall : Run Z :=
  λ b st, (Normal (dateNow b), st, []).

Definition chromeActionSetIcon (enable : bool) : Run unit :=
  λ b, call (SetIcon enable) (actionSetIcon b enable) b.

Definition chromeNotificationsCreate (n : Notification) : Run unit :=
  λ b, call (NotificationsCreate n) (notificationsCreate b n) b.

Definition chromeTabsRemove (ids : list Z) : Run unit :=
  λ b, call (TabsRemove ids) (tabsRemove b ids) b.

Definition consoleError (context : string) : Run unit :=
  call (ConsoleError context) true.

Definition consoleLog (ids : list Z) : Run unit :=
  call (ConsoleLog ids) true.

Definition readWarningActive : Run bool :=
  λ _ st, (Normal (warningActive st), st, []).

Definition writeWarningActive (v : bool) : Run unit :=
  λ _ st, (Normal tt, {| tabActivityMap := tabActivityMap st; warningActive := v |}, []).

Definition readTabActivityMap : Run (gmap Z Z) :=
  λ _ st, (Normal (tabActivityMap st), st, []).

(** ** Activity tracker *)

Definition resetTabActivityMap (m : gmap Z Z) : gmap Z Z := ∅.

Definition updateTabActivity (now : Z) (tabId : Z) (m : gmap Z Z) : gmap Z Z :=
  <[tabId := now]> m.

Definition removeTabActivity (tabId : Z) (m : gmap Z Z) : gmap Z Z :=
  delete tabId m.

Definition getLastActivity (m : gmap Z Z) (tab : Tab) : Z :=
  match tab_id tab with
  | Some i =>
      if JS.truthyNum (tab_id tab) then
        match m !! i with
        | Some timestamp => timestamp
        | None => JS.orZero (tab_lastAccessed tab)
        end
      else JS.orZero (tab_lastAccessed tab)
  | None => JS.orZero (tab_lastAccessed tab)
  end.

(** ** Domain matcher *)

Definition domainMatches (domain pattern : string) : bool :=
  if negb (JS.truthyString domain) || negb (JS.truthyString pattern) then false
  else if String.eqb domain pattern then true
  else if JS.endsWith domain ("." +:+ pattern) then true
  else false.

(** ** Duplicate detector *)

(** [urlMap.get(url).push(tab)], creating the entry at the end of the map
    when the url is new. *)
Fixpoint urlMapPush (u : string) (tab : Tab) (urlMap : list (string * list Tab))
  : list (string * list Tab) :=
  match urlMap with
  | [] => [(u, [tab])]
  | (k, g) :: rest =>
      if String.eqb k u then (k, g ++ [tab]) :: rest
      else (k, g) :: urlMapPush u tab rest
  end.

(** The first [forEach] of [getDuplicateTabs]. *)
Definition urlMapStep (urlMap : list (string * list Tab)) (tab : Tab)
  : list (string * list Tab) :=
  match tab_url tab with
  | Some u => if negb (JS.truthyStr (tab_url tab)) then urlMap else urlMapPush u tab urlMap
  | None => urlMap
  end.

Definition buildUrlMap (tabs : list Tab) : list (string * list Tab) :=
  fold_left urlMapStep tabs [].

(** The comparator of the duplicate detector: active first, then most
    recently accessed first. *)
Definition compareDuplicates (a b : Tab) : Z :=
  if tab_active a && negb (tab_active b) then -1
  else if negb (tab_active a) && tab_active b then 1
  else JS.orZero (tab_lastAccessed b) - JS.orZero (tab_lastAccessed a).

(** [tabsWithSameUrl.slice(1).forEach(...)]: the ids pushed for one group,
    already sorted. *)
Definition pushDuplicates (sorted : list Tab) : list Z :=
  omap (fun tab => if JS.truthyNum (tab_id tab) && negb (tab_active tab)
                   then tab_id tab else None)
       (tail sorted).

Definition groupDuplicates (tabsWithSameUrl : list Tab) : list Z :=
  if (1 <? length tabsWithSameUrl)%nat
  then pushDuplicates (JS.sort compareDuplicates tabsWithSameUrl)
  else [].

Definition getDuplicateTabs (tabs : list Tab) : list Z :=
  flat_map (fun entry => groupDuplicates (snd entry)) (buildUrlMap tabs).

(** ** Cleanup rule engine: the three passes over the snapshot *)

Definition compareLastAccessed (a b : Tab) : Z :=
  JS.orZero (tab_lastAccessed a) - JS.orZero (tab_lastAccessed b).

Section Engine.

(** [new URL(url).hostname], [None] when the constructor throws. *)
Variable urlHostname : string → option string.

Definition getDomain (url : option string) : string :=
  match url with
  | Some u =>
      if negb (JS.truthyStr url) then ""
      else match urlHostname u with
           | Some hostname => hostname
           | None => ""
           end
  | None => ""
  end.

(** [whitelist.some((w) => domainMatches(getDomain(tab.url), w))]. *)
Definition someMatches (patterns : list string) (tab : Tab) : bool :=
  existsb (fun w => domainMatches (getDomain (tab_url tab)) w) patterns.

(** The body of [allTabs.forEach] (rules 1 to 3). *)
Definition perTabRule (settings : Settings) (m : gmap Z Z) (now : Z)
    (tabsToClose : list Z) (tab : Tab) : list Z :=
  match tab_id tab with
  | Some i =>
      if negb (JS.truthyNum (tab_id tab)) || tab_active tab then tabsToClose
      else if someMatches (whitelist settings) tab then tabsToClose
      else if someMatches (blacklist settings) tab then JS.setAdd i tabsToClose
      else
        let idleTimeoutMs := idleTimeout settings * 60 * 1000 in
        let lastActivity := getLastActivity m tab in
        if negb (lastActivity =? 0) && (now - lastActivity >? idleTimeoutMs)
        then JS.setAdd i tabsToClose
        else tabsToClose
  | None => tabsToClose
  end.

Definition perTabPass (settings : Settings) (m : gmap Z Z) (now : Z)
    (allTabs : list Tab) (tabsToClose : list Z) : list Z :=
  fold_left (perTabRule settings m now) allTabs tabsToClose.

(** The body of [duplicates.forEach] (rule 4). *)
Definition duplicateRule (settings : Settings) (allTabs : list Tab)
    (tabsToClose : list Z) (id : Z) : list Z :=
  match find (fun t => bool_decide (tab_id t = Some id)) allTabs with
  | Some tab =>
      if negb (tab_active tab) then
        if negb (someMatches (whitelist settings) tab)
        then JS.setAdd id tabsToClose
        else tabsToClose
      else tabsToClose
  | None => tabsToClose
  end.

Definition duplicatePass (settings : Settings) (allTabs : list Tab)
    (tabsToClose : list Z) : list Z :=
  fold_left (duplicateRule settings allTabs) (getDuplicateTabs allTabs) tabsToClose.

(** The [for ... of sortedTabs] loop of rule 5, with its [break]. *)
Fixpoint maxTabsLoop (settings : Settings) (extraToClose : JS.number)
    (sortedTabs : list Tab) (tabsToClose : list Z) (closedCount : Z) : list Z :=
  match sortedTabs with
  | [] => tabsToClose
  | tab :: rest =>
      if JS.geb (JS.ofZ closedCount) extraToClose then tabsToClose
      else
        match tab_id tab with
        | Some i =>
            if JS.truthyNum (tab_id tab) && negb (tab_active tab)
               && negb (JS.setHas i tabsToClose)
            then
              if negb (someMatches (whitelist settings) tab)
              then maxTabsLoop settings extraToClose rest
                     (JS.setAdd i tabsToClose) (closedCount + 1)
              else maxTabsLoop settings extraToClose rest tabsToClose closedCount
            else maxTabsLoop settings extraToClose rest tabsToClose closedCount
        | None => maxTabsLoop settings extraToClose rest tabsToClose closedCount
        end
  end.

Definition maxTabPass (settings : Settings) (allTabs : list Tab)
    (tabsToClose : list Z) : list Z :=
  let sortedTabs := JS.sort compareLastAccessed allTabs in
  let currentClosingCount := JS.setSize tabsToClose in
  let remainingCount := Z.of_nat (length allTabs) - currentClosingCount in
  if JS.gtb (JS.ofZ remainingCount) (maxTabs settings) then
    let extraToClose := JS.sub (JS.ofZ remainingCount) (maxTabs settings) in
    maxTabsLoop settings extraToClose sortedTabs tabsToClose 0
  else tabsToClose.

(** The close-set at the end of the three passes. *)
Definition closeSet (settings : Settings) (m : gmap Z Z) (now : Z)
    (allTabs : list Tab) : list Z :=
  maxTabPass settings allTabs
    (duplicatePass settings allTabs
       (perTabPass settings m now allTabs [])).

(** ** One run of the engine against the browser *)

Definition getSettings : Run Settings :=
  tryCatch
    (result ← chromeStorageLocalGet;
     mret (mergeSettings DEFAULT_SETTINGS result))
    (consoleError "Error getting settings:";;
     mret DEFAULT_SETTINGS).

Definition setWarningIcon (enable : bool) : Run unit :=
  tryCatch
    (chromeActionSetIcon enable)
    (consoleError "Error setting icon:").

(** The warning check of [applyCleanupRules], on [allTabs.length]. *)
Definition warningCheck (settings : Settings) (tabCount : Z) : Run unit :=
  let warningThreshold := JS.sub (maxTabs settings) (JS.ofZ 2) in
  active ← readWarningActive;
  if JS.gtb warningThreshold (JS.ofZ 0)
     && JS.geb (JS.ofZ tabCount) warningThreshold then
    if negb active then
      writeWarningActive true;;
      setWarningIcon true;;
      if notificationsEnabled settings
      then chromeNotificationsCreate (TabWarning tabCount (maxTabs settings))
      else mret tt
    else mret tt
  else if JS.ltb (JS.ofZ tabCount) warningThreshold && active then
    writeWarningActive false;;
    setWarningIcon false
  else mret tt.

Definition applyCleanupRules : Run unit :=
  tryCatch
    (settings ← getSettings;
     if negb (enabled settings) then mret tt
     else
       now ← dateNowCall;
       allTabs ← chromeTabsQuery;
       warningCheck settings (Z.of_nat (length allTabs));;
       m ← readTabActivityMap;
       let finalIdsToClose := closeSet settings m now allTabs in
       if Z.of_nat (length finalIdsToClose) >? 0 then
         chromeTabsRemove finalIdsToClose;;
         consoleLog finalIdsToClose;;
         if notificationsEnabled settings
         then chromeNotificationsCreate
                (TabsCleaned (Z.of_nat (length finalIdsToClose)))
         else mret tt
       else mret tt)
    (consoleError "Error in applyCleanupRules:").

(** What a run leaves behind: the requests it made and the module state. *)
Definition traceOf (b : Browser) (st : State) : list Request :=
  (applyCleanupRules b st).2.

Definition stateAfter (b : Browser) (st : State) : State :=
  (applyCleanupRules b st).1.2.

Definition completionOf (b : Browser) (st : State) : Completion unit :=
  (applyCleanupRules b st).1.1.

(** A sequence of runs, one browser situation per trigger; the traces are
    returned in the order of the runs. *)
Fixpoint runs (browsers : list Browser) (st : State) : State * list (list Request) :=
  match browsers with
  | [] => (st, [])
  | b :: rest =>
      let '(st', traces) := runs rest (stateAfter b st) in
      (st', traceOf b st :: traces)
  end.

End Engine.


(** ** Startup and the listeners of the background script *)

(** [x || fallback] on an optional number: [undefined] and [0] give the
    fallback. *)
Definition orElse (x : option Z) (fallback : Z) : Z :=
  match x with
  | Some n => if n =? 0 then fallback else n
  | None => fallback
  end.



(** The body of [tabs.forEach] in [initializeActivityTracking]. *)
Definition seedActivity (now : Z) (m : gmap Z Z) (tab : Tab) : gmap Z Z :=
  match tab_id tab with
  | Some i =>
      if JS.truthyNum (tab_id tab)
      then <[i := orElse (tab_lastAccessed tab) now]> m
      else m
  | None => m
  end.


(** [handleStorageChanged(changes, namespace)]; a [StorageChange] is an
    object, hence truthy, so [changes.maxTabs || changes.enabled] asks
    whether one of the two keys is among the changed ones. *)
Definition handleStorageChanged (changes : gset string) (namespace : string)
  : Run unit :=
  if String.eqb namespace "local" then
    if bool_decide ("maxTabs" ∈ changes) || bool_decide ("enabled" ∈ changes) then
      writeWarningActive false;;
      setWarningIcon false
    else mret tt
  else mret tt.

Section Listeners.

Variable urlHostname : string → option string.




End Listeners.

(** ** Settings storage and the commands that write it *)

(** [chrome.storage.local.set(items)] on the stored object: the keys
    present in [items] are overwritten, the others kept. *)
Definition overwrite {A : Type} (new old : option A) : option A :=
  match new with
  | Some v => Some v
  | None => old
  end.

Definition storageSet (items area : StoredSettings) : StoredSettings :=
  {| stored_enabled := overwrite (stored_enabled items) (stored_enabled area);
     stored_idleTimeout := overwrite (stored_idleTimeout items) (stored_idleTimeout area);
     stored_maxTabs := overwrite (stored_maxTabs items) (stored_maxTabs area);
     stored_whitelist := overwrite (stored_whitelist items) (stored_whitelist area);
     stored_blacklist := overwrite (stored_blacklist items) (stored_blacklist area);
     stored_notificationsEnabled :=
       overwrite (stored_notificationsEnabled items) (stored_notificationsEnabled area) |}.

(** The browser as a script that also writes sees it: [Browser], and
    whether [chrome.storage.local.set] resolves. When the storage can be
    read ([storageLocalGet] is not [None]) the object read is the stored
    one, kept in [area]. *)
Record Host := mkHost {
  browser : Browser;
  storageLocalSet : StoredSettings → bool
}.

Record Store := mkStore {
  moduleState : State;
  area : StoredSettings
}.

(** What leaves a script that writes settings. *)
Inductive Output :=
| Requested (r : Request)
| Info (message : string)
| StorageWrite (items : StoredSettings)
| ButtonShown (enabled : bool)
| MessageSent (action : string).

Definition Script (A : Type) : Type :=
  Host → Store → Completion A * Store * list Output.

Global Instance Script_ret : MRet Script :=
  λ A a _ w, (Normal a, w, []).

Global Instance Script_bind : MBind Script :=
  λ A B f m h w,
    match m h w with
    | (Normal a, w', out) =>
        let '(r, w'', out') := f a h w' in (r, w'', out ++ out')
    | (Thrown, w', out) => (Thrown, w', out)
    end.

Definition tryCatchScript {A : Type} (body handler : Script A) : Script A :=
  λ h w,
    match body h w with
    | (Normal a, w', out) => (Normal a, w', out)
    | (Thrown, w', out) =>
        let '(r, w'', out') := handler h w' in (r, w'', out ++ out')
    end.

(** The browser a run sees when the stored object is [area]. *)
Definition browserOver (area : StoredSettings) (b : Browser) : Browser :=
  {| storageLocalGet := (λ _, area) <$> storageLocalGet b;
     tabsQuery := tabsQuery b;
     dateNow := dateNow b;
     actionSetIcon := actionSetIcon b;
     notificationsCreate := notificationsCreate b;
     tabsRemove := tabsRemove b |}.

(** A piece of the background script run inside a script that writes. *)
Definition liftRun {A : Type} (r : Run A) : Script A :=
  λ h w,
    let '(c, st, tr) := r (browserOver (area w) (browser h)) (moduleState w) in
    (c, {| moduleState := st; area := area w |}, Requested <$> tr).

Definition chromeStorageLocalSet (items : StoredSettings) : Script unit :=
  λ h w,
    if storageLocalSet h items
    then (Normal tt,
          {| moduleState := moduleState w; area := storageSet items (area w) |},
          [StorageWrite items])
    else (Thrown, w, [StorageWrite items]).

Definition consoleInfo (message : string) : Script unit :=
  λ _ w, (Normal tt, w, [Info message]).

(** [saveSettings] of [src/shared/settings.ts]. *)
Definition saveSettings (settings : StoredSettings) : Script unit :=
  tryCatchScript
    (chromeStorageLocalSet settings)
    (liftRun (consoleError "Error saving settings:")).

(** The partial settings object [{ enabled: v }]. *)
Definition onlyEnabled (v : bool) : StoredSettings :=
  {| stored_enabled := Some v;
     stored_idleTimeout := None;
     stored_maxTabs := None;
     stored_whitelist := None;
     stored_blacklist := None;
     stored_notificationsEnabled := None |}.

Section Commands.

Variable urlHostname : string → option string.

(** [handleCommand] of the background script. *)
Definition handleCommand (command : string) : Script unit :=
  if String.eqb command "run-cleanup" then
    consoleInfo "Manual cleanup triggered via keyboard shortcut";;
    liftRun (applyCleanupRules urlHostname)
  else if String.eqb command "toggle-clean" then
    settings ← liftRun getSettings;
    let newEnabled := negb (enabled settings) in
    saveSettings (onlyEnabled newEnabled);;
    consoleInfo (if newEnabled
                 then "Auto-clean enabled via keyboard shortcut"
                 else "Auto-clean disabled via keyboard shortcut")
  else mret tt.

End Commands.

(** [updateButton] and [handleToggle] of the popup; of the button only the
    state it is made to show is kept. *)
Definition updateButton (enabled : bool) : Script unit :=
  λ _ w, (Normal tt, w, [ButtonShown enabled]).

(** [chrome.runtime.sendMessage({ action })]. *)
Definition chromeRuntimeSendMessage (action : string) : Script unit :=
  λ _ w, (Normal tt, w, [MessageSent action]).

Definition handleToggle : Script unit :=
  currentSettings ← liftRun getSettings;
  let newEnabled := negb (enabled currentSettings) in
  saveSettings (onlyEnabled newEnabled);;
  updateButton newEnabled;;
  if newEnabled
  then chromeRuntimeSendMessage "runCleanup"
  else mret tt.

(** ** The time formatter of [src/shared/utils.ts]

    [formatTime] is embedded on the safe integers only, the integers below
    [2^53] in absolute value ([Number.isSafeInteger]): its argument has
    the type [SafeInteger]. On a safe integer the double arithmetic of the
    source is that of the integers: for [60 <= minutes < 2^53] the
    quotient [minutes / 60] is below [2^48], so it is rounded by at most
    [1/64], which is less than the distance [1/60] of a quotient that is
    no integer from the next integer, and [Math.floor] of the rounded
    quotient is [minutes `div` 60]; the remainder [%] is exact; and the
    template string prints a safe integer with all its decimal digits, as
    [pretty] does. Above [2^53] neither holds, and a number that is no
    integer is printed with a fraction. *)
Definition isSafeInteger (n : Z) : bool := Z.abs n <? 2 ^ 53.

Record SafeInteger := mkSafeInteger {
  integer : Z;
  integer_safe : isSafeInteger integer = true
}.

Definition formatTime (minutes : SafeInteger) : string :=
  if integer minutes <? 60 then pretty (integer minutes) +:+ "m"
  else
    let hours := integer minutes `div` 60 in
    let mins := integer minutes `mod` 60 in
    pretty hours +:+ "h " +:+ pretty mins +:+ "m".

(** A character of a printed integer: a digit or the sign. *)
Definition numeral (c : ascii) : bool :=
  (Ascii.leb "0" c && Ascii.leb c "9") || Ascii.eqb c "-".

Fixpoint numerals (s : string) : bool :=
  match s with
  | EmptyString => true
  | String c rest => numeral c && numerals rest
  end.

(** ** A stand-in for the URL parser

    Used only to evaluate the engine on examples: the host of
    [scheme://host/path] is what lies between [://] and the next [/]. *)

Fixpoint untilSlash (s : string) : string :=
  match s with
  | EmptyString => EmptyString
  | String c rest => if Ascii.eqb c "/"%char then EmptyString else String c (untilSlash rest)
  end.

Fixpoint afterScheme (s : string) : option string :=
  match s with
  | String ":"%char (String "/"%char (String "/"%char rest)) => Some rest
  | String _ rest => afterScheme rest
  | EmptyString => None
  end.

Definition simpleHostname (u : string) : option string :=
  untilSlash <$> afterScheme u.

(** ** Notions the properties are stated with *)

(** Tab ids are unique in a snapshot (the browser never reports two tabs
    with one id). *)
Definition uniqueIds (allTabs : list Tab) : Prop :=
  NoDup (omap tab_id allTabs).

(** The run asked the browser to close tabs. *)
Definition requestsClose (tr : list Request) : bool :=
  existsb (λ r, match r with TabsRemove _ => true | _ => false end) tr.

(** The run raised the approaching-limit notification. *)
Definition raisesWarning (tr : list Request) : bool :=
  existsb (λ r, match r with
                | NotificationsCreate (TabWarning _ _) => true
                | _ => false
                end) tr.

(** The run created a notification or touched the toolbar icon. *)
Definition notifiesOrSetsIcon (tr : list Request) : bool :=
  existsb (λ r, match r with
                | NotificationsCreate _ | SetIcon _ => true
                | _ => false
                end) tr.

(** The tabs of a snapshot whose url is exactly [u], in snapshot order. *)
Definition sameUrl (u : string) (tabs : list Tab) : list Tab :=
  filter (λ t, tab_url t = Some u) tabs.

(** Some tab of the snapshot carries the id [i], is not active and is on
    no whitelisted domain. *)
Definition closable (urlHostname : string → option string)
    (settings : Settings) (allTabs : list Tab) (i : Z) : Prop :=
  ∃ t, t ∈ allTabs ∧ tab_id t = Some i ∧ i ≠ 0 ∧ tab_active t = false ∧
       someMatches urlHostname (whitelist settings) t = false.

(** The settings a run works with: the stored ones over the defaults, or
    the defaults when the storage cannot be read. *)
Definition settingsOf (b : Browser) : Settings :=
  match storageLocalGet b with
  | Some result => mergeSettings DEFAULT_SETTINGS result
  | None => DEFAULT_SETTINGS
  end.

(** The requests of the last step of a run: the one batch [ids] is closed,
    logged and announced; no icon change and no warning. *)
Definition closingRequests (ids : list Z) (tr : list Request) : Prop :=
  Forall (λ r, match r with
               | TabsRemove ids' => ids' = ids ∧ ids ≠ []
               | ConsoleLog _ | ConsoleError _
               | NotificationsCreate (TabsCleaned _) => True
               | _ => False
               end) tr.

(** The id the max-tab loop adds for a tab, if any: the tab has a truthy
    id, is not active, is not yet in the close-set and is not whitelisted. *)
Definition evictable (urlHostname : string → option string)
    (settings : Settings) (tabsToClose : list Z) (tab : Tab) : option Z :=
  match tab_id tab with
  | Some i =>
      if JS.truthyNum (tab_id tab) && negb (tab_active tab)
         && negb (JS.setHas i tabsToClose)
         && negb (someMatches urlHostname (whitelist settings) tab)
      then Some i else None
  | None => None
  end.


(** The requests of the closing step of a run, for the close-set [ids]. *)
Definition closingTrace (b : Browser) (settings : Settings) (ids : list Z)
  : list Request :=
  if Z.of_nat (length ids) >? 0 then
    TabsRemove ids ::
    if tabsRemove b ids then
      ConsoleLog ids ::
      if notificationsEnabled settings then
        NotificationsCreate (TabsCleaned (Z.of_nat (length ids))) ::
        if notificationsCreate b (TabsCleaned (Z.of_nat (length ids)))
        then [] else [ConsoleError "Error in applyCleanupRules:"]
      else []
    else [ConsoleError "Error in applyCleanupRules:"]
  else [].

(** The requests the warning check can make. *)
Definition warningRequests (tr : list Request) : Prop :=
  Forall (λ r, match r with
               | SetIcon _ | ConsoleError _
               | NotificationsCreate (TabWarning _ _) => True
               | _ => False
               end) tr.

(** ** Snapshots used as examples *)

Definition exampleUrl : string := "https://example.com/".

(** Three inactive tabs on one url, accessed at 100, 200 and 150. *)
Definition threeInactive : list Tab :=
  [ mkTab (Some 1) (Some exampleUrl) false (Some 100);
    mkTab (Some 2) (Some exampleUrl) false (Some 200);
    mkTab (Some 3) (Some exampleUrl) false (Some 150) ].

(** An active tab accessed at 50 and an inactive one accessed at 200, on
    one url. *)
Definition activeAndNewer : list Tab :=
  [ mkTab (Some 1) (Some exampleUrl) true (Some 50);
    mkTab (Some 2) (Some exampleUrl) false (Some 200) ].

(** Two windows showing the same page: both tabs are active. *)
Definition twoActive : list Tab :=
  [ mkTab (Some 1) (Some exampleUrl) true (Some 50);
    mkTab (Some 2) (Some exampleUrl) true (Some 200) ].

(** A snapshot with the focused tab on one site and an inactive tab on a
    subdomain of [example.com], last accessed long ago. *)
Definition withSubdomain : list Tab :=
  [ mkTab (Some 1) (Some "https://a.com/") true (Some 1000);
    mkTab (Some 2) (Some "https://sub.example.com/page") false (Some 900) ].

(** [example.com] on the blacklist only. *)
Definition blacklisting : Settings :=
  {| enabled := true; idleTimeout := 30; maxTabs := JS.ofZ 50;
     whitelist := []; blacklist := ["example.com"];
     notificationsEnabled := true |}.

(** [example.com] on both lists. *)
Definition onBothLists : Settings :=
  {| enabled := true; idleTimeout := 30; maxTabs := JS.ofZ 50;
     whitelist := ["example.com"]; blacklist := ["example.com"];
     notificationsEnabled := true |}.

(** The stored object that merges to a given settings value. *)
Definition stored (s : Settings) : StoredSettings :=
  {| stored_enabled := Some (enabled s);
     stored_idleTimeout := Some (idleTimeout s);
     stored_maxTabs := Some (maxTabs s);
     stored_whitelist := Some (whitelist s);
     stored_blacklist := Some (blacklist s);
     stored_notificationsEnabled := Some (notificationsEnabled s) |}.

(** A browser in which every call succeeds. *)
Definition browserWith (s : Settings) (tabs : list Tab) (now : Z) : Browser :=
  {| storageLocalGet := Some (stored s);
     tabsQuery := Some tabs;
     dateNow := now;
     actionSetIcon := λ _, true;
     notificationsCreate := λ _, true;
     tabsRemove := λ _, true |}.

(** The module state when the service worker starts. *)
Definition initialState : State :=
  {| tabActivityMap := ∅; warningActive := false |}.

(** A limit of five tabs: the warning threshold is three. *)
Definition limitFive : Settings :=
  {| enabled := true; idleTimeout := 30; maxTabs := JS.ofZ 5;
     whitelist := []; blacklist := [];
     notificationsEnabled := true |}.

(** A single tab, the focused one. *)
Definition singleTab : list Tab :=
  [ mkTab (Some 1) (Some exampleUrl) true (Some 1000) ].

(** Three tabs on three sites, all used recently. *)
Definition threeSites : list Tab :=
  [ mkTab (Some 1) (Some "https://a.com/") true (Some 1000);
    mkTab (Some 2) (Some "https://b.com/") false (Some 990);
    mkTab (Some 3) (Some "https://c.com/") false (Some 980) ].

(** The module state with the warning latch set. *)
Definition latched : State :=
  {| tabActivityMap := ∅; warningActive := true |}.

(** A browser whose [chrome.tabs.query] rejects. *)
Definition browserWithoutTabs (s : Settings) (now : Z) : Browser :=
  {| storageLocalGet := Some (stored s);
     tabsQuery := None;
     dateNow := now;
     actionSetIcon := λ _, true;
     notificationsCreate := λ _, true;
     tabsRemove := λ _, true |}.

(** A limit of two tabs. *)
Definition limitTwo : Settings :=
  {| enabled := true; idleTimeout := 30; maxTabs := JS.ofZ 2;
     whitelist := []; blacklist := [];
     notificationsEnabled := false |}.

(** A limit of two and a half tabs, as a restored settings file may hold
    it. *)
Definition limitTwoAndAHalf : Settings :=
  {| enabled := true; idleTimeout := 30; maxTabs := JS.dyadic 5 (-1);
     whitelist := []; blacklist := [];
     notificationsEnabled := false |}.

(** Five tabs on five sites, all used recently; the first is the focused
    one. *)
Definition fiveSites : list Tab :=
  [ mkTab (Some 1) (Some "https://a.com/") true (Some 1000);
    mkTab (Some 2) (Some "https://b.com/") false (Some 990);
    mkTab (Some 3) (Some "https://c.com/") false (Some 980);
    mkTab (Some 4) (Some "https://d.com/") false (Some 970);
    mkTab (Some 5) (Some "https://e.com/") false (Some 960) ].

(** [maxTabs] set to 0, documented as "unlimited". *)
Definition unlimited : Settings :=
  {| enabled := true; idleTimeout := 30; maxTabs := JS.ofZ 0;
     whitelist := []; blacklist := [];
     notificationsEnabled := false |}.

(** A browser whose [chrome.notifications.create] throws and whose other
    calls succeed. *)
Definition browserWithoutNotifications (s : Settings) (tabs : list Tab) (now : Z)
  : Browser :=
  {| storageLocalGet := Some (stored s);
     tabsQuery := Some tabs;
     dateNow := now;
     actionSetIcon := λ _, true;
     notificationsCreate := λ _, false;
     tabsRemove := λ _, true |}.

(** A browser whose [chrome.tabs.remove] rejects. *)
Definition browserWithoutRemove (s : Settings) (tabs : list Tab) (now : Z)
  : Browser :=
  {| storageLocalGet := Some (stored s);
     tabsQuery := Some tabs;
     dateNow := now;
     actionSetIcon := λ _, true;
     notificationsCreate := λ _, true;
     tabsRemove := λ _, false |}.

(** The limit of five tabs with [b.com] blacklisted: three tabs reach the
    warning threshold and tab 2 is to be closed. *)
Definition limitFiveBlacklisting : Settings :=
  {| enabled := true; idleTimeout := 30; maxTabs := JS.ofZ 5;
     whitelist := []; blacklist := ["b.com"];
     notificationsEnabled := true |}.

(** * Properties *)

(** ** Numbers: the arithmetic of integers is exact

    Below [2^53] in absolute value an integer is a double, and the
    difference and the comparisons of two such integers are those of the
    integers. *)

Lemma roundShift_exact (q d : Z) :
  0 < d → JS.roundShift (q * 2 ^ d) d = q.
Proof.
  intros Hd. unfold JS.roundShift. cbv zeta.
  assert (Hp : 0 < 2 ^ d) by (apply Z.pow_pos_nonneg; lia).
  assert (Hh : 0 < 2 ^ (d - 1)) by (apply Z.pow_pos_nonneg; lia).
  rewrite Z.mod_mul, Z.div_mul by lia.
  destruct (Z.ltb_spec 0 (2 ^ (d - 1))); [reflexivity|lia].
Qed.

Lemma round64_exact (m k : Z) :
  0 ≤ k → Z.abs m < 2 ^ 53 → Z.abs m * 2 ^ k < 2 ^ 2098 →
  JS.round64 (m * 2 ^ k) = JS.Finite (m * 2 ^ k).
Proof.
  intros Hk Hm Hmax. unfold JS.round64. cbv zeta.
  assert (Hp : 0 < 2 ^ k) by (apply Z.pow_pos_nonneg; lia).
  assert (Habs : Z.abs (m * 2 ^ k) = Z.abs m * 2 ^ k)
    by (rewrite Z.abs_mul, (Z.abs_eq (2 ^ k)); lia).
  rewrite Habs.
  destruct (Z.ltb_spec (Z.abs m * 2 ^ k) (2 ^ 53)) as [|Hbig]; [reflexivity|].
  assert (Hm0 : 0 < Z.abs m) by nia.
  assert (Hlog : Z.log2 (Z.abs m * 2 ^ k) = k + Z.log2 (Z.abs m))
    by (apply Z.log2_mul_pow2; lia).
  assert (Hlm : Z.log2 (Z.abs m) < 53) by (apply Z.log2_lt_pow2; lia).
  assert (Hla : 53 ≤ Z.log2 (Z.abs m * 2 ^ k)) by (apply Z.log2_le_pow2; lia).
  rewrite Hlog in *.
  set (d := k + Z.log2 (Z.abs m) - 52).
  assert (Hd : 0 < d ≤ k) by (unfold d; lia).
  assert (Hsplit : Z.abs m * 2 ^ k = (Z.abs m * 2 ^ (k - d)) * 2 ^ d).
  { rewrite <- Z.mul_assoc, <- Z.pow_add_r by lia. do 2 f_equal. lia. }
  assert (Hr : JS.roundShift (Z.abs m * 2 ^ k) d = Z.abs m * 2 ^ (k - d))
    by (rewrite Hsplit; apply roundShift_exact; lia).
  rewrite Hr, <- Hsplit.
  destruct (Z.leb_spec (2 ^ 2098) (Z.abs m * 2 ^ k)); [lia|].
  f_equal. rewrite Z.sgn_mul, (Z.sgn_pos (2 ^ k)) by lia.
  assert (Hs : Z.sgn m * Z.abs m = m) by (rewrite Z.mul_comm; apply Z.abs_sgn).
  rewrite Z.mul_1_r, Z.mul_assoc, Hs. reflexivity.
Qed.

Lemma one_pos : 0 < JS.one.
Proof. unfold JS.one. apply Z.pow_pos_nonneg; lia. Qed.

Lemma ofZ_exact (z : Z) : Z.abs z < 2 ^ 53 → JS.ofZ z = JS.Finite (z * JS.one).
Proof.
  intros Hz. unfold JS.ofZ, JS.one. apply round64_exact; [lia|assumption|].
  apply Z.lt_le_trans with (2 ^ 53 * 2 ^ 1074).
  - apply Z.mul_lt_mono_pos_r; [apply Z.pow_pos_nonneg; lia|assumption].
  - rewrite <- Z.pow_add_r by lia. apply Z.pow_le_mono_r; lia.
Qed.

Lemma sub_ofZ (a b : Z) :
  Z.abs a < 2 ^ 53 → Z.abs b < 2 ^ 53 → Z.abs (a - b) < 2 ^ 53 →
  JS.sub (JS.ofZ a) (JS.ofZ b) = JS.ofZ (a - b).
Proof.
  intros Ha Hb Hab. rewrite !ofZ_exact by assumption. unfold JS.sub.
  rewrite <- Z.mul_sub_distr_r. fold (JS.ofZ (a - b)). now apply ofZ_exact.
Qed.

Lemma ltb_ofZ (a b : Z) :
  Z.abs a < 2 ^ 53 → Z.abs b < 2 ^ 53 → JS.ltb (JS.ofZ a) (JS.ofZ b) = (a <? b).
Proof.
  intros Ha Hb. rewrite !ofZ_exact by assumption. unfold JS.ltb.
  pose proof one_pos.
  destruct (Z.ltb_spec a b), (Z.ltb_spec (a * JS.one) (b * JS.one)); try reflexivity; nia.
Qed.

Lemma leb_ofZ (a b : Z) :
  Z.abs a < 2 ^ 53 → Z.abs b < 2 ^ 53 → JS.leb (JS.ofZ a) (JS.ofZ b) = (a <=? b).
Proof.
  intros Ha Hb. rewrite !ofZ_exact by assumption. unfold JS.leb.
  pose proof one_pos.
  destruct (Z.leb_spec a b), (Z.leb_spec (a * JS.one) (b * JS.one)); try reflexivity; nia.
Qed.

(** The rounding at work: 5 - 2.5 is 2.5, which 2 does not reach and 3
    does; 3 - 0.9999999999999999 is rounded to 2; [2^53 + 1] is no double
    and becomes [2^53]; twice the largest double is an infinity. *)
Example number_examples :
  JS.sub (JS.ofZ 5) (JS.dyadic 5 (-1)) = JS.dyadic 5 (-1) ∧
  JS.geb (JS.ofZ 2) (JS.dyadic 5 (-1)) = false ∧
  JS.geb (JS.ofZ 3) (JS.dyadic 5 (-1)) = true ∧
  JS.sub (JS.ofZ 3) (JS.dyadic (2 ^ 53 - 1) (-53)) = JS.ofZ 2 ∧
  JS.ofZ (2 ^ 53 + 1) = JS.ofZ (2 ^ 53) ∧
  JS.ofZ (2 ^ 53 + 3) = JS.ofZ (2 ^ 53 + 4) ∧
  JS.sub (JS.dyadic (2 ^ 53 - 1) 971) (JS.dyadic (1 - 2 ^ 53) 971)
    = JS.Infinity false ∧
  JS.geb (JS.ofZ 0) JS.NaN = false ∧ JS.ltb (JS.ofZ 0) JS.NaN = false.
Proof. split_and!; vm_compute; reflexivity. Qed.

(** ** Strings: [endsWith] is the suffix relation *)

Lemma string_app_cons (c : ascii) (a b : string) :
  String c a +:+ b = String c (a +:+ b).
Proof. reflexivity. Qed.

Lemma string_length_app (a b : string) :
  String.length (a +:+ b) = (String.length a + String.length b)%nat.
Proof. induction a as [|c a IH]; simpl; [reflexivity | now rewrite IH]. Qed.

Lemma substring_whole (s : string) :
  String.substring 0 (String.length s) s = s.
Proof. induction s as [|c s IH]; simpl; [reflexivity | now rewrite IH]. Qed.

Lemma substring_after_prefix (pre suf : string) :
  String.substring (String.length pre) (String.length suf) (pre +:+ suf) = suf.
Proof.
  induction pre as [|c pre IH]; simpl.
  - apply substring_whole.
  - exact IH.
Qed.

Lemma substring_split (s : string) (m : nat) :
  (m ≤ String.length s)%nat →
  s = String.substring 0 m s +:+ String.substring m (String.length s - m) s.
Proof.
  revert m. induction s as [|c s IH]; intros [|m] Hm; simpl in *.
  - reflexivity.
  - lia.
  - now rewrite substring_whole.
  - rewrite string_app_cons. f_equal. apply IH. lia.
Qed.

Lemma endsWith_suffix (s suffix : string) :
  JS.endsWith s suffix = true ↔ ∃ pre, s = pre +:+ suffix.
Proof.
  unfold JS.endsWith. rewrite andb_true_iff, Nat.leb_le, String.eqb_eq. split.
  - intros [Hle Hsub].
    set (m := (String.length s - String.length suffix)%nat) in *.
    exists (String.substring 0 m s).
    assert (Hk : String.length suffix = (String.length s - m)%nat) by lia.
    transitivity (String.substring 0 m s +:+ String.substring m (String.length s - m) s).
    + apply substring_split. lia.
    + rewrite <- Hk. now rewrite Hsub.
  - intros [pre ->]. rewrite string_length_app. split; [lia|].
    replace (String.length pre + String.length suffix - String.length suffix)%nat
      with (String.length pre) by lia.
    apply substring_after_prefix.
Qed.

Lemma truthyString_nonempty (s : string) :
  JS.truthyString s = true ↔ s ≠ "".
Proof. destruct s; simpl; split; congruence. Qed.

(** ** C4: the domain matcher *)

(** [domainMatches] decides: both arguments non-empty, and the domain is the
    pattern or ends with a dot followed by the pattern. *)
Lemma domainMatches_iff (D P : string) :
  domainMatches D P = true ↔
  D ≠ "" ∧ P ≠ "" ∧ (D = P ∨ ∃ pre, D = pre +:+ "." +:+ P).
Proof.
  unfold domainMatches.
  destruct (JS.truthyString D) eqn:HD; simpl.
  2:{ destruct D; [|discriminate]. split; [discriminate | intros [? _]; congruence]. }
  destruct (JS.truthyString P) eqn:HP; simpl.
  2:{ destruct P; [|discriminate]. split; [discriminate | intros (_ & ? & _); congruence]. }
  apply truthyString_nonempty in HD, HP.
  destruct (String.eqb_spec D P) as [->|Hne].
  - split; auto.
  - destruct (JS.endsWith D ("." +:+ P)) eqn:He.
    + apply endsWith_suffix in He. split; auto.
    + split; [discriminate|]. intros (_ & _ & [?|Hs]); [congruence|].
      apply endsWith_suffix in Hs. congruence.
Qed.

Lemma dot_suffix_nonempty (pre P : string) : pre +:+ "." +:+ P ≠ "".
Proof. destruct pre; discriminate. Qed.

(** C4, as stated, fails: the two empty strings are equal, yet
    [domainMatches] answers false on them, so the equivalence with
    "D equals P or D ends with a dot followed by P" does not hold for all
    strings. *)
Lemma domainMatches_empty_refutes_iff :
  ¬ (domainMatches "" "" = true ↔
     ("" = "" ∨ ∃ pre, "" = pre +:+ "." +:+ "")).
Proof. intros [_ H]. specialize (H (or_introl eq_refl)). discriminate. Qed.

(** C4, amended: for every domain D and every pattern P, [domainMatches D P]
    is true exactly when P is not empty and D equals P or ends with a dot
    followed by P; it is false as soon as one argument is empty;
    ["fakegoogle.com"] does not match ["google.com"] and
    ["a.b.c.example.com"] matches ["example.com"]. *)
Theorem domainMatches_spec :
  (∀ D P, domainMatches D P = true ↔
          P ≠ "" ∧ (D = P ∨ ∃ pre, D = pre +:+ "." +:+ P)) ∧
  (∀ P, domainMatches "" P = false) ∧
  (∀ D, domainMatches D "" = false) ∧
  domainMatches "fakegoogle.com" "google.com" = false ∧
  domainMatches "a.b.c.example.com" "example.com" = true.
Proof.
  split_and!.
  - intros D P. rewrite domainMatches_iff. split.
    + intros (_ & HP & H). now split.
    + intros (HP & H). split_and!; [|assumption|assumption].
      destruct H as [->|[pre ->]]; [assumption|apply dot_suffix_nonempty].
  - intros P. reflexivity.
  - intros D. unfold domainMatches. simpl. now rewrite orb_true_r.
  - reflexivity.
  - reflexivity.
Qed.

(** ** C6: the activity tracker *)

(** For a tab whose id is a non-zero number, [getLastActivity] returns the
    stored record when there is one, else [tab.lastAccessed], else 0; a tab
    without id gets the fallback. *)
Lemma getLastActivity_nonzero (m : gmap Z Z) (tab : Tab) (i : Z) :
  tab_id tab = Some i → i ≠ 0 →
  getLastActivity m tab =
  match m !! i with
  | Some timestamp => timestamp
  | None => match tab_lastAccessed tab with Some a => a | None => 0 end
  end.
Proof.
  intros Hid Hi. unfold getLastActivity. rewrite Hid. simpl.
  destruct (Z.eqb_spec i 0); [contradiction|]. reflexivity.
Qed.

Lemma getLastActivity_no_id (m : gmap Z Z) (tab : Tab) :
  tab_id tab = None →
  getLastActivity m tab = match tab_lastAccessed tab with Some a => a | None => 0 end.
Proof. intros Hid. unfold getLastActivity. now rewrite Hid. Qed.

(** C6 fails for the tab id 0: [updateTabActivity] stores a record under
    id 0, and [getLastActivity] then returns [tab.lastAccessed] (here 100)
    instead of the stored timestamp (here 5000). *)
Theorem getLastActivity_ignores_record_of_id_zero :
  let m := updateTabActivity 5000 0 ∅ in
  let tab := mkTab (Some 0) (Some exampleUrl) false (Some 100) in
  m !! 0 = Some 5000 ∧ getLastActivity m tab = 100.
Proof. split; reflexivity. Qed.

(** ** Sets as insertion-ordered lists *)

Lemma elem_of_setAdd (x y : Z) (s : list Z) :
  x ∈ JS.setAdd y s ↔ x = y ∨ x ∈ s.
Proof.
  unfold JS.setAdd, JS.setHas. case_bool_decide as Hy.
  - split; [auto|]. intros [->|?]; assumption.
  - rewrite elem_of_app, list_elem_of_singleton. tauto.
Qed.

(** ** The stable sort *)

Lemma sortInsert_perm {A} (cmp : A → A → Z) (x : A) (l : list A) :
  JS.sortInsert cmp x l ≡ₚ x :: l.
Proof.
  induction l as [|y l IH]; simpl; [reflexivity|].
  destruct (cmp x y <=? 0); [reflexivity|].
  rewrite IH. apply Permutation_swap.
Qed.

Lemma sort_perm {A} (cmp : A → A → Z) (l : list A) : JS.sort cmp l ≡ₚ l.
Proof.
  induction l as [|x l IH]; simpl; [reflexivity|].
  now rewrite sortInsert_perm, IH.
Qed.

Lemma tail_subset {A} (l : list A) (x : A) : x ∈ tail l → x ∈ l.
Proof. destruct l; simpl; [trivial|]. intros ?. now right. Qed.

Lemma elem_of_sort {A} (cmp : A → A → Z) (l : list A) (x : A) :
  x ∈ JS.sort cmp l ↔ x ∈ l.
Proof. now rewrite sort_perm. Qed.

(** ** Duplicate detector: the groups *)

Lemma urlMapPush_keys (u : string) (t : Tab) (M : list (string * list Tab)) :
  (urlMapPush u t M).*1 = if bool_decide (u ∈ M.*1) then M.*1 else M.*1 ++ [u].
Proof.
  induction M as [|[k g] M IH]; cbn [urlMapPush].
  - reflexivity.
  - destruct (String.eqb_spec k u) as [->|Hne]; rewrite !fmap_cons; cbn [fst].
    + rewrite bool_decide_eq_true_2 by left. reflexivity.
    + rewrite IH. case_bool_decide as Hin.
      * rewrite bool_decide_eq_true_2 by now right. reflexivity.
      * rewrite bool_decide_eq_false_2; [reflexivity|].
        rewrite elem_of_cons. intros [?|?]; congruence.
Qed.

Lemma urlMapPush_NoDup (u : string) (t : Tab) (M : list (string * list Tab)) :
  NoDup M.*1 → NoDup (urlMapPush u t M).*1.
Proof.
  intros HM. rewrite urlMapPush_keys. case_bool_decide as Hin; [assumption|].
  apply NoDup_app. split_and!; [assumption | | apply NoDup_singleton].
  intros x Hx ->%list_elem_of_singleton. contradiction.
Qed.

Lemma elem_of_urlMapPush (u : string) (t : Tab) (M : list (string * list Tab))
    (k : string) (g : list Tab) :
  NoDup M.*1 →
  (k, g) ∈ urlMapPush u t M ↔
  (k ≠ u ∧ (k, g) ∈ M) ∨
  (k = u ∧ ∃ g0, g = g0 ++ [t] ∧ ((u, g0) ∈ M ∨ (g0 = [] ∧ u ∉ M.*1))).
Proof.
  induction M as [|[k' g'] M IH]; cbn [urlMapPush]; intros HM.
  - rewrite list_elem_of_singleton. split.
    + intros [= -> ->]. right. split; [reflexivity|]. exists [].
      split; [reflexivity|]. right. split; [reflexivity|]. apply not_elem_of_nil.
    + intros [[_ H]|[-> (g0 & -> & [H|[-> _]])]].
      * now apply elem_of_nil in H.
      * now apply elem_of_nil in H.
      * reflexivity.
  - rewrite fmap_cons in HM. cbn [fst] in HM.
    apply NoDup_cons in HM as [Hk' HM]. specialize (IH HM).
    destruct (String.eqb_spec k' u) as [->|Hne].
    + rewrite !elem_of_cons. split.
      * intros [[= -> ->]|Hin].
        -- right. split; [reflexivity|]. exists g'. split; [reflexivity|]. left. now left.
        -- left. split; [|now right]. intros ->. apply Hk'.
           apply list_elem_of_fmap. exists (u, g). split; [reflexivity|assumption].
      * intros [[Hne [[= ? ?]|Hin]]|[-> (g0 & -> & [Hin|[-> Hnot]])]].
        -- congruence.
        -- now right.
        -- apply elem_of_cons in Hin as [[= ->]|Hin]; [now left|].
           exfalso. apply Hk'. apply list_elem_of_fmap. exists (u, g0). split; [reflexivity|assumption].
        -- exfalso. apply Hnot. now left.
    + rewrite !elem_of_cons, IH. split.
      * intros [[= -> ->]|[[Hku Hin]|[-> (g0 & -> & [Hin|[-> Hnot]])]]].
        -- left. split; [assumption|now left].
        -- left. split; [assumption|now right].
        -- right. split; [reflexivity|]. exists g0. split; [reflexivity|]. left. now right.
        -- right. split; [reflexivity|]. exists []. split; [reflexivity|]. right.
           split; [reflexivity|]. rewrite fmap_cons, elem_of_cons. cbn [fst].
           intros [?|?]; [congruence|contradiction].
      * intros [[Hku [[= -> ->]|Hin]]|[-> (g0 & -> & [Hin|[-> Hnot]])]].
        -- now left.
        -- right. left. split; assumption.
        -- apply elem_of_cons in Hin as [[= ? ?]|Hin]; [congruence|].
           right. right. split; [reflexivity|]. exists g0. split; [reflexivity|]. now left.
        -- right. right. split; [reflexivity|]. exists []. split; [reflexivity|]. right.
           split; [reflexivity|]. intros Hin. apply Hnot. now right.
Qed.

Lemma buildUrlMap_snoc (l : list Tab) (t : Tab) :
  buildUrlMap (l ++ [t]) = urlMapStep (buildUrlMap l) t.
Proof. unfold buildUrlMap. now rewrite fold_left_app. Qed.

Lemma sameUrl_snoc (u : string) (l : list Tab) (t : Tab) :
  sameUrl u (l ++ [t]) =
  sameUrl u l ++ (if decide (tab_url t = Some u) then [t] else []).
Proof.
  unfold sameUrl. rewrite filter_app. reflexivity.
Qed.

Lemma buildUrlMap_NoDup (l : list Tab) : NoDup (buildUrlMap l).*1.
Proof.
  induction l as [|t l IH] using rev_ind.
  - apply NoDup_nil_2.
  - rewrite buildUrlMap_snoc. unfold urlMapStep.
    destruct (tab_url t) as [u|]; [|assumption].
    destruct (negb _); [assumption|]. now apply urlMapPush_NoDup.
Qed.

(** The entries of the url map are the non-empty urls that occur, each with
    the tabs of exactly that url in snapshot order. *)
Lemma elem_of_buildUrlMap (l : list Tab) (u : string) (g : list Tab) :
  (u, g) ∈ buildUrlMap l ↔ u ≠ "" ∧ g ≠ [] ∧ g = sameUrl u l.
Proof.
  revert u g. induction l as [|t l IH] using rev_ind; intros u g.
  - split; [intros H; now apply elem_of_nil in H|].
    intros (_ & Hg & ->). now destruct Hg.
  - assert (Hkeys : ∀ k, k ∈ (buildUrlMap l).*1 ↔ k ≠ "" ∧ sameUrl k l ≠ []).
    { intros k. rewrite list_elem_of_fmap. split.
      - intros ([k' g'] & -> & Hin). apply IH in Hin as (? & ? & ->). now split.
      - intros [? ?]. exists (k, sameUrl k l). split; [reflexivity|]. now apply IH. }
    rewrite buildUrlMap_snoc, sameUrl_snoc. unfold urlMapStep.
    destruct (tab_url t) as [u0|] eqn:Hu0.
    2:{ rewrite decide_False by discriminate. rewrite app_nil_r. apply IH. }
    destruct u0 as [|c u0]; simpl.
    { rewrite IH. split; intros (Hu & Hg & ->); (split; [assumption|]);
        rewrite decide_False in * by congruence; rewrite app_nil_r in *; now split. }
    rewrite elem_of_urlMapPush by apply buildUrlMap_NoDup.
    setoid_rewrite Hkeys. setoid_rewrite IH. split.
    + intros [[Hne (Hu & Hg & ->)]|[-> (g0 & -> & [(Hu & Hg & ->)|[-> Hnot]])]].
      * rewrite decide_False by congruence. rewrite app_nil_r. now split.
      * rewrite decide_True by reflexivity. split_and!; [discriminate| |reflexivity].
        now intros ?%app_eq_nil.
      * rewrite decide_True by reflexivity. split_and!; [discriminate|discriminate|].
        destruct (sameUrl (String c u0) l) eqn:Hs; [reflexivity|].
        exfalso. apply Hnot. split; discriminate.
    + intros (Hu & Hg & ->). case_decide as Hd.
      * injection Hd as <-. right. split; [reflexivity|].
        exists (sameUrl (String c u0) l). split; [reflexivity|].
        destruct (sameUrl (String c u0) l) eqn:Hs.
        -- right. split; [reflexivity|]. intros [_ ?]. congruence.
        -- left. split_and!; [discriminate|discriminate|reflexivity].
      * left. rewrite app_nil_r in *. split_and!; try done. congruence.
Qed.

(** ** The stable sort yields a sorted arrangement *)

Section SortSorted.
Context {A : Type} (cmp : A → A → Z).
Hypothesis cmp_trans : ∀ a b c, cmp a b ≤ 0 → cmp b c ≤ 0 → cmp a c ≤ 0.
Hypothesis cmp_total : ∀ a b, 0 < cmp a b → cmp b a ≤ 0.

Lemma sortInsert_sorted (x : A) (l : list A) :
  StronglySorted (λ a b, cmp a b ≤ 0) l →
  StronglySorted (λ a b, cmp a b ≤ 0) (JS.sortInsert cmp x l).
Proof.
  induction 1 as [|y l Hl IH Hy]; simpl.
  - repeat constructor.
  - destruct (Z.leb_spec (cmp x y) 0) as [Hxy|Hxy].
    + constructor; [now constructor|]. constructor; [assumption|].
      eapply Forall_impl; [exact Hy|]. intros z Hyz. simpl in *. eauto.
    + constructor; [assumption|].
      rewrite sortInsert_perm. constructor; [|assumption]. now apply cmp_total.
Qed.

Lemma sort_sorted (l : list A) :
  StronglySorted (λ a b, cmp a b ≤ 0) (JS.sort cmp l).
Proof.
  induction l as [|x l IH]; simpl; [constructor|]. now apply sortInsert_sorted.
Qed.

(** The sort is stable: members that the comparator ranks equal with some
    [x] keep their order. *)
Lemma sortInsert_stable (x a : A) (l : list A) :
  filter (λ b, cmp x b ≤ 0 ∧ cmp b x ≤ 0) (JS.sortInsert cmp a l) =
  filter (λ b, cmp x b ≤ 0 ∧ cmp b x ≤ 0) (a :: l).
Proof.
  induction l as [|y l IH]; simpl; [reflexivity|].
  destruct (Z.leb_spec (cmp a y) 0) as [Hay|Hay]; [reflexivity|].
  rewrite (filter_cons _ y), IH, !filter_cons.
  destruct (decide (cmp x y ≤ 0 ∧ cmp y x ≤ 0)) as [[Hxy Hyx]|Hy]; [|reflexivity].
  destruct (decide (cmp x a ≤ 0 ∧ cmp a x ≤ 0)) as [[Hxa Hax]|Ha]; [|reflexivity].
  pose proof (cmp_trans a x y Hax Hxy). lia.
Qed.

Lemma sort_stable (x : A) (l : list A) :
  filter (λ b, cmp x b ≤ 0 ∧ cmp b x ≤ 0) (JS.sort cmp l) =
  filter (λ b, cmp x b ≤ 0 ∧ cmp b x ≤ 0) l.
Proof.
  induction l as [|a l IH]; simpl; [reflexivity|].
  now rewrite sortInsert_stable, !filter_cons, IH.
Qed.

Lemma cmp_refl (a : A) : cmp a a ≤ 0.
Proof. destruct (Z.le_gt_cases (cmp a a) 0) as [?|H]; [assumption|]. now apply cmp_total. Qed.

(** A sorted list is determined by the order of its members of equal rank. *)
Lemma sorted_stable_unique (l1 l2 : list A) :
  StronglySorted (λ a b, cmp a b ≤ 0) l1 →
  StronglySorted (λ a b, cmp a b ≤ 0) l2 →
  (∀ x, filter (λ b, cmp x b ≤ 0 ∧ cmp b x ≤ 0) l1 =
        filter (λ b, cmp x b ≤ 0 ∧ cmp b x ≤ 0) l2) →
  l1 = l2.
Proof.
  intros Hs1. revert l2. induction Hs1 as [|a l1 Hs1 IH Ha]; intros l2 Hs2 Heq.
  - destruct l2 as [|b l2]; [reflexivity|]. specialize (Heq b).
    rewrite filter_nil, filter_cons, decide_True in Heq by (split; apply cmp_refl).
    discriminate.
  - destruct Hs2 as [|b l2 Hs2 Hb].
    { specialize (Heq a).
      rewrite filter_nil, filter_cons, decide_True in Heq by (split; apply cmp_refl).
      discriminate. }
    rewrite Forall_forall in Ha, Hb.
    assert (Hba : cmp b a ≤ 0).
    { pose proof (Heq a) as H.
      rewrite (filter_cons _ a), decide_True in H by (split; apply cmp_refl).
      assert (Hin : a ∈ filter (λ b0, cmp a b0 ≤ 0 ∧ cmp b0 a ≤ 0) (b :: l2))
        by (rewrite <- H; left).
      apply list_elem_of_filter in Hin as [_ [->|Hin]%elem_of_cons];
        [apply cmp_refl|now apply Hb]. }
    assert (Hab : cmp a b ≤ 0).
    { pose proof (Heq b) as H.
      rewrite (filter_cons _ b), decide_True in H by (split; apply cmp_refl).
      assert (Hin : b ∈ filter (λ b0, cmp b b0 ≤ 0 ∧ cmp b0 b ≤ 0) (a :: l1))
        by (rewrite H; left).
      apply list_elem_of_filter in Hin as [_ [->|Hin]%elem_of_cons];
        [apply cmp_refl|now apply Ha]. }
    assert (a = b) as <-.
    { pose proof (Heq a) as H.
      rewrite !filter_cons, !decide_True in H
        by (split; (apply cmp_refl || assumption)).
      congruence. }
    f_equal. apply IH; [assumption|]. intros x. specialize (Heq x).
    rewrite !filter_cons in Heq. destruct (decide _); congruence.
Qed.

(** Any sorted, stable arrangement of an array is the one [JS.sort]
    computes. *)
Lemma sort_unique (l l' : list A) :
  StronglySorted (λ a b, cmp a b ≤ 0) l' →
  (∀ x, filter (λ b, cmp x b ≤ 0 ∧ cmp b x ≤ 0) l' =
        filter (λ b, cmp x b ≤ 0 ∧ cmp b x ≤ 0) l) →
  l' = JS.sort cmp l.
Proof.
  intros Hs Hst. apply sorted_stable_unique; [assumption|apply sort_sorted|].
  intros x. now rewrite sort_stable.
Qed.

(** The first element of a sorted array is in front of every member. *)
Lemma sort_head_least (l : list A) (k : A) (others : list A) :
  JS.sort cmp l = k :: others →
  l ≡ₚ k :: others ∧ ∀ t, t ∈ others → cmp k t ≤ 0.
Proof.
  intros Hs. split.
  - rewrite <- Hs. symmetry. apply sort_perm.
  - pose proof (sort_sorted l) as Hsorted. rewrite Hs in Hsorted.
    apply StronglySorted_inv in Hsorted as [_ Hall].
    intros t Ht. now apply (proj1 (Forall_forall _ _) Hall).
Qed.

End SortSorted.

(** Both comparators are consistent: swapping the arguments flips the
    sign, so it does not matter in which direction an engine calls them. *)
Lemma compareDuplicates_antisym (a b : Tab) :
  compareDuplicates b a = - compareDuplicates a b.
Proof.
  unfold compareDuplicates.
  destruct (tab_active a), (tab_active b); simpl; lia.
Qed.

Lemma compareLastAccessed_antisym (a b : Tab) :
  compareLastAccessed b a = - compareLastAccessed a b.
Proof. unfold compareLastAccessed. lia. Qed.

Lemma compareDuplicates_trans (a b c : Tab) :
  compareDuplicates a b ≤ 0 → compareDuplicates b c ≤ 0 → compareDuplicates a c ≤ 0.
Proof.
  unfold compareDuplicates.
  destruct (tab_active a), (tab_active b), (tab_active c); simpl; lia.
Qed.

Lemma compareDuplicates_total (a b : Tab) :
  0 < compareDuplicates a b → compareDuplicates b a ≤ 0.
Proof.
  unfold compareDuplicates.
  destruct (tab_active a), (tab_active b); simpl; lia.
Qed.

Lemma compareLastAccessed_trans (a b c : Tab) :
  compareLastAccessed a b ≤ 0 → compareLastAccessed b c ≤ 0 → compareLastAccessed a c ≤ 0.
Proof. unfold compareLastAccessed. lia. Qed.

Lemma compareLastAccessed_total (a b : Tab) :
  0 < compareLastAccessed a b → compareLastAccessed b a ≤ 0.
Proof. unfold compareLastAccessed. lia. Qed.

Lemma sort_length {A} (cmp : A → A → Z) (l : list A) :
  length (JS.sort cmp l) = length l.
Proof. now rewrite sort_perm. Qed.

(** ** Duplicate detector: keeper and result *)

(** In a non-empty group the sorted array starts with the keeper: an active
    member when there is one, else a member accessed last. *)
Lemma keeper_of_group (g : list Tab) (keeper : Tab) (others : list Tab) :
  JS.sort compareDuplicates g = keeper :: others →
  g ≡ₚ keeper :: others ∧
  ((∃ t, t ∈ g ∧ tab_active t = true) → tab_active keeper = true) ∧
  ((∀ t, t ∈ g → tab_active t = false) →
   ∀ t, t ∈ g → JS.orZero (tab_lastAccessed t) ≤ JS.orZero (tab_lastAccessed keeper)).
Proof.
  intros Hs.
  destruct (sort_head_least compareDuplicates
              compareDuplicates_trans compareDuplicates_total g keeper others Hs)
    as [Hperm Hleast].
  split_and!; [assumption| |].
  - intros (t & Ht & Hact). rewrite Hperm in Ht.
    apply elem_of_cons in Ht as [->|Ht]; [assumption|].
    specialize (Hleast t Ht). unfold compareDuplicates in Hleast.
    rewrite Hact in Hleast. destruct (tab_active keeper); [reflexivity|].
    simpl in Hleast. lia.
  - intros Hnone t Ht.
    assert (Hk : tab_active keeper = false).
    { apply Hnone. rewrite Hperm. now left. }
    pose proof (Hnone t Ht) as Hta.
    rewrite Hperm in Ht. apply elem_of_cons in Ht as [->|Ht]; [lia|].
    specialize (Hleast t Ht). unfold compareDuplicates in Hleast.
    rewrite Hk, Hta in Hleast. simpl in Hleast. lia.
Qed.

Lemma elem_of_pushDuplicates (sorted : list Tab) (i : Z) :
  i ∈ pushDuplicates sorted ↔
  ∃ t, t ∈ tail sorted ∧ tab_id t = Some i ∧ i ≠ 0 ∧ tab_active t = false.
Proof.
  unfold pushDuplicates. rewrite list_elem_of_omap. split.
  - intros (t & Ht & Hf). exists t. split; [assumption|].
    destruct (tab_id t) as [j|] eqn:Hid; simpl in Hf; [|discriminate].
    destruct (Z.eqb_spec j 0); simpl in Hf; [discriminate|].
    destruct (tab_active t); simpl in Hf; [discriminate|].
    injection Hf as ->. now split_and!.
  - intros (t & Ht & Hid & Hi & Hact). exists t. split; [assumption|].
    rewrite Hid, Hact. simpl.
    destruct (Z.eqb_spec i 0); [contradiction|reflexivity].
Qed.

Lemma elem_of_getDuplicateTabs (tabs : list Tab) (i : Z) :
  i ∈ getDuplicateTabs tabs ↔
  ∃ u g, (u, g) ∈ buildUrlMap tabs ∧ (2 ≤ length g)%nat ∧
         i ∈ pushDuplicates (JS.sort compareDuplicates g).
Proof.
  unfold getDuplicateTabs. rewrite list_elem_of_In, in_flat_map. split.
  - intros ([u g] & Hin & Hi). apply list_elem_of_In in Hin.
    unfold groupDuplicates in Hi. simpl in Hi.
    destruct (Nat.ltb_spec 1 (length g)); [|now destruct Hi].
    exists u, g. split_and!; [assumption|lia|now apply list_elem_of_In].
  - intros (u & g & Hin & Hlen & Hi). exists (u, g).
    split; [now apply list_elem_of_In|].
    unfold groupDuplicates. simpl.
    destruct (Nat.ltb_spec 1 (length g)); [now apply list_elem_of_In|lia].
Qed.

(** ** C5: the duplicate detector *)

(** C5, as stated, fails: with two active tabs on one url (one per window)
    the keeper is tab 2 and tab 1 is another member of the group, yet no id
    is returned. *)
Lemma getDuplicateTabs_spares_second_active :
  (exampleUrl, twoActive) ∈ buildUrlMap twoActive ∧
  JS.sort compareDuplicates twoActive =
    [ mkTab (Some 2) (Some exampleUrl) true (Some 200);
      mkTab (Some 1) (Some exampleUrl) true (Some 50) ] ∧
  getDuplicateTabs twoActive = [].
Proof. split_and!; [left | reflexivity | reflexivity]. Qed.

(** C5, amended: [getDuplicateTabs] groups the tabs by exact url, tabs
    without url (or with the empty url) being in no group and never flagged;
    in every group of at least two the keeper, first of the sorted group, is
    an active member if there is one, else a member with the greatest
    [lastAccessed] (missing is 0); the id of every other member that is not
    active is returned when it is a non-zero number, and nothing else is
    returned: every returned id is the id of an inactive member, other than
    the keeper, of such a group. On [threeInactive] the result is {1, 3} and
    on [activeAndNewer] it is {2}. *)
Theorem getDuplicateTabs_spec (tabs : list Tab) :
  (∀ u g, (u, g) ∈ buildUrlMap tabs ↔ u ≠ "" ∧ g ≠ [] ∧ g = sameUrl u tabs) ∧
  (∀ u g, (u, g) ∈ buildUrlMap tabs → (2 ≤ length g)%nat →
     ∃ keeper others,
       JS.sort compareDuplicates g = keeper :: others ∧
       g ≡ₚ keeper :: others ∧
       ((∃ t, t ∈ g ∧ tab_active t = true) → tab_active keeper = true) ∧
       ((∀ t, t ∈ g → tab_active t = false) →
        ∀ t, t ∈ g →
          JS.orZero (tab_lastAccessed t) ≤ JS.orZero (tab_lastAccessed keeper)) ∧
       (∀ t i, t ∈ others → tab_active t = false → tab_id t = Some i → i ≠ 0 →
          i ∈ getDuplicateTabs tabs)) ∧
  (∀ i, i ∈ getDuplicateTabs tabs →
     ∃ u g keeper others t,
       (u, g) ∈ buildUrlMap tabs ∧ (2 ≤ length g)%nat ∧
       JS.sort compareDuplicates g = keeper :: others ∧
       t ∈ others ∧ t ∈ tabs ∧ tab_url t = Some u ∧
       tab_id t = Some i ∧ tab_active t = false) ∧
  getDuplicateTabs threeInactive = [3; 1] ∧
  getDuplicateTabs activeAndNewer = [2].
Proof.
  split_and!; [apply elem_of_buildUrlMap | | | reflexivity | reflexivity].
  - intros u g Hin Hlen.
    destruct (JS.sort compareDuplicates g) as [|keeper others] eqn:Hs.
    { pose proof (sort_length compareDuplicates g) as Hl.
      rewrite Hs in Hl. simpl in Hl. lia. }
    exists keeper, others.
    destruct (keeper_of_group g keeper others Hs) as (Hperm & Hact & Hla).
    split_and!; try done.
    intros t i Ht Hta Hid Hi. apply elem_of_getDuplicateTabs.
    exists u, g. split_and!; [assumption..|].
    apply elem_of_pushDuplicates. exists t. rewrite Hs. now split_and!.
  - intros i (u & g & Hin & Hlen & Hi)%elem_of_getDuplicateTabs.
    apply elem_of_pushDuplicates in Hi as (t & Ht & Hid & Hi & Hact).
    destruct (JS.sort compareDuplicates g) as [|keeper others] eqn:Hs.
    { now apply elem_of_nil in Ht. }
    simpl in Ht. exists u, g, keeper, others, t.
    assert (Htg : t ∈ g).
    { rewrite <- (elem_of_sort compareDuplicates), Hs. now right. }
    apply elem_of_buildUrlMap in Hin as Hg. destruct Hg as (_ & _ & Hg).
    rewrite Hg in Htg. apply list_elem_of_filter in Htg as [Hu Htabs].
    now split_and!.
Qed.

(** The two examples of C5, read through the theorem: ids 1 and 3 are
    flagged on [threeInactive]. *)
Lemma getDuplicateTabs_spec_witness :
  getDuplicateTabs threeInactive = [3; 1] ∧
  ∃ u g keeper others t,
    (u, g) ∈ buildUrlMap threeInactive ∧ (2 ≤ length g)%nat ∧
    JS.sort compareDuplicates g = keeper :: others ∧
    t ∈ others ∧ t ∈ threeInactive ∧ tab_url t = Some u ∧
    tab_id t = Some 1 ∧ tab_active t = false.
Proof.
  destruct (getDuplicateTabs_spec threeInactive) as (_ & _ & Hres & Hex & _).
  split; [exact Hex|]. apply Hres. rewrite Hex. right. left.
Defined.

(** ** The three passes only add closable ids *)

Lemma uniqueIds_same_tab (allTabs : list Tab) (t1 t2 : Tab) (i : Z) :
  uniqueIds allTabs → t1 ∈ allTabs → t2 ∈ allTabs →
  tab_id t1 = Some i → tab_id t2 = Some i → t1 = t2.
Proof.
  unfold uniqueIds. induction allTabs as [|t l IH]; intros Hnd H1 H2 Hid1 Hid2.
  - now apply elem_of_nil in H1.
  - simpl in Hnd. destruct (tab_id t) as [j|] eqn:Hj.
    + apply NoDup_cons in Hnd as [Hnotin Hnd].
      assert (Hfresh : ∀ t', t' ∈ l → tab_id t' = Some j → False).
      { intros t' Ht' Hid'. apply Hnotin. apply list_elem_of_omap. now exists t'. }
      apply elem_of_cons in H1 as [->|H1], H2 as [->|H2].
      * reflexivity.
      * exfalso. apply (Hfresh t2 H2). congruence.
      * exfalso. apply (Hfresh t1 H1). congruence.
      * now apply IH.
    + apply elem_of_cons in H1 as [->|H1]; [congruence|].
      apply elem_of_cons in H2 as [->|H2]; [congruence|].
      now apply IH.
Qed.

Section EngineProperties.
Variable urlHostname : string → option string.
Variable settings : Settings.
Variable allTabs : list Tab.

Lemma perTabRule_adds (m : gmap Z Z) (now : Z) (tabsToClose : list Z)
    (tab : Tab) (x : Z) :
  x ∈ perTabRule urlHostname settings m now tabsToClose tab →
  x ∈ tabsToClose ∨
  (tab_id tab = Some x ∧ x ≠ 0 ∧ tab_active tab = false ∧
   someMatches urlHostname (whitelist settings) tab = false).
Proof.
  unfold perTabRule. destruct (tab_id tab) as [i|] eqn:Hid; [|auto]. simpl.
  destruct (Z.eqb_spec i 0) as [|Hi]; simpl; [auto|].
  destruct (tab_active tab) eqn:Hact; [auto|].
  destruct (someMatches urlHostname (whitelist settings) tab) eqn:Hwl; [auto|].
  destruct (someMatches urlHostname (blacklist settings) tab).
  - rewrite elem_of_setAdd. intros [->|?]; auto.
  - destruct (_ && _); [|auto].
    rewrite elem_of_setAdd. intros [->|?]; auto.
Qed.

Lemma perTabPass_adds (m : gmap Z Z) (now : Z) (tabs : list Tab)
    (tabsToClose : list Z) (x : Z) :
  x ∈ perTabPass urlHostname settings m now tabs tabsToClose →
  x ∈ tabsToClose ∨
  ∃ t, t ∈ tabs ∧ tab_id t = Some x ∧ x ≠ 0 ∧ tab_active t = false ∧
       someMatches urlHostname (whitelist settings) t = false.
Proof.
  unfold perTabPass. revert tabsToClose.
  induction tabs as [|tab tabs IH]; intros tabsToClose; simpl; [auto|].
  intros [Hx|(t & Ht & H)]%IH.
  - apply perTabRule_adds in Hx as [?|H]; [auto|].
    right. exists tab. split; [left|assumption].
  - right. exists t. split; [now right|assumption].
Qed.

Lemma duplicateRule_adds (tabsToClose : list Z) (id x : Z) :
  x ∈ duplicateRule urlHostname settings allTabs tabsToClose id →
  x ∈ tabsToClose ∨
  (x = id ∧ ∃ t, t ∈ allTabs ∧ tab_id t = Some x ∧ tab_active t = false ∧
                 someMatches urlHostname (whitelist settings) t = false).
Proof.
  unfold duplicateRule.
  destruct (find _ allTabs) as [tab|] eqn:Hfind; [|auto].
  apply find_some in Hfind as [Hin Hid].
  apply list_elem_of_In in Hin. apply bool_decide_eq_true in Hid.
  destruct (tab_active tab) eqn:Hact; simpl; [auto|].
  destruct (someMatches urlHostname (whitelist settings) tab) eqn:Hwl; simpl; [auto|].
  rewrite elem_of_setAdd. intros [->|?]; [|auto].
  right. split; [reflexivity|]. now exists tab.
Qed.

Lemma duplicatePass_adds (tabsToClose : list Z) (x : Z) :
  x ∈ duplicatePass urlHostname settings allTabs tabsToClose →
  x ∈ tabsToClose ∨ closable urlHostname settings allTabs x.
Proof.
  unfold duplicatePass.
  assert (Hnz : ∀ i, i ∈ getDuplicateTabs allTabs → i ≠ 0).
  { intros i (u & g & _ & _ & Hi)%elem_of_getDuplicateTabs.
    now apply elem_of_pushDuplicates in Hi as (t & _ & _ & Hi & _). }
  revert tabsToClose Hnz.
  induction (getDuplicateTabs allTabs) as [|id ids IH]; intros tabsToClose Hnz;
    simpl; [auto|].
  intros [Hx|Hx]%IH; [|auto|].
  - apply duplicateRule_adds in Hx as [?|[-> (t & Ht & Hid & Hact & Hwl)]]; [auto|].
    right. exists t. split_and!; try done. apply Hnz. left.
  - intros i Hi. apply Hnz. now right.
Qed.

Lemma maxTabsLoop_adds (extraToClose : JS.number) (sortedTabs : list Tab)
    (tabsToClose : list Z) (closedCount x : Z) :
  x ∈ maxTabsLoop urlHostname settings extraToClose sortedTabs tabsToClose closedCount →
  x ∈ tabsToClose ∨
  ∃ t, t ∈ sortedTabs ∧ tab_id t = Some x ∧ x ≠ 0 ∧ tab_active t = false ∧
       someMatches urlHostname (whitelist settings) t = false.
Proof.
  revert tabsToClose closedCount.
  induction sortedTabs as [|tab rest IH]; intros tabsToClose closedCount; simpl; [auto|].
  destruct (JS.geb (JS.ofZ closedCount) extraToClose); [auto|].
  assert (Hskip :
    x ∈ maxTabsLoop urlHostname settings extraToClose rest tabsToClose closedCount →
    x ∈ tabsToClose ∨
    ∃ t, t ∈ tab :: rest ∧ tab_id t = Some x ∧ x ≠ 0 ∧ tab_active t = false ∧
         someMatches urlHostname (whitelist settings) t = false).
  { intros [?|(t & Ht & H)]%IH; [auto|]. right. exists t. split; [now right|assumption]. }
  destruct (tab_id tab) as [i|] eqn:Hid; [|exact Hskip]. simpl.
  destruct (Z.eqb_spec i 0) as [|Hi]; simpl; [exact Hskip|].
  destruct (tab_active tab) eqn:Hact; simpl; [exact Hskip|].
  destruct (JS.setHas i tabsToClose); simpl; [exact Hskip|].
  destruct (someMatches urlHostname (whitelist settings) tab) eqn:Hwl; simpl; [exact Hskip|].
  intros [Hx|(t & Ht & H)]%IH.
  - apply elem_of_setAdd in Hx as [->|?]; [|auto].
    right. exists tab. split; [left|]. now split_and!.
  - right. exists t. split; [now right|assumption].
Qed.

Lemma maxTabPass_adds (tabsToClose : list Z) (x : Z) :
  x ∈ maxTabPass urlHostname settings allTabs tabsToClose →
  x ∈ tabsToClose ∨ closable urlHostname settings allTabs x.
Proof.
  unfold maxTabPass. destruct (JS.gtb _ _); [|auto].
  intros [?|(t & Ht & H)]%maxTabsLoop_adds; [auto|].
  right. exists t. split; [|assumption]. now apply elem_of_sort in Ht.
Qed.

Lemma closeSet_closable (m : gmap Z Z) (now : Z) (x : Z) :
  x ∈ closeSet urlHostname settings m now allTabs →
  closable urlHostname settings allTabs x.
Proof.
  unfold closeSet.
  intros [[[Hx|H]%perTabPass_adds|?]%duplicatePass_adds|?]%maxTabPass_adds;
    try assumption.
  now apply elem_of_nil in Hx.
Qed.

(** With unique ids, an id that is closable is the id of no active tab and
    of no whitelisted tab. *)
Lemma closable_not_active (t : Tab) (i : Z) :
  uniqueIds allTabs → t ∈ allTabs → tab_id t = Some i →
  closable urlHostname settings allTabs i → tab_active t = false.
Proof.
  intros Hu Ht Hid (t' & Ht' & Hid' & _ & Hact & _).
  now rewrite (uniqueIds_same_tab allTabs t t' i Hu Ht Ht' Hid Hid').
Qed.

Lemma closable_not_whitelisted (t : Tab) (i : Z) :
  uniqueIds allTabs → t ∈ allTabs → tab_id t = Some i →
  closable urlHostname settings allTabs i →
  someMatches urlHostname (whitelist settings) t = false.
Proof.
  intros Hu Ht Hid (t' & Ht' & Hid' & _ & _ & Hwl).
  now rewrite (uniqueIds_same_tab allTabs t t' i Hu Ht Ht' Hid Hid').
Qed.

End EngineProperties.

(** ** One run, step by step *)

Lemma bind_run {A B} (m : Run A) (f : A → Run B) (b : Browser) (st : State) :
  (m ≫= f) b st =
  match m b st with
  | (Normal a, st', tr) => let '(r, st'', tr') := f a b st' in (r, st'', tr ++ tr')
  | (Thrown, st', tr) => (Thrown, st', tr)
  end.
Proof. reflexivity. Qed.

Lemma getSettings_run (b : Browser) (st : State) :
  getSettings b st =
  (Normal (settingsOf b), st,
   match storageLocalGet b with
   | Some _ => []
   | None => [ConsoleError "Error getting settings:"]
   end).
Proof.
  unfold getSettings, tryCatch, settingsOf. rewrite bind_run.
  unfold chromeStorageLocalGet. destruct (storageLocalGet b); reflexivity.
Qed.

Lemma setWarningIcon_run (enable : bool) (b : Browser) (st : State) :
  setWarningIcon enable b st =
  (Normal tt, st,
   SetIcon enable ::
   if actionSetIcon b enable then [] else [ConsoleError "Error setting icon:"]).
Proof.
  unfold setWarningIcon, tryCatch, chromeActionSetIcon, call.
  destruct (actionSetIcon b enable); reflexivity.
Qed.

(** The warning check in closed form. *)
Lemma warningCheck_run (s : Settings) (n : Z) (b : Browser) (st : State) :
  warningCheck s n b st =
  let warningThreshold := JS.sub (maxTabs s) (JS.ofZ 2) in
  if JS.gtb warningThreshold (JS.ofZ 0) && JS.geb (JS.ofZ n) warningThreshold then
    if warningActive st then (Normal tt, st, [])
    else
      (if notificationsEnabled s
       then (if notificationsCreate b (TabWarning n (maxTabs s))
             then Normal tt else Thrown)
       else Normal tt,
       mkState (tabActivityMap st) true,
       (SetIcon true ::
        if actionSetIcon b true then [] else [ConsoleError "Error setting icon:"]) ++
       if notificationsEnabled s
       then [NotificationsCreate (TabWarning n (maxTabs s))] else [])
  else if JS.ltb (JS.ofZ n) warningThreshold && warningActive st then
    (Normal tt, mkState (tabActivityMap st) false,
     SetIcon false ::
     if actionSetIcon b false then [] else [ConsoleError "Error setting icon:"])
  else (Normal tt, st, []).
Proof.
  unfold warningCheck. rewrite bind_run. cbn [readWarningActive].
  cbv zeta. destruct (JS.gtb _ _ && JS.geb _ _).
  - destruct (warningActive st); cbn [negb]; [reflexivity|].
    rewrite bind_run. cbn [writeWarningActive]. rewrite bind_run, setWarningIcon_run.
    destruct (notificationsEnabled s).
    + unfold chromeNotificationsCreate, call.
      destruct (notificationsCreate b _); reflexivity.
    + cbn. now rewrite app_nil_r.
  - destruct (JS.ltb _ _ && warningActive st); [|reflexivity].
    rewrite bind_run. cbn [writeWarningActive]. rewrite setWarningIcon_run.
    reflexivity.
Qed.

Lemma raisesWarning_app (tr1 tr2 : list Request) :
  raisesWarning (tr1 ++ tr2) = raisesWarning tr1 || raisesWarning tr2.
Proof. apply existsb_app. Qed.

(** What the warning check does to the latch and which requests it makes. *)
Lemma warningCheck_cases (s : Settings) (n : Z) (b : Browser) (st : State) :
  let w := warningCheck s n b st in
  let warningThreshold := JS.sub (maxTabs s) (JS.ofZ 2) in
  tabActivityMap w.1.2 = tabActivityMap st ∧
  requestsClose w.2 = false ∧
  (raisesWarning w.2 = true →
   warningActive st = false ∧ warningActive w.1.2 = true ∧
   notificationsEnabled s = true ∧
   JS.gtb warningThreshold (JS.ofZ 0) = true ∧
   JS.geb (JS.ofZ n) warningThreshold = true) ∧
  (warningActive st = false → warningActive w.1.2 = true →
   JS.gtb warningThreshold (JS.ofZ 0) = true ∧
   JS.geb (JS.ofZ n) warningThreshold = true ∧ SetIcon true ∈ w.2) ∧
  (warningActive st = true → warningActive w.1.2 = false →
   JS.ltb (JS.ofZ n) warningThreshold = true ∧ SetIcon false ∈ w.2) ∧
  (warningActive st = true → raisesWarning w.2 = false).
Proof.
  cbv zeta. rewrite warningCheck_run. cbv zeta.
  destruct (JS.gtb (JS.sub (maxTabs s) (JS.ofZ 2)) (JS.ofZ 0)) eqn:Hth;
    destruct (JS.geb (JS.ofZ n) (JS.sub (maxTabs s) (JS.ofZ 2))) eqn:Hn; cbn [andb].
  1: destruct (warningActive st) eqn:Hact.
  2: destruct (notificationsEnabled s) eqn:Hne.
  all: try (destruct (JS.ltb (JS.ofZ n) (JS.sub (maxTabs s) (JS.ofZ 2))) eqn:Hlt;
            destruct (warningActive st) eqn:Hact; cbn [andb]).
  all: try destruct (actionSetIcon b _).
  all: cbn; split_and!; intros; try discriminate; try reflexivity;
       try congruence; try (split_and!; try reflexivity; try (left; fail)).
Qed.

Section RunProperties.
Variable urlHostname : string → option string.

Lemma settingsOf_enabled (b : Browser) :
  enabled (settingsOf b) = true → ∃ result, storageLocalGet b = Some result.
Proof.
  unfold settingsOf. destruct (storageLocalGet b) as [result|]; [eauto|discriminate].
Qed.

(** A disabled run returns right after reading the settings. *)
Lemma applyCleanupRules_disabled (b : Browser) (st : State) :
  enabled (settingsOf b) = false →
  applyCleanupRules urlHostname b st =
  (Normal tt, st,
   match storageLocalGet b with
   | Some _ => []
   | None => [ConsoleError "Error getting settings:"]
   end).
Proof.
  intros Hen. unfold applyCleanupRules, tryCatch.
  rewrite bind_run, getSettings_run, Hen. cbn. now rewrite app_nil_r.
Qed.

(** A run whose snapshot cannot be fetched logs the error and returns. *)
Lemma applyCleanupRules_query_fails (b : Browser) (st : State) :
  enabled (settingsOf b) = true → tabsQuery b = None →
  applyCleanupRules urlHostname b st =
  (Normal tt, st, [ConsoleError "Error in applyCleanupRules:"]).
Proof.
  intros Hen Hq. destruct (settingsOf_enabled b Hen) as [result Hres].
  unfold applyCleanupRules, tryCatch.
  rewrite bind_run, getSettings_run, Hen, Hres. cbn [negb].
  rewrite bind_run. cbn [dateNowCall]. rewrite bind_run.
  unfold chromeTabsQuery. rewrite Hq. reflexivity.
Qed.

(** An enabled run with a snapshot: the warning check, then the one batch. *)
Lemma applyCleanupRules_enabled (b : Browser) (st : State) (allTabs : list Tab) :
  enabled (settingsOf b) = true → tabsQuery b = Some allTabs →
  let w := warningCheck (settingsOf b) (Z.of_nat (length allTabs)) b st in
  ∃ tail,
    applyCleanupRules urlHostname b st = (Normal tt, w.1.2, w.2 ++ tail) ∧
    closingRequests
      (closeSet urlHostname (settingsOf b) (tabActivityMap st) (dateNow b) allTabs)
      tail.
Proof.
  intros Hen Hq. cbv zeta. destruct (settingsOf_enabled b Hen) as [result Hres].
  destruct (warningCheck_cases (settingsOf b) (Z.of_nat (length allTabs)) b st)
    as (Hmap & _).
  unfold applyCleanupRules, tryCatch.
  rewrite bind_run, getSettings_run, Hen, Hres. cbn [negb].
  rewrite bind_run. cbn [dateNowCall]. rewrite bind_run.
  unfold chromeTabsQuery. rewrite Hq. rewrite bind_run.
  destruct (warningCheck _ _ b st) as [[[[]|] st'] tr]; cbn [fst snd] in *.
  2:{ exists [ConsoleError "Error in applyCleanupRules:"]. split; [reflexivity|].
      repeat constructor. }
  rewrite bind_run. cbn [readTabActivityMap]. rewrite Hmap.
  set (ids := closeSet urlHostname (settingsOf b) (tabActivityMap st) (dateNow b) allTabs).
  destruct (Z.gtb_spec (Z.of_nat (length ids)) 0) as [Hlen|Hlen].
  2:{ exists []. split; [|constructor]. unfold mret, Run_ret. cbn [app]. rewrite ?app_nil_r, <- ?app_assoc. reflexivity. }
  assert (Hne : ids ≠ []) by (intros Heq; rewrite Heq in Hlen; simpl in Hlen; lia).
  rewrite bind_run. unfold chromeTabsRemove, call.
  destruct (tabsRemove b ids).
  2:{ exists [TabsRemove ids; ConsoleError "Error in applyCleanupRules:"].
      split; [|repeat constructor; done].
      unfold consoleError, call. cbn [app]. rewrite ?app_nil_r, <- ?app_assoc. reflexivity. }
  rewrite bind_run. unfold consoleLog, call.
  destruct (notificationsEnabled (settingsOf b)).
  - unfold chromeNotificationsCreate, call.
    destruct (notificationsCreate b _).
    + exists [TabsRemove ids; ConsoleLog ids;
              NotificationsCreate (TabsCleaned (Z.of_nat (length ids)))].
      split; [|repeat constructor; done].
      cbn [app]. rewrite ?app_nil_r, <- ?app_assoc. reflexivity.
    + exists [TabsRemove ids; ConsoleLog ids;
              NotificationsCreate (TabsCleaned (Z.of_nat (length ids)));
              ConsoleError "Error in applyCleanupRules:"].
      split; [|repeat constructor; done].
      unfold consoleError, call. cbn [app]. rewrite ?app_nil_r, <- ?app_assoc. reflexivity.
  - exists [TabsRemove ids; ConsoleLog ids].
    split; [|repeat constructor; done].
    unfold mret, Run_ret. cbn [app]. rewrite ?app_nil_r, <- ?app_assoc. reflexivity.
Qed.

Lemma closingRequests_remove (ids ids' : list Z) (tail : list Request) :
  closingRequests ids tail → TabsRemove ids' ∈ tail → ids' = ids ∧ ids ≠ [].
Proof.
  intros Hall Hin. unfold closingRequests in Hall.
  rewrite Forall_forall in Hall. exact (Hall _ Hin).
Qed.

Lemma closingRequests_quiet (ids : list Z) (tail : list Request) :
  closingRequests ids tail → raisesWarning tail = false.
Proof.
  induction 1 as [|r tail Hr _ IH]; [reflexivity|]. simpl. rewrite IH.
  destruct r as [| [] | | |]; try reflexivity; contradiction.
Qed.

Lemma requestsClose_false (tr : list Request) (ids : list Z) :
  requestsClose tr = false → TabsRemove ids ∉ tr.
Proof.
  intros Hno Hin. apply list_elem_of_In in Hin.
  assert (requestsClose tr = true); [|congruence].
  apply existsb_exists. now exists (TabsRemove ids).
Qed.

(** A run ends in one of two ways: it stops before the warning check, the
    state untouched and nothing requested but a log line; or it goes
    through the warning check and the closing step. It never throws. *)
Lemma run_summary (b : Browser) (st : State) :
  ((enabled (settingsOf b) = false ∨ tabsQuery b = None) ∧
   completionOf urlHostname b st = Normal tt ∧
   stateAfter urlHostname b st = st ∧
   requestsClose (traceOf urlHostname b st) = false ∧
   notifiesOrSetsIcon (traceOf urlHostname b st) = false ∧
   raisesWarning (traceOf urlHostname b st) = false) ∨
  (∃ allTabs tail,
     enabled (settingsOf b) = true ∧ tabsQuery b = Some allTabs ∧
     let w := warningCheck (settingsOf b) (Z.of_nat (length allTabs)) b st in
     completionOf urlHostname b st = Normal tt ∧
     stateAfter urlHostname b st = w.1.2 ∧
     traceOf urlHostname b st = w.2 ++ tail ∧
     closingRequests
       (closeSet urlHostname (settingsOf b) (tabActivityMap st) (dateNow b) allTabs)
       tail).
Proof.
  unfold completionOf, stateAfter, traceOf.
  destruct (enabled (settingsOf b)) eqn:Hen.
  - destruct (tabsQuery b) as [allTabs|] eqn:Hq.
    + right. destruct (applyCleanupRules_enabled b st allTabs Hen Hq) as (tail & Hrun & Htail).
      exists allTabs, tail. rewrite Hrun. now split_and!.
    + left. rewrite (applyCleanupRules_query_fails b st Hen Hq). split_and!; auto.
  - left. rewrite (applyCleanupRules_disabled b st Hen).
    destruct (storageLocalGet b); split_and!; auto.
Qed.

(** If a batch is closed, it is the close-set of the snapshot. *)
Lemma run_closes_closeSet (b : Browser) (st : State) (ids : list Z) :
  TabsRemove ids ∈ traceOf urlHostname b st →
  ∃ allTabs, tabsQuery b = Some allTabs ∧ enabled (settingsOf b) = true ∧ ids ≠ [] ∧
    ids = closeSet urlHostname (settingsOf b) (tabActivityMap st) (dateNow b) allTabs.
Proof.
  intros Hin.
  destruct (run_summary b st) as [(_ & _ & _ & Hno & _)|(allTabs & tail & Hen & Hq & H)].
  - now apply (requestsClose_false _ ids) in Hno.
  - cbv zeta in H. destruct H as (_ & _ & Htr & Htail).
    rewrite Htr in Hin. apply elem_of_app in Hin as [Hin|Hin].
    + destruct (warningCheck_cases (settingsOf b) (Z.of_nat (length allTabs)) b st)
        as (_ & Hno & _).
      now apply (requestsClose_false _ ids) in Hno.
    + apply (closingRequests_remove _ _ _ Htail) in Hin as [-> Hne].
      exists allTabs. now split_and!.
Qed.

Lemma applyCleanupRules_never_throws (b : Browser) (st : State) :
  completionOf urlHostname b st = Normal tt.
Proof.
  destruct (run_summary b st) as [(_ & H & _)|(allTabs & tail & _ & _ & H)];
    [assumption|]. cbv zeta in H. tauto.
Qed.

End RunProperties.

(** ** C1: the active tab is never closed *)

Lemma getDuplicateTabs_member (allTabs : list Tab) (i : Z) :
  i ∈ getDuplicateTabs allTabs →
  ∃ t, t ∈ allTabs ∧ tab_id t = Some i ∧ tab_active t = false.
Proof.
  intros (u & g & Hg & _ & Hi)%elem_of_getDuplicateTabs.
  apply elem_of_pushDuplicates in Hi as (t & Ht & Hid & _ & Hact).
  apply tail_subset, elem_of_sort in Ht.
  apply elem_of_buildUrlMap in Hg as (_ & _ & ->).
  apply list_elem_of_filter in Ht as [_ Ht]. now exists t.
Qed.

(** C1. For every snapshot, settings value, activity map and clock:
    whatever a stage of [applyCleanupRules] (per-tab pass, duplicate pass,
    max-tab pass) adds to the close-set, from whatever close-set it starts,
    is the id of a tab of the snapshot that is not active, and so is every
    id [getDuplicateTabs] returns. Hence, tab ids being unique in a
    snapshot, the id of an active tab is returned by [getDuplicateTabs]
    never, is added by no stage, is not in the final close-set and is in no
    batch passed to the close action. *)
Theorem active_tab_never_in_close_set
    (urlHostname : string → option string) (settings : Settings)
    (m : gmap Z Z) (now : Z) (allTabs : list Tab) :
  (∀ tabsToClose i,
     i ∈ perTabPass urlHostname settings m now allTabs tabsToClose ∨
     i ∈ duplicatePass urlHostname settings allTabs tabsToClose ∨
     i ∈ maxTabPass urlHostname settings allTabs tabsToClose →
     i ∈ tabsToClose ∨
     ∃ t, t ∈ allTabs ∧ tab_id t = Some i ∧ tab_active t = false) ∧
  (∀ i, i ∈ getDuplicateTabs allTabs →
     ∃ t, t ∈ allTabs ∧ tab_id t = Some i ∧ tab_active t = false) ∧
  (∀ t i,
     uniqueIds allTabs → t ∈ allTabs → tab_active t = true → tab_id t = Some i →
     (i ∉ getDuplicateTabs allTabs) ∧
     (∀ tabsToClose,
        i ∈ perTabPass urlHostname settings m now allTabs tabsToClose →
        i ∈ tabsToClose) ∧
     (∀ tabsToClose,
        i ∈ duplicatePass urlHostname settings allTabs tabsToClose → i ∈ tabsToClose) ∧
     (∀ tabsToClose,
        i ∈ maxTabPass urlHostname settings allTabs tabsToClose → i ∈ tabsToClose) ∧
     (i ∉ closeSet urlHostname settings m now allTabs) ∧
     (∀ b st ids, tabsQuery b = Some allTabs →
        TabsRemove ids ∈ traceOf urlHostname b st → i ∉ ids)).
Proof.
  assert (Hstage : ∀ tabsToClose i,
     i ∈ perTabPass urlHostname settings m now allTabs tabsToClose ∨
     i ∈ duplicatePass urlHostname settings allTabs tabsToClose ∨
     i ∈ maxTabPass urlHostname settings allTabs tabsToClose →
     i ∈ tabsToClose ∨
     ∃ t, t ∈ allTabs ∧ tab_id t = Some i ∧ tab_active t = false).
  { intros tabsToClose i [H|[H|H]].
    - apply perTabPass_adds in H as [?|(t & ? & ? & _ & ? & _)]; [auto|].
      right. now exists t.
    - apply duplicatePass_adds in H as [?|(t & ? & ? & _ & ? & _)]; [auto|].
      right. now exists t.
    - apply maxTabPass_adds in H as [?|(t & ? & ? & _ & ? & _)]; [auto|].
      right. now exists t. }
  split_and!; [exact Hstage | apply getDuplicateTabs_member |].
  intros t i Hu Ht Hact Hid.
  assert (Hno : ¬ ∃ t', t' ∈ allTabs ∧ tab_id t' = Some i ∧ tab_active t' = false).
  { intros (t' & Ht' & Hid' & Hact').
    rewrite (uniqueIds_same_tab allTabs t t' i Hu Ht Ht' Hid Hid') in Hact.
    congruence. }
  assert (Hnoc : ∀ s', ¬ closable urlHostname s' allTabs i).
  { intros s' (t' & ? & ? & _ & ? & _). apply Hno. now exists t'. }
  split_and!.
  - intros H. apply Hno. now apply getDuplicateTabs_member.
  - intros tabsToClose H. destruct (Hstage tabsToClose i) as [?|?]; [auto|assumption|].
    contradiction.
  - intros tabsToClose H. destruct (Hstage tabsToClose i) as [?|?]; [auto|assumption|].
    contradiction.
  - intros tabsToClose H. destruct (Hstage tabsToClose i) as [?|?]; [auto|assumption|].
    contradiction.
  - intros Hc%closeSet_closable. now destruct (Hnoc settings).
  - intros b st ids Hq (allTabs' & Hq' & _ & _ & ->)%run_closes_closeSet.
    rewrite Hq in Hq'. injection Hq' as <-.
    intros Hc%closeSet_closable. now destruct (Hnoc (settingsOf b)).
Qed.

(** C1 on a snapshot: the active tab 1 shares its url with tab 2 and sits
    on a blacklisted domain; its id is not in the close-set. *)
Lemma active_tab_never_in_close_set_witness :
  uniqueIds activeAndNewer ∧
  (mkTab (Some 1) (Some exampleUrl) true (Some 50)) ∈ activeAndNewer ∧
  1 ∉ closeSet simpleHostname blacklisting ∅ 100000000 activeAndNewer.
Proof.
  assert (Hu : uniqueIds activeAndNewer).
  { apply (bool_decide_unpack _). vm_compute. exact I. }
  assert (Hin : (mkTab (Some 1) (Some exampleUrl) true (Some 50)) ∈ activeAndNewer)
    by left.
  split_and!; [exact Hu | exact Hin |].
  exact (proj1 (proj2 (proj2 (proj2 (proj2
    (proj2 (proj2
       (active_tab_never_in_close_set simpleHostname blacklisting ∅ 100000000
          activeAndNewer))
       _ 1 Hu Hin eq_refl eq_refl)))))).
Defined.

(** ** C3: the whitelist wins *)

Lemma someMatches_exists (urlHostname : string → option string)
    (patterns : list string) (t : Tab) :
  someMatches urlHostname patterns t = true ↔
  ∃ w, w ∈ patterns ∧ domainMatches (getDomain urlHostname (tab_url t)) w = true.
Proof.
  unfold someMatches. rewrite existsb_exists.
  split; intros (w & Hw & H); exists w; split; try assumption;
    now apply list_elem_of_In.
Qed.

(** C3. For every snapshot, settings value, activity map and clock:
    whatever a stage of [applyCleanupRules] (per-tab pass with its blacklist
    and idle-timeout rules, duplicate pass, max-tab pass) adds to the
    close-set is the id of a tab whose domain matches no whitelist pattern;
    the per-tab rules leave the close-set as it is on a tab whose domain
    matches a whitelist pattern, whatever the blacklist and the idle time.
    Hence, tab ids being unique in a snapshot, the id of a whitelisted tab is
    added by no stage, is not in the final close-set and is in no batch
    passed to the close action of a run with these settings. *)
Theorem whitelisted_tab_never_in_close_set
    (urlHostname : string → option string) (settings : Settings)
    (m : gmap Z Z) (now : Z) (allTabs : list Tab) :
  (∀ tabsToClose i,
     i ∈ perTabPass urlHostname settings m now allTabs tabsToClose ∨
     i ∈ duplicatePass urlHostname settings allTabs tabsToClose ∨
     i ∈ maxTabPass urlHostname settings allTabs tabsToClose →
     i ∈ tabsToClose ∨
     ∃ t, t ∈ allTabs ∧ tab_id t = Some i ∧
          ∀ w, w ∈ whitelist settings →
               domainMatches (getDomain urlHostname (tab_url t)) w = false) ∧
  (∀ t tabsToClose,
     (∃ w, w ∈ whitelist settings ∧
           domainMatches (getDomain urlHostname (tab_url t)) w = true) →
     perTabRule urlHostname settings m now tabsToClose t = tabsToClose) ∧
  (∀ t i,
     uniqueIds allTabs → t ∈ allTabs → tab_id t = Some i →
     (∃ w, w ∈ whitelist settings ∧
           domainMatches (getDomain urlHostname (tab_url t)) w = true) →
     (∀ tabsToClose,
        i ∈ perTabPass urlHostname settings m now allTabs tabsToClose →
        i ∈ tabsToClose) ∧
     (∀ tabsToClose,
        i ∈ duplicatePass urlHostname settings allTabs tabsToClose → i ∈ tabsToClose) ∧
     (∀ tabsToClose,
        i ∈ maxTabPass urlHostname settings allTabs tabsToClose → i ∈ tabsToClose) ∧
     (i ∉ closeSet urlHostname settings m now allTabs) ∧
     (∀ b st ids, settingsOf b = settings → tabsQuery b = Some allTabs →
        TabsRemove ids ∈ traceOf urlHostname b st → i ∉ ids)).
Proof.
  assert (Hnone : ∀ t, someMatches urlHostname (whitelist settings) t = false →
            ∀ w, w ∈ whitelist settings →
                 domainMatches (getDomain urlHostname (tab_url t)) w = false).
  { intros t Hf w Hw.
    destruct (domainMatches _ w) eqn:Hd; [|reflexivity].
    assert (someMatches urlHostname (whitelist settings) t = true); [|congruence].
    apply someMatches_exists. now exists w. }
  assert (Hstage : ∀ tabsToClose i,
     i ∈ perTabPass urlHostname settings m now allTabs tabsToClose ∨
     i ∈ duplicatePass urlHostname settings allTabs tabsToClose ∨
     i ∈ maxTabPass urlHostname settings allTabs tabsToClose →
     i ∈ tabsToClose ∨ closable urlHostname settings allTabs i).
  { intros tabsToClose i [H|[H|H]].
    - apply perTabPass_adds in H as [?|(t & ? & ? & ? & ? & ?)]; [auto|].
      right. now exists t.
    - now apply duplicatePass_adds in H.
    - now apply maxTabPass_adds in H. }
  split_and!.
  - intros tabsToClose i [?|(t & ? & ? & _ & _ & Hwl)]%Hstage; [auto|].
    right. exists t. split_and!; [assumption..|]. now apply Hnone.
  - intros t tabsToClose Hwl%someMatches_exists. unfold perTabRule.
    rewrite Hwl. destruct (tab_id t); [|reflexivity]. now destruct (_ || _).
  - intros t i Hu Ht Hid Hwl%someMatches_exists.
    assert (Hno : ¬ closable urlHostname settings allTabs i).
    { intros Hc. pose proof (closable_not_whitelisted _ _ _ t i Hu Ht Hid Hc).
      congruence. }
    split_and!.
    + intros tabsToClose H. destruct (Hstage tabsToClose i) as [?|?];
        [auto|assumption|contradiction].
    + intros tabsToClose H. destruct (Hstage tabsToClose i) as [?|?];
        [auto|assumption|contradiction].
    + intros tabsToClose H. destruct (Hstage tabsToClose i) as [?|?];
        [auto|assumption|contradiction].
    + intros Hc%closeSet_closable. now destruct Hno.
    + intros b st ids Hs Hq (allTabs' & Hq' & _ & _ & ->)%run_closes_closeSet.
      rewrite Hq in Hq'. injection Hq' as <-. rewrite Hs.
      intros Hc%closeSet_closable. now destruct Hno.
Qed.

(** C3 on a snapshot: [sub.example.com] is idle far beyond the timeout and
    [example.com] is on both lists; tab 2 stays out of the close-set. *)
Lemma whitelisted_tab_never_in_close_set_witness :
  uniqueIds withSubdomain ∧
  (mkTab (Some 2) (Some "https://sub.example.com/page") false (Some 900))
    ∈ withSubdomain ∧
  (∃ w, w ∈ whitelist onBothLists ∧
        domainMatches
          (getDomain simpleHostname (Some "https://sub.example.com/page")) w = true) ∧
  2 ∉ closeSet simpleHostname onBothLists ∅ 100000000 withSubdomain.
Proof.
  assert (Hu : uniqueIds withSubdomain).
  { apply (bool_decide_unpack _). vm_compute. exact I. }
  assert (Hin : (mkTab (Some 2) (Some "https://sub.example.com/page") false (Some 900))
                  ∈ withSubdomain) by (right; left).
  assert (Hwl : ∃ w, w ∈ whitelist onBothLists ∧
                  domainMatches
                    (getDomain simpleHostname (Some "https://sub.example.com/page")) w = true).
  { exists "example.com". split; [left|reflexivity]. }
  split_and!; [exact Hu | exact Hin | exact Hwl |].
  exact (proj1 (proj2 (proj2 (proj2
    (proj2 (proj2
       (whitelisted_tab_never_in_close_set simpleHostname onBothLists ∅ 100000000
          withSubdomain))
       _ 2 Hu Hin eq_refl Hwl))))).
Defined.

(** ** C7: a disabled engine *)

(** C7. When the settings obtained by [getSettings] have [enabled] false, a
    run of [applyCleanupRules] requests no close action, creates no
    notification, does not touch the icon, leaves the module state (warning
    latch and activity map) as it was and returns normally; when the
    storage could be read it makes no request at all. *)
Theorem disabled_run_does_nothing
    (urlHostname : string → option string) (b : Browser) (st : State)
    (settings : Settings) :
  (getSettings b st).1.1 = Normal settings → enabled settings = false →
  requestsClose (traceOf urlHostname b st) = false ∧
  notifiesOrSetsIcon (traceOf urlHostname b st) = false ∧
  stateAfter urlHostname b st = st ∧
  completionOf urlHostname b st = Normal tt ∧
  (is_Some (storageLocalGet b) → traceOf urlHostname b st = []).
Proof.
  rewrite getSettings_run. cbn [fst]. intros [= <-] Hen.
  destruct (run_summary urlHostname b st)
    as [(_ & Hc & Hst & Hclose & Hnot & _)|(allTabs & tail & Hen' & _)];
    [|congruence].
  split_and!; try assumption.
  intros [result Hres]. unfold traceOf.
  rewrite (applyCleanupRules_disabled urlHostname b st Hen), Hres. reflexivity.
Qed.

(** C7 on the default settings (disabled), with three idle duplicates open. *)
Lemma disabled_run_does_nothing_witness :
  requestsClose
    (traceOf simpleHostname (browserWith DEFAULT_SETTINGS threeInactive 100000000)
       initialState) = false ∧
  stateAfter simpleHostname (browserWith DEFAULT_SETTINGS threeInactive 100000000)
    initialState = initialState.
Proof.
  destruct (disabled_run_does_nothing simpleHostname
              (browserWith DEFAULT_SETTINGS threeInactive 100000000)
              initialState DEFAULT_SETTINGS eq_refl eq_refl)
    as (Hclose & _ & Hst & _).
  exact (conj Hclose Hst).
Defined.

(** ** C8: failures of the two fetches *)

(** C8. When [chrome.storage.local.get] or [chrome.tabs.query] fails, the
    run of [applyCleanupRules] makes no close request at all and returns
    normally: no error leaves the entry point. *)
Theorem failed_fetch_closes_nothing
    (urlHostname : string → option string) (b : Browser) (st : State) :
  storageLocalGet b = None ∨ tabsQuery b = None →
  requestsClose (traceOf urlHostname b st) = false ∧
  (∀ ids, TabsRemove ids ∉ traceOf urlHostname b st) ∧
  completionOf urlHostname b st = Normal tt.
Proof.
  intros Hfail.
  assert (Hclose : requestsClose (traceOf urlHostname b st) = false).
  { destruct (run_summary urlHostname b st)
      as [(_ & _ & _ & Hclose & _)|(allTabs & tail & Hen & Hq & _)]; [assumption|].
    destruct Hfail as [Hs|Hq']; [|congruence].
    unfold settingsOf in Hen. rewrite Hs in Hen. discriminate. }
  split_and!; [assumption| |apply applyCleanupRules_never_throws].
  intros ids. now apply requestsClose_false.
Qed.

(** C8 with a rejected [chrome.tabs.query] while a blacklist is in force. *)
Lemma failed_fetch_closes_nothing_witness :
  tabsQuery (browserWithoutTabs blacklisting 100000000) = None ∧
  requestsClose
    (traceOf simpleHostname (browserWithoutTabs blacklisting 100000000)
       initialState) = false ∧
  completionOf simpleHostname (browserWithoutTabs blacklisting 100000000)
    initialState = Normal tt.
Proof.
  destruct (failed_fetch_closes_nothing simpleHostname
              (browserWithoutTabs blacklisting 100000000) initialState
              (or_intror eq_refl))
    as (Hclose & _ & Hc).
  exact (conj eq_refl (conj Hclose Hc)).
Defined.

(** ** C9: the warning latch *)

Section Latch.
Variable urlHostname : string → option string.

Lemma run_sets_latch (b : Browser) (st : State) :
  warningActive st = false → warningActive (stateAfter urlHostname b st) = true →
  ∃ allTabs, tabsQuery b = Some allTabs ∧
    JS.gtb (JS.sub (maxTabs (settingsOf b)) (JS.ofZ 2)) (JS.ofZ 0) = true ∧
    JS.geb (JS.ofZ (Z.of_nat (length allTabs)))
           (JS.sub (maxTabs (settingsOf b)) (JS.ofZ 2)) = true.
Proof.
  intros H0 H1.
  destruct (run_summary urlHostname b st)
    as [(_ & _ & Hst & _)|(allTabs & tail & Hen & Hq & H)]; [congruence|].
  cbv zeta in H. destruct H as (_ & Hst & _). rewrite Hst in H1.
  destruct (warningCheck_cases (settingsOf b) (Z.of_nat (length allTabs)) b st)
    as (_ & _ & _ & Hset & _).
  destruct (Hset H0 H1) as (? & ? & _). now exists allTabs.
Qed.

Lemma run_warns (b : Browser) (st : State) :
  raisesWarning (traceOf urlHostname b st) = true →
  notificationsEnabled (settingsOf b) = true ∧
  warningActive st = false ∧ warningActive (stateAfter urlHostname b st) = true.
Proof.
  intros Hw.
  destruct (run_summary urlHostname b st)
    as [(_ & _ & _ & _ & _ & Hno)|(allTabs & tail & Hen & Hq & H)]; [congruence|].
  cbv zeta in H. destruct H as (_ & Hst & Htr & Htail).
  rewrite Htr, raisesWarning_app, (closingRequests_quiet _ _ Htail), orb_false_r in Hw.
  destruct (warningCheck_cases (settingsOf b) (Z.of_nat (length allTabs)) b st)
    as (_ & _ & Hraise & _).
  destruct (Hraise Hw) as (? & ? & ? & _). rewrite Hst. now split_and!.
Qed.

Lemma run_clears_latch (b : Browser) (st : State) :
  warningActive st = true → warningActive (stateAfter urlHostname b st) = false →
  ∃ allTabs, tabsQuery b = Some allTabs ∧
    JS.ltb (JS.ofZ (Z.of_nat (length allTabs)))
           (JS.sub (maxTabs (settingsOf b)) (JS.ofZ 2)) = true ∧
    SetIcon false ∈ traceOf urlHostname b st.
Proof.
  intros H1 H0.
  destruct (run_summary urlHostname b st)
    as [(_ & _ & Hst & _)|(allTabs & tail & Hen & Hq & H)]; [congruence|].
  cbv zeta in H. destruct H as (_ & Hst & Htr & _). rewrite Hst in H0.
  destruct (warningCheck_cases (settingsOf b) (Z.of_nat (length allTabs)) b st)
    as (_ & _ & _ & _ & Hclear & _).
  destruct (Hclear H1 H0) as (? & ?). exists allTabs.
  split_and!; [assumption..|]. rewrite Htr. apply elem_of_app. now left.
Qed.

Lemma runs_cons_state (b : Browser) (rest : list Browser) (st : State) :
  (runs urlHostname (b :: rest) st).1 =
  (runs urlHostname rest (stateAfter urlHostname b st)).1.
Proof. simpl. now destruct (runs urlHostname rest _). Qed.

(** Between a state with the latch set and a later state with the latch
    clear, some run cleared it. *)
Lemma latch_cleared_between (mid : list Browser) (st : State) :
  warningActive st = true →
  warningActive (runs urlHostname mid st).1 = false →
  ∃ mid1 bk mid2, mid = mid1 ++ bk :: mid2 ∧
    warningActive (runs urlHostname mid1 st).1 = true ∧
    warningActive (stateAfter urlHostname bk (runs urlHostname mid1 st).1) = false.
Proof.
  revert st. induction mid as [|b rest IH]; intros st H1 H0.
  - simpl in H0. congruence.
  - rewrite runs_cons_state in H0.
    destruct (warningActive (stateAfter urlHostname b st)) eqn:Hb.
    + destruct (IH _ Hb H0) as (mid1 & bk & mid2 & -> & Hk1 & Hk0).
      exists (b :: mid1), bk, mid2. rewrite runs_cons_state. now split_and!.
    + exists [], b, rest. now split_and!.
Qed.

End Latch.

(** C9. The latch is a hysteresis. A run sets it only when the tab count
    has reached [warningThreshold = maxTabs - 2 > 0] (the difference and
    the comparisons are those of JavaScript numbers); a run raises the
    approaching-limit notification only when notifications are enabled, and
    only while it sets the latch; and once the latch is set, in every
    sequence of runs that follows, a run that raises the notification comes
    after a run that found the tab count below its threshold, cleared the
    latch and switched the warning icon off. *)
Theorem warning_latch_hysteresis (urlHostname : string → option string) :
  (∀ b st,
     warningActive st = false → warningActive (stateAfter urlHostname b st) = true →
     ∃ allTabs, tabsQuery b = Some allTabs ∧
       JS.gtb (JS.sub (maxTabs (settingsOf b)) (JS.ofZ 2)) (JS.ofZ 0) = true ∧
       JS.geb (JS.ofZ (Z.of_nat (length allTabs)))
              (JS.sub (maxTabs (settingsOf b)) (JS.ofZ 2)) = true) ∧
  (∀ b st,
     raisesWarning (traceOf urlHostname b st) = true →
     notificationsEnabled (settingsOf b) = true ∧
     warningActive st = false ∧ warningActive (stateAfter urlHostname b st) = true) ∧
  (∀ st mid b,
     warningActive st = true →
     raisesWarning (traceOf urlHostname b (runs urlHostname mid st).1) = true →
     ∃ mid1 bk mid2 allTabs,
       mid = mid1 ++ bk :: mid2 ∧
       warningActive (runs urlHostname mid1 st).1 = true ∧
       warningActive (stateAfter urlHostname bk (runs urlHostname mid1 st).1) = false ∧
       tabsQuery bk = Some allTabs ∧
       JS.ltb (JS.ofZ (Z.of_nat (length allTabs)))
              (JS.sub (maxTabs (settingsOf bk)) (JS.ofZ 2)) = true ∧
       SetIcon false ∈ traceOf urlHostname bk (runs urlHostname mid1 st).1).
Proof.
  split_and!.
  - apply run_sets_latch.
  - apply run_warns.
  - intros st mid b H1 Hw. apply run_warns in Hw as (_ & H0 & _).
    destruct (latch_cleared_between urlHostname mid st H1 H0)
      as (mid1 & bk & mid2 & -> & Hk1 & Hk0).
    destruct (run_clears_latch urlHostname bk _ Hk1 Hk0) as (allTabs & ? & ? & ?).
    exists mid1, bk, mid2, allTabs. now split_and!.
Qed.

(** Two runs in a row at the threshold: only the first one warns. *)
Example latch_suppresses_repeat :
  (runs simpleHostname
     [browserWith limitFive threeSites 1000; browserWith limitFive threeSites 1000]
     initialState).2
  = [[SetIcon true; NotificationsCreate (TabWarning 3 (JS.ofZ 5))]; []].
Proof. vm_compute. reflexivity. Qed.

(** C9 on a sequence: the latch is set, a run with a single tab clears it,
    and the next run with three tabs (threshold three) warns again. *)
Lemma warning_latch_hysteresis_witness :
  warningActive latched = true ∧
  raisesWarning
    (traceOf simpleHostname (browserWith limitFive threeSites 1000)
       (runs simpleHostname [browserWith limitFive singleTab 1000] latched).1) = true ∧
  ∃ mid1 bk mid2 allTabs,
    [browserWith limitFive singleTab 1000] = mid1 ++ bk :: mid2 ∧
    warningActive (runs simpleHostname mid1 latched).1 = true ∧
    warningActive (stateAfter simpleHostname bk (runs simpleHostname mid1 latched).1) = false ∧
    tabsQuery bk = Some allTabs ∧
    JS.ltb (JS.ofZ (Z.of_nat (length allTabs)))
           (JS.sub (maxTabs (settingsOf bk)) (JS.ofZ 2)) = true ∧
    SetIcon false ∈ traceOf simpleHostname bk (runs simpleHostname mid1 latched).1.
Proof.
  split; [reflexivity|]. split; [vm_compute; reflexivity|].
  apply (proj2 (proj2 (warning_latch_hysteresis simpleHostname))
           latched [browserWith limitFive singleTab 1000]
           (browserWith limitFive threeSites 1000)).
  - reflexivity.
  - vm_compute. reflexivity.
Defined.

(** ** C10 and C2: the max-tab pass *)

Lemma omap_cons {A B} (f : A → option B) (x : A) (l : list A) :
  omap f (x :: l) = match f x with Some y => y :: omap f l | None => omap f l end.
Proof. reflexivity. Qed.

Lemma evictable_id (urlHostname : string → option string) (settings : Settings)
    (tabsToClose : list Z) (t : Tab) (i : Z) :
  evictable urlHostname settings tabsToClose t = Some i →
  tab_id t = Some i ∧ i ∉ tabsToClose.
Proof.
  unfold evictable. destruct (tab_id t) as [j|]; [|discriminate].
  destruct (_ && _ && negb (JS.setHas j tabsToClose)) eqn:Hc; cbn [andb];
    [|discriminate].
  destruct (negb (someMatches _ _ _)); [|discriminate]. intros Heq.
  assert (j = i) as -> by congruence.
  apply andb_true_iff in Hc as [_ Hhas%negb_true_iff].
  split; [reflexivity|]. unfold JS.setHas in Hhas.
  now apply bool_decide_eq_false in Hhas.
Qed.

Lemma omap_length_le {A B} (f : A → option B) (l : list A) :
  (length (omap f l) ≤ length l)%nat.
Proof.
  induction l as [|x l IH]; [reflexivity|].
  rewrite omap_cons. destruct (f x); cbn [length]; lia.
Qed.

(** One turn of the loop. *)
Lemma maxTabsLoop_step (urlHostname : string → option string) (settings : Settings)
    (extraToClose : JS.number) (tab : Tab) (rest : list Tab)
    (tabsToClose : list Z) (closedCount : Z) :
  maxTabsLoop urlHostname settings extraToClose (tab :: rest) tabsToClose closedCount =
  if JS.geb (JS.ofZ closedCount) extraToClose then tabsToClose
  else match evictable urlHostname settings tabsToClose tab with
       | Some i => maxTabsLoop urlHostname settings extraToClose rest
                     (JS.setAdd i tabsToClose) (closedCount + 1)
       | None => maxTabsLoop urlHostname settings extraToClose rest
                   tabsToClose closedCount
       end.
Proof.
  cbn [maxTabsLoop]. destruct (JS.geb _ _); [reflexivity|].
  unfold evictable. destruct (tab_id tab) as [i|]; [|reflexivity].
  destruct (_ && _ && negb (JS.setHas i tabsToClose)); cbn [andb]; [|reflexivity].
  now destruct (negb (someMatches _ _ _)).
Qed.

Section MaxTabPass.
Variable urlHostname : string → option string.
Variable settings : Settings.

(** The loop appends to the close-set, at most one id per tab it walks, and
    each id while the count it keeps is still below [extraToClose]. *)
Lemma maxTabsLoop_bound (extraToClose : JS.number) (sortedTabs : list Tab)
    (tabsToClose : list Z) (closedCount : Z) :
  ∃ added,
    maxTabsLoop urlHostname settings extraToClose sortedTabs tabsToClose closedCount
      = tabsToClose ++ added ∧
    (length added ≤ length sortedTabs)%nat ∧
    ∀ j, 0 ≤ j < Z.of_nat (length added) →
         JS.geb (JS.ofZ (closedCount + j)) extraToClose = false.
Proof.
  revert tabsToClose closedCount.
  induction sortedTabs as [|tab rest IH]; intros tabsToClose closedCount;
    cbn [maxTabsLoop].
  { exists []. rewrite app_nil_r. cbn [length]. split_and!; [reflexivity|lia|lia]. }
  assert (Hskip : ∃ added,
            maxTabsLoop urlHostname settings extraToClose rest tabsToClose closedCount
              = tabsToClose ++ added ∧
            (length added ≤ length (tab :: rest))%nat ∧
            ∀ j, 0 ≤ j < Z.of_nat (length added) →
                 JS.geb (JS.ofZ (closedCount + j)) extraToClose = false).
  { destruct (IH tabsToClose closedCount) as (added & Heq & Hlen & Hb).
    exists added. cbn [length]. split_and!; [assumption|lia|assumption]. }
  destruct (JS.geb (JS.ofZ closedCount) extraToClose) eqn:Hge.
  { exists []. rewrite app_nil_r. cbn [length]. split_and!; [reflexivity|lia|lia]. }
  destruct (tab_id tab) as [i|]; [|exact Hskip].
  destruct (_ && _ && negb (JS.setHas i tabsToClose)) eqn:Hc; [|exact Hskip].
  destruct (negb (someMatches _ _ _)); [|exact Hskip].
  apply andb_true_iff in Hc as [_ Hhas%negb_true_iff].
  destruct (IH (JS.setAdd i tabsToClose) (closedCount + 1)) as (added & -> & Hlen & Hb).
  exists (i :: added). unfold JS.setAdd. rewrite Hhas, <- app_assoc.
  cbn [length]. split_and!; [reflexivity|lia|].
  intros j Hj. destruct (Z.eq_dec j 0) as [->|Hj0].
  - now rewrite Z.add_0_r.
  - replace (closedCount + j) with (closedCount + 1 + (j - 1)) by lia.
    apply Hb. lia.
Qed.

Lemma maxTabPass_bound (allTabs : list Tab) (tabsToClose : list Z) :
  ∃ added,
    maxTabPass urlHostname settings allTabs tabsToClose = tabsToClose ++ added ∧
    (length added ≤ length allTabs)%nat ∧
    ∀ j, 0 ≤ j < Z.of_nat (length added) →
         JS.geb (JS.ofZ j)
           (JS.sub (JS.ofZ (Z.of_nat (length allTabs) - JS.setSize tabsToClose))
                   (maxTabs settings)) = false.
Proof.
  unfold maxTabPass.
  destruct (JS.gtb _ _).
  - destruct (maxTabsLoop_bound
                (JS.sub (JS.ofZ (Z.of_nat (length allTabs) - JS.setSize tabsToClose))
                        (maxTabs settings))
                (JS.sort compareLastAccessed allTabs) tabsToClose 0)
      as (added & -> & Hlen & Hb).
    exists added. rewrite sort_length in Hlen. split_and!; [reflexivity|assumption|].
    intros j Hj. exact (Hb j Hj).
  - exists []. rewrite app_nil_r. cbn [length]. split_and!; [reflexivity|lia|lia].
Qed.

Lemma evictable_after_add (tabsToClose : list Z) (i : Z) (tabs : list Tab) :
  (∀ t, t ∈ tabs → tab_id t ≠ Some i) →
  omap (evictable urlHostname settings (JS.setAdd i tabsToClose)) tabs =
  omap (evictable urlHostname settings tabsToClose) tabs.
Proof.
  induction tabs as [|t tabs IH]; intros Hfresh; [reflexivity|].
  rewrite !omap_cons.
  rewrite IH by (intros t' Ht'; apply Hfresh; now right).
  assert (Hsame : evictable urlHostname settings (JS.setAdd i tabsToClose) t =
                  evictable urlHostname settings tabsToClose t); [|now rewrite Hsame].
  unfold evictable. destruct (tab_id t) as [j|] eqn:Hj; [|reflexivity].
  assert (Hji : j ≠ i).
  { intros ->. apply (Hfresh t); [left|assumption]. }
  assert (Hhas : JS.setHas j (JS.setAdd i tabsToClose) = JS.setHas j tabsToClose);
    [|now rewrite Hhas].
  unfold JS.setHas. apply bool_decide_ext. rewrite elem_of_setAdd. tauto.
Qed.

(** With unique ids the loop takes the first evictable tabs of its walk:
    one for every count that is below [extraToClose], and it stops short
    of an evictable tab only when the count has reached [extraToClose]. *)
Lemma maxTabsLoop_takes (extraToClose : JS.number) (sortedTabs : list Tab)
    (tabsToClose : list Z) (closedCount : Z) :
  NoDup (omap tab_id sortedTabs) →
  ∃ k : nat,
    maxTabsLoop urlHostname settings extraToClose sortedTabs tabsToClose closedCount =
      tabsToClose ++
      take k (omap (evictable urlHostname settings tabsToClose) sortedTabs) ∧
    (k ≤ length (omap (evictable urlHostname settings tabsToClose) sortedTabs))%nat ∧
    (∀ j, (j < k)%nat →
          JS.geb (JS.ofZ (closedCount + Z.of_nat j)) extraToClose = false) ∧
    ((k < length (omap (evictable urlHostname settings tabsToClose) sortedTabs))%nat →
     JS.geb (JS.ofZ (closedCount + Z.of_nat k)) extraToClose = true).
Proof.
  revert tabsToClose closedCount.
  induction sortedTabs as [|tab rest IH]; intros tabsToClose closedCount Hnd.
  { exists 0%nat. cbn. rewrite app_nil_r. split_and!; [reflexivity|lia|lia|lia]. }
  rewrite maxTabsLoop_step.
  destruct (JS.geb (JS.ofZ closedCount) extraToClose) eqn:Hge.
  { exists 0%nat. rewrite take_0, app_nil_r.
    split_and!; [reflexivity|lia|lia|]. intros _. now rewrite Z.add_0_r. }
  assert (Hrest : NoDup (omap tab_id rest)).
  { simpl in Hnd. destruct (tab_id tab); [now apply NoDup_cons in Hnd|assumption]. }
  rewrite omap_cons.
  destruct (evictable urlHostname settings tabsToClose tab) as [i|] eqn:He;
    [|now apply IH].
  destruct (evictable_id _ _ _ _ _ He) as [Hid Hnotin].
  destruct (IH (JS.setAdd i tabsToClose) (closedCount + 1) Hrest)
    as (k & Heq & Hk & Hbelow & Hstop).
  assert (Hfresh : ∀ t, t ∈ rest → tab_id t ≠ Some i).
  { intros t Ht Hti. simpl in Hnd. rewrite Hid in Hnd.
    apply NoDup_cons in Hnd as [Hno _]. apply Hno.
    apply list_elem_of_omap. now exists t. }
  rewrite evictable_after_add in Heq, Hk, Hstop by exact Hfresh.
  exists (S k). rewrite Heq. unfold JS.setAdd, JS.setHas.
  rewrite bool_decide_eq_false_2 by exact Hnotin. rewrite <- app_assoc.
  cbn [length]. split_and!; [reflexivity|lia| |].
  - intros [|j] Hj.
    + now rewrite Z.add_0_r.
    + replace (closedCount + Z.of_nat (S j)) with (closedCount + 1 + Z.of_nat j) by lia.
      apply Hbelow. lia.
  - intros Hlt.
    replace (closedCount + Z.of_nat (S k)) with (closedCount + 1 + Z.of_nat k) by lia.
    apply Hstop. lia.
Qed.

End MaxTabPass.

Lemma sort_lastAccessed_ascending (allTabs : list Tab) :
  StronglySorted
    (λ a b, JS.orZero (tab_lastAccessed a) ≤ JS.orZero (tab_lastAccessed b))
    (JS.sort compareLastAccessed allTabs).
Proof.
  pose proof (sort_sorted compareLastAccessed
                compareLastAccessed_trans compareLastAccessed_total allTabs) as H.
  induction H as [|a l _ IH Ha]; constructor; [assumption|].
  eapply Forall_impl; [exact Ha|].
  intros b. unfold compareLastAccessed. simpl. lia.
Qed.

(** The pass in general, for a snapshot with unique ids: when
    [remainingCount > maxTabs], it appends the ids of the first [k]
    evictable tabs of the snapshot walked in ascending [lastAccessed]
    order, one for every count below [extraToClose]. *)
Lemma maxTabPass_takes (urlHostname : string → option string)
    (settings : Settings) (allTabs : list Tab) (tabsToClose : list Z) :
  uniqueIds allTabs →
  JS.gtb (JS.ofZ (Z.of_nat (length allTabs) - JS.setSize tabsToClose))
         (maxTabs settings) = true →
  let extraToClose :=
    JS.sub (JS.ofZ (Z.of_nat (length allTabs) - JS.setSize tabsToClose))
           (maxTabs settings) in
  let sortedTabs := JS.sort compareLastAccessed allTabs in
  let candidates := omap (evictable urlHostname settings tabsToClose) sortedTabs in
  ∃ k : nat,
    maxTabPass urlHostname settings allTabs tabsToClose = tabsToClose ++ take k candidates ∧
    (k ≤ length candidates)%nat ∧
    (∀ j, (j < k)%nat → JS.geb (JS.ofZ (Z.of_nat j)) extraToClose = false) ∧
    ((k < length candidates)%nat → JS.geb (JS.ofZ (Z.of_nat k)) extraToClose = true).
Proof.
  intros Hu Hgt. cbv zeta. unfold maxTabPass. rewrite Hgt.
  destruct (maxTabsLoop_takes urlHostname settings
              (JS.sub (JS.ofZ (Z.of_nat (length allTabs) - JS.setSize tabsToClose))
                      (maxTabs settings))
              (JS.sort compareLastAccessed allTabs) tabsToClose 0)
    as (k & Heq & Hk & Hbelow & Hstop).
  { unfold uniqueIds in Hu. now rewrite sort_perm. }
  exists k. split_and!; [exact Heq|exact Hk|exact Hbelow|exact Hstop].
Qed.

(** When [extraToClose] is an integer [e], the number of ids the loop
    takes is the smaller of [e] and the number of candidates. *)
Lemma integral_quota (e : Z) (k len : nat) :
  0 ≤ e < 2 ^ 53 → Z.of_nat len < 2 ^ 53 → (k ≤ len)%nat →
  (∀ j, (j < k)%nat → JS.geb (JS.ofZ (Z.of_nat j)) (JS.ofZ e) = false) →
  ((k < len)%nat → JS.geb (JS.ofZ (Z.of_nat k)) (JS.ofZ e) = true) →
  k = Nat.min (Z.to_nat e) len.
Proof.
  intros He Hlen Hk Hbelow Hstop.
  assert (Hup : Z.of_nat k ≤ e).
  { destruct k as [|k]; [lia|].
    specialize (Hbelow k (Nat.lt_succ_diag_r k)).
    unfold JS.geb in Hbelow. rewrite leb_ofZ in Hbelow by lia.
    apply Z.leb_gt in Hbelow. lia. }
  destruct (Nat.eq_dec k len) as [->|Hne]; [lia|].
  assert (Hlt : (k < len)%nat) by lia.
  specialize (Hstop Hlt). unfold JS.geb in Hstop.
  rewrite leb_ofZ in Hstop by lia. apply Z.leb_le in Hstop. lia.
Qed.

(** The second half of C2, for a snapshot with unique ids and an integer
    [maxTabs]: when [remaining = totalTabCount - closeSetSize] exceeds
    [maxTabs], the pass appends the ids of the first [remaining - maxTabs]
    evictable tabs (all of them if there are fewer) of the snapshot walked
    in ascending [lastAccessed] order, missing counting as 0. *)
Lemma maxTabPass_takes_oldest (urlHostname : string → option string)
    (settings : Settings) (allTabs : list Tab) (tabsToClose : list Z) (z : Z) :
  uniqueIds allTabs →
  maxTabs settings = JS.ofZ z → Z.abs z < 2 ^ 52 →
  Z.of_nat (length allTabs) < 2 ^ 32 → JS.setSize tabsToClose < 2 ^ 32 →
  Z.of_nat (length allTabs) - JS.setSize tabsToClose > z →
  let extra := Z.of_nat (length allTabs) - JS.setSize tabsToClose - z in
  let sortedTabs := JS.sort compareLastAccessed allTabs in
  maxTabPass urlHostname settings allTabs tabsToClose =
    tabsToClose ++
    take (Z.to_nat extra) (omap (evictable urlHostname settings tabsToClose) sortedTabs) ∧
  sortedTabs ≡ₚ allTabs ∧
  StronglySorted
    (λ a b, JS.orZero (tab_lastAccessed a) ≤ JS.orZero (tab_lastAccessed b))
    sortedTabs.
Proof.
  intros Hu Hz Hzb Hlen Hsize Hgt. cbv zeta.
  assert (H32 : 2 ^ 32 < 2 ^ 52) by (apply Z.pow_lt_mono_r; lia).
  assert (H52 : 2 ^ 52 + 2 ^ 52 = 2 ^ 53) by reflexivity.
  assert (Hsz : 0 ≤ JS.setSize tabsToClose) by (unfold JS.setSize; lia).
  split_and!; [|apply sort_perm|apply sort_lastAccessed_ascending].
  destruct (maxTabPass_takes urlHostname settings allTabs tabsToClose Hu)
    as (k & Heq & Hk & Hbelow & Hstop).
  { rewrite Hz. unfold JS.gtb. rewrite ltb_ofZ by lia. apply Z.ltb_lt. lia. }
  cbv zeta in Heq, Hk, Hbelow, Hstop. rewrite Heq. f_equal.
  rewrite Hz, sub_ofZ in Hbelow, Hstop by lia.
  set (cands := omap (evictable urlHostname settings tabsToClose)
                     (JS.sort compareLastAccessed allTabs)) in *.
  assert (Hcl : (length cands ≤ length allTabs)%nat).
  { unfold cands. etrans; [apply omap_length_le|]. now rewrite sort_length. }
  rewrite (integral_quota
             (Z.of_nat (length allTabs) - JS.setSize tabsToClose - z)
             k (length cands)); [|lia|lia|assumption|assumption|assumption].
  destruct (Nat.le_ge_cases
              (Z.to_nat (Z.of_nat (length allTabs) - JS.setSize tabsToClose - z))
              (length cands)) as [Hle|Hge].
  - now rewrite Nat.min_l.
  - rewrite Nat.min_r by assumption. now rewrite !take_ge by lia.
Qed.

(** C10 as stated fails for a limit that is not an integer. With [maxTabs]
    2.5 (a value the restore handler of the options page stores as it
    finds it) and five recently used tabs, one of them active,
    [remainingCount] is 5 and [extraToClose] is 2.5: the loop stops when
    [closedCount >= 2.5] and that is after the third id, so three ids are
    added, more than [remainingCount - maxTabs], and two tabs survive,
    fewer than [maxTabs]. *)
Theorem maxTabPass_overcloses_fractional_limit :
  JS.gtb (JS.ofZ (Z.of_nat (length fiveSites) - JS.setSize []))
         (maxTabs limitTwoAndAHalf) = true ∧
  JS.sub (JS.ofZ (Z.of_nat (length fiveSites) - JS.setSize []))
         (maxTabs limitTwoAndAHalf) = JS.dyadic 5 (-1) ∧
  maxTabPass simpleHostname limitTwoAndAHalf fiveSites [] = [5; 4; 3] ∧
  JS.gtb (JS.ofZ (JS.setSize (maxTabPass simpleHostname limitTwoAndAHalf fiveSites [])
                  - JS.setSize []))
         (JS.sub (JS.ofZ (Z.of_nat (length fiveSites) - JS.setSize []))
                 (maxTabs limitTwoAndAHalf)) = true ∧
  JS.ltb (JS.ofZ (Z.of_nat (length fiveSites)
                  - JS.setSize (maxTabPass simpleHostname limitTwoAndAHalf fiveSites [])))
         (maxTabs limitTwoAndAHalf) = true ∧
  closeSet simpleHostname limitTwoAndAHalf ∅ 1000 fiveSites = [5; 4; 3] ∧
  traceOf simpleHostname (browserWith limitTwoAndAHalf fiveSites 1000) initialState
    = [SetIcon true; TabsRemove [5; 4; 3]; ConsoleLog [5; 4; 3]].
Proof. split_and!; vm_compute; reflexivity. Qed.

(** C10, amended. The max-tab pass adds an id only while the number of ids
    it has added is below [extraToClose = remainingCount - maxTabs], so it
    adds fewer than [extraToClose + 1] ids. When [maxTabs] is an integer
    this is at most [remainingCount - maxTabs] ids: for every input where
    [remainingCount = totalTabCount - closeSetSize] exceeds [maxTabs] on
    entry, the number of tabs that survive (the tab count minus the size
    of the close-set after the pass, which is the final close-set of the
    run) is at least [maxTabs]. *)
Theorem maxTabPass_never_overcloses (urlHostname : string → option string)
    (settings : Settings) (allTabs : list Tab) (tabsToClose : list Z) :
  let remainingCount := Z.of_nat (length allTabs) - JS.setSize tabsToClose in
  let extraToClose := JS.sub (JS.ofZ remainingCount) (maxTabs settings) in
  let added :=
    JS.setSize (maxTabPass urlHostname settings allTabs tabsToClose)
    - JS.setSize tabsToClose in
  0 ≤ added ≤ Z.of_nat (length allTabs) ∧
  (∀ j, 0 ≤ j < added → JS.geb (JS.ofZ j) extraToClose = false) ∧
  (∀ e, extraToClose = JS.Finite e → Z.of_nat (length allTabs) < 2 ^ 32 →
     0 < added → (added - 1) * JS.one < e) ∧
  (∀ z, maxTabs settings = JS.ofZ z → Z.abs z < 2 ^ 52 →
     Z.of_nat (length allTabs) < 2 ^ 32 → JS.setSize tabsToClose < 2 ^ 32 →
     remainingCount > z →
     added ≤ remainingCount - z ∧
     z ≤ Z.of_nat (length allTabs)
         - JS.setSize (maxTabPass urlHostname settings allTabs tabsToClose) ∧
     (∀ m now,
        tabsToClose =
          duplicatePass urlHostname settings allTabs
            (perTabPass urlHostname settings m now allTabs []) →
        z ≤ Z.of_nat (length allTabs)
            - JS.setSize (closeSet urlHostname settings m now allTabs))).
Proof.
  cbv zeta.
  destruct (maxTabPass_bound urlHostname settings allTabs tabsToClose)
    as (added & Heq & Hlen & Hb).
  assert (Hsize : JS.setSize (maxTabPass urlHostname settings allTabs tabsToClose)
                  - JS.setSize tabsToClose = Z.of_nat (length added)).
  { rewrite Heq. unfold JS.setSize. rewrite length_app. lia. }
  rewrite Hsize.
  assert (H32 : 2 ^ 32 < 2 ^ 52) by (apply Z.pow_lt_mono_r; lia).
  assert (H52 : 2 ^ 52 + 2 ^ 52 = 2 ^ 53) by reflexivity.
  assert (Hsz : 0 ≤ JS.setSize tabsToClose) by (unfold JS.setSize; lia).
  split_and!.
  - lia.
  - lia.
  - exact Hb.
  - intros e He Hlen32 Hpos.
    specialize (Hb (Z.of_nat (length added) - 1)). rewrite He in Hb.
    unfold JS.geb in Hb. rewrite ofZ_exact in Hb by lia. unfold JS.leb in Hb.
    apply Z.leb_gt. apply Hb. lia.
  - intros z Hz Hzb Hlen32 Hsize32 Hgt.
    assert (Hadd : Z.of_nat (length added)
                   ≤ Z.of_nat (length allTabs) - JS.setSize tabsToClose - z).
    { destruct (length added) as [|n] eqn:Hn; [lia|].
      specialize (Hb (Z.of_nat n)). rewrite Hz, sub_ofZ in Hb by lia.
      unfold JS.geb in Hb. rewrite leb_ofZ in Hb by lia.
      specialize (Hb ltac:(lia)). apply Z.leb_gt in Hb. lia. }
    split_and!.
    + exact Hadd.
    + lia.
    + intros m now ->. unfold closeSet. lia.
Qed.

(** C10 on a snapshot: limit two, three tabs, nothing closed by the earlier
    passes; two tabs survive. *)
Lemma maxTabPass_never_overcloses_witness :
  Z.of_nat (length threeSites) - JS.setSize [] > 2 ∧
  2 ≤ Z.of_nat (length threeSites)
      - JS.setSize (maxTabPass simpleHostname limitTwo threeSites []).
Proof.
  assert (Hgt : Z.of_nat (length threeSites) - JS.setSize [] > 2)
    by (vm_compute; reflexivity).
  split; [exact Hgt|].
  assert (Hz : Z.abs 2 < 2 ^ 52) by (vm_compute; reflexivity).
  assert (Hlen : Z.of_nat (length threeSites) < 2 ^ 32) by (vm_compute; reflexivity).
  assert (Hsize : JS.setSize [] < 2 ^ 32) by (vm_compute; reflexivity).
  exact (proj1 (proj2
    (proj2 (proj2 (proj2
       (maxTabPass_never_overcloses simpleHostname limitTwo threeSites [])))
       2 eq_refl Hz Hlen Hsize Hgt))).
Defined.

(** C2 fails for [maxTabs = 0]: the pass is not skipped. With the limit set
    to 0 and three recently used tabs open, the max-tab pass targets both
    inactive tabs and the run closes them. *)
Theorem maxTabs_zero_is_not_unlimited :
  perTabPass simpleHostname unlimited ∅ 1000 threeSites [] = [] ∧
  duplicatePass simpleHostname unlimited threeSites [] = [] ∧
  maxTabPass simpleHostname unlimited threeSites [] = [3; 2] ∧
  traceOf simpleHostname (browserWith unlimited threeSites 1000) initialState
    = [TabsRemove [3; 2]; ConsoleLog [3; 2]].
Proof. split_and!; vm_compute; reflexivity. Qed.

(** * Further properties of the rule engine *)

(** ** The passes keep and extend the close-set *)

Lemma fold_left_adds {T : Type} (f : list Z → T → list Z) (P : T → Z → Prop) :
  (∀ set t x, x ∈ f set t ↔ x ∈ set ∨ P t x) →
  ∀ l set x, x ∈ fold_left f l set ↔ x ∈ set ∨ ∃ t, t ∈ l ∧ P t x.
Proof.
  intros Hf l. induction l as [|t l IH]; intros set x; simpl.
  - split; [auto|]. intros [?|(t & Ht & _)]; [assumption|].
    now apply elem_of_nil in Ht.
  - rewrite IH, Hf. split.
    + intros [[?|?]|(t' & ? & ?)]; [auto| |].
      * right. exists t. split; [left|assumption].
      * right. exists t'. split; [now right|assumption].
    + intros [?|(t' & [->|?]%elem_of_cons & ?)]; [auto|auto|].
      right. now exists t'.
Qed.

Lemma NoDup_setAdd (x : Z) (s : list Z) : NoDup s → NoDup (JS.setAdd x s).
Proof.
  intros Hs. unfold JS.setAdd, JS.setHas. case_bool_decide as Hx; [assumption|].
  apply NoDup_app. split_and!; [assumption| |apply NoDup_singleton].
  intros y Hy ->%list_elem_of_singleton. contradiction.
Qed.

Lemma fold_left_NoDup {T : Type} (f : list Z → T → list Z) :
  (∀ set t, NoDup set → NoDup (f set t)) →
  ∀ l set, NoDup set → NoDup (fold_left f l set).
Proof.
  intros Hf l. induction l as [|t l IH]; intros set Hs; simpl; auto.
Qed.

Section Passes.
Variable urlHostname : string → option string.
Variable settings : Settings.


Lemma perTabRule_NoDup (m : gmap Z Z) (now : Z) (tabsToClose : list Z) (tab : Tab) :
  NoDup tabsToClose → NoDup (perTabRule urlHostname settings m now tabsToClose tab).
Proof.
  intros Hs. unfold perTabRule.
  repeat case_match; try assumption; now apply NoDup_setAdd.
Qed.

Lemma duplicateRule_NoDup (allTabs : list Tab) (tabsToClose : list Z) (id : Z) :
  NoDup tabsToClose → NoDup (duplicateRule urlHostname settings allTabs tabsToClose id).
Proof.
  intros Hs. unfold duplicateRule.
  repeat case_match; try assumption; now apply NoDup_setAdd.
Qed.

Lemma maxTabsLoop_NoDup (extraToClose : JS.number) (sortedTabs : list Tab)
    (tabsToClose : list Z) (closedCount : Z) :
  NoDup tabsToClose →
  NoDup (maxTabsLoop urlHostname settings extraToClose sortedTabs tabsToClose closedCount).
Proof.
  revert tabsToClose closedCount.
  induction sortedTabs as [|tab rest IH]; intros tabsToClose closedCount Hs;
    simpl; [assumption|].
  repeat case_match; try assumption; apply IH; try assumption.
  now apply NoDup_setAdd.
Qed.

Lemma maxTabPass_NoDup (allTabs : list Tab) (tabsToClose : list Z) :
  NoDup tabsToClose → NoDup (maxTabPass urlHostname settings allTabs tabsToClose).
Proof.
  intros Hs. unfold maxTabPass. destruct (JS.gtb _ _); [|assumption].
  now apply maxTabsLoop_NoDup.
Qed.




End Passes.

(** ** The run in closed form *)

Section ClosingStep.
Variable urlHostname : string → option string.

Lemma applyCleanupRules_closed_form (b : Browser) (st : State) (allTabs : list Tab) :
  enabled (settingsOf b) = true → tabsQuery b = Some allTabs →
  let w := warningCheck (settingsOf b) (Z.of_nat (length allTabs)) b st in
  applyCleanupRules urlHostname b st =
  (Normal tt, w.1.2,
   w.2 ++
   match w.1.1 with
   | Normal _ =>
       closingTrace b (settingsOf b)
         (closeSet urlHostname (settingsOf b) (tabActivityMap st) (dateNow b) allTabs)
   | Thrown => [ConsoleError "Error in applyCleanupRules:"]
   end).
Proof.
  intros Hen Hq. cbv zeta. destruct (settingsOf_enabled b Hen) as [result Hres].
  destruct (warningCheck_cases (settingsOf b) (Z.of_nat (length allTabs)) b st)
    as (Hmap & _).
  unfold applyCleanupRules, tryCatch.
  rewrite bind_run, getSettings_run, Hen, Hres. cbn [negb].
  rewrite bind_run. cbn [dateNowCall]. rewrite bind_run.
  unfold chromeTabsQuery. rewrite Hq. rewrite bind_run.
  destruct (warningCheck _ _ b st) as [[[[]|] st'] tr]; cbn [fst snd] in *;
    [|reflexivity].
  rewrite bind_run. cbn [readTabActivityMap]. rewrite Hmap.
  set (ids := closeSet urlHostname (settingsOf b) (tabActivityMap st) (dateNow b) allTabs).
  unfold closingTrace.
  destruct (Z.of_nat (length ids) >? 0).
  2:{ unfold mret, Run_ret. cbn [app]. now rewrite ?app_nil_r. }
  rewrite bind_run. unfold chromeTabsRemove, call.
  destruct (tabsRemove b ids).
  2:{ unfold consoleError, call. cbn [app]. rewrite ?app_nil_r, <- ?app_assoc. reflexivity. }
  rewrite bind_run. unfold consoleLog, call.
  destruct (notificationsEnabled (settingsOf b)).
  - unfold chromeNotificationsCreate, call.
    destruct (notificationsCreate b _).
    + cbn [app]. rewrite ?app_nil_r, <- ?app_assoc. reflexivity.
    + unfold consoleError, call. cbn [app]. rewrite ?app_nil_r, <- ?app_assoc. reflexivity.
  - unfold mret, Run_ret. cbn [app]. rewrite ?app_nil_r, <- ?app_assoc. reflexivity.
Qed.

End ClosingStep.

Lemma warningCheck_requests (settings : Settings) (n : Z) (b : Browser) (st : State) :
  warningRequests (warningCheck settings n b st).2.
Proof.
  rewrite warningCheck_run. cbv zeta. unfold warningRequests.
  repeat case_match; cbn [snd app]; repeat constructor.
Qed.


Lemma warningCheck_throws (settings : Settings) (n : Z) (b : Browser) (st : State) :
  raisesWarning (warningCheck settings n b st).2 = true →
  notificationsCreate b (TabWarning n (maxTabs settings)) = false →
  (warningCheck settings n b st).1.1 = Thrown.
Proof.
  rewrite warningCheck_run. cbv zeta. intros Hw Hfail. rewrite Hfail.
  repeat case_match; cbn [fst snd] in *; try reflexivity;
    rewrite ?raisesWarning_app in Hw; cbn in Hw; try discriminate.
  all: destruct (actionSetIcon b true); cbn in Hw; discriminate.
Qed.

(** ** X1 to X5: what the per-tab rules select and how the batch is closed *)


(** X2. The close-set never holds an id twice: every pass keeps a
    duplicate-free close-set duplicate-free, so the final close-set, the
    batch handed to [chrome.tabs.remove], names each tab at most once. *)
Theorem closeSet_NoDup (urlHostname : string → option string)
    (settings : Settings) (m : gmap Z Z) (now : Z) (allTabs : list Tab) :
  NoDup (closeSet urlHostname settings m now allTabs) ∧
  (∀ b st ids, TabsRemove ids ∈ traceOf urlHostname b st → NoDup ids).
Proof.
  assert (Hnd : ∀ s' m' now' tabs', NoDup (closeSet urlHostname s' m' now' tabs')).
  { intros s' m' now' tabs'. unfold closeSet. apply maxTabPass_NoDup.
    unfold duplicatePass. apply fold_left_NoDup.
    { intros set id. apply duplicateRule_NoDup. }
    unfold perTabPass. apply fold_left_NoDup.
    { intros set t. apply perTabRule_NoDup. }
    apply NoDup_nil_2. }
  split; [apply Hnd|].
  intros b st ids (tabs' & _ & _ & _ & ->)%run_closes_closeSet. apply Hnd.
Qed.

Lemma closeSet_NoDup_witness :
  TabsRemove [2] ∈
    traceOf simpleHostname (browserWith limitFiveBlacklisting threeSites 1000)
      initialState ∧
  NoDup ([2] : list Z).
Proof.
  assert (Hin : TabsRemove [2] ∈
                  traceOf simpleHostname
                    (browserWith limitFiveBlacklisting threeSites 1000) initialState).
  { vm_compute. right. right. left. }
  split; [exact Hin|].
  exact (proj2 (closeSet_NoDup simpleHostname limitFiveBlacklisting ∅ 1000 threeSites)
           (browserWith limitFiveBlacklisting threeSites 1000) initialState [2] Hin).
Defined.



(** X4. The closing step of a run: [chrome.tabs.remove] is requested at
    most once, with the whole close-set; the "Tabs Cleaned" notification is
    created only when notifications are enabled and the removal succeeded,
    and it reports the size of that batch; when the removal fails nothing is
    logged as closed and nothing announced, and the run still returns
    normally. *)
Theorem closing_step_is_one_batch (urlHostname : string → option string)
    (b : Browser) (st : State) :
  (∀ ids, TabsRemove ids ∈ traceOf urlHostname b st →
     ∃ pre post, traceOf urlHostname b st = pre ++ TabsRemove ids :: post ∧
       requestsClose pre = false ∧ requestsClose post = false) ∧
  (∀ n, NotificationsCreate (TabsCleaned n) ∈ traceOf urlHostname b st →
     notificationsEnabled (settingsOf b) = true ∧
     ∃ ids, TabsRemove ids ∈ traceOf urlHostname b st ∧
       tabsRemove b ids = true ∧ n = Z.of_nat (length ids)) ∧
  (∀ ids, TabsRemove ids ∈ traceOf urlHostname b st → tabsRemove b ids = false →
     (ConsoleLog ids ∉ traceOf urlHostname b st) ∧
     (∀ n, NotificationsCreate (TabsCleaned n) ∉ traceOf urlHostname b st) ∧
     ConsoleError "Error in applyCleanupRules:" ∈ traceOf urlHostname b st ∧
     completionOf urlHostname b st = Normal tt).
Proof.
  pose proof (applyCleanupRules_never_throws urlHostname b st) as Hnorm.
  destruct (run_summary urlHostname b st)
    as [(_ & _ & _ & Hno & Hnot & _)|(allTabs & tail & Hen & Hq & _)].
  { split_and!.
    - intros ids Hin. now apply (requestsClose_false _ ids) in Hno.
    - intros n Hin. apply list_elem_of_In in Hin.
      assert (notifiesOrSetsIcon (traceOf urlHostname b st) = true); [|congruence].
      apply existsb_exists. now exists (NotificationsCreate (TabsCleaned n)).
    - intros ids Hin. now apply (requestsClose_false _ ids) in Hno. }
  pose proof (applyCleanupRules_closed_form urlHostname b st allTabs Hen Hq) as Hrun.
  cbv zeta in Hrun.
  pose proof (warningCheck_requests (settingsOf b) (Z.of_nat (length allTabs)) b st)
    as Hw.
  destruct (warningCheck_cases (settingsOf b) (Z.of_nat (length allTabs)) b st)
    as (_ & Hwclose & _).
  unfold traceOf. rewrite Hrun. cbn [snd].
  set (wtr := (warningCheck (settingsOf b) (Z.of_nat (length allTabs)) b st).2) in *.
  set (ids0 := closeSet urlHostname (settingsOf b) (tabActivityMap st) (dateNow b) allTabs).
  unfold warningRequests in Hw. rewrite Forall_forall in Hw.
  destruct ((warningCheck (settingsOf b) (Z.of_nat (length allTabs)) b st).1.1).
  2:{ split_and!.
      - intros ids [Hin|Hin]%elem_of_app; [now apply Hw in Hin|].
        apply list_elem_of_singleton in Hin. discriminate.
      - intros n [Hin|Hin]%elem_of_app; [now apply Hw in Hin|].
        apply list_elem_of_singleton in Hin. discriminate.
      - intros ids [Hin|Hin]%elem_of_app; [now apply Hw in Hin|].
        apply list_elem_of_singleton in Hin. discriminate. }
  unfold closingTrace.
  destruct (Z.of_nat (length ids0) >? 0).
  2:{ rewrite app_nil_r. split_and!.
      - intros ids Hin. now apply Hw in Hin.
      - intros n Hin. now apply Hw in Hin.
      - intros ids Hin. now apply Hw in Hin. }
  destruct (tabsRemove b ids0) eqn:Hrm.
  - destruct (notificationsEnabled (settingsOf b)) eqn:Hne.
    + split_and!.
      * intros ids [Hin|Hin]%elem_of_app; [now apply Hw in Hin|].
        apply elem_of_cons in Hin as [[= ->]|Hin].
        -- eexists wtr, _. split; [reflexivity|]. split; [assumption|].
           cbn. now destruct (notificationsCreate b _).
        -- exfalso. destruct (notificationsCreate b _);
             repeat (apply elem_of_cons in Hin as [Hin|Hin]; [discriminate|]);
             now apply elem_of_nil in Hin.
      * intros n [Hin|Hin]%elem_of_app; [now apply Hw in Hin|].
        split; [reflexivity|]. exists ids0. split_and!.
        -- apply elem_of_app. right. left.
        -- assumption.
        -- destruct (notificationsCreate b _);
             repeat (apply elem_of_cons in Hin as [Hin|Hin];
                     [try discriminate; try (now injection Hin)|]);
             now apply elem_of_nil in Hin.
      * intros ids [Hin|Hin]%elem_of_app; [now apply Hw in Hin|].
        intros Hfail. exfalso.
        apply elem_of_cons in Hin as [[= ->]|Hin]; [congruence|].
        destruct (notificationsCreate b _);
          repeat (apply elem_of_cons in Hin as [Hin|Hin]; [discriminate|]);
          now apply elem_of_nil in Hin.
    + split_and!.
      * intros ids [Hin|Hin]%elem_of_app; [now apply Hw in Hin|].
        apply elem_of_cons in Hin as [[= ->]|Hin].
        -- eexists wtr, _. split; [reflexivity|]. now split.
        -- exfalso.
           repeat (apply elem_of_cons in Hin as [Hin|Hin]; [discriminate|]);
             now apply elem_of_nil in Hin.
      * intros n [Hin|Hin]%elem_of_app; [now apply Hw in Hin|]. exfalso.
        repeat (apply elem_of_cons in Hin as [Hin|Hin]; [discriminate|]);
          now apply elem_of_nil in Hin.
      * intros ids [Hin|Hin]%elem_of_app; [now apply Hw in Hin|].
        intros Hfail. exfalso.
        apply elem_of_cons in Hin as [[= ->]|Hin]; [congruence|].
        repeat (apply elem_of_cons in Hin as [Hin|Hin]; [discriminate|]);
          now apply elem_of_nil in Hin.
  - split_and!.
    + intros ids [Hin|Hin]%elem_of_app; [now apply Hw in Hin|].
      apply elem_of_cons in Hin as [[= ->]|Hin].
      * eexists wtr, _. split; [reflexivity|]. now split.
      * exfalso.
        repeat (apply elem_of_cons in Hin as [Hin|Hin]; [discriminate|]);
          now apply elem_of_nil in Hin.
    + intros n [Hin|Hin]%elem_of_app; [now apply Hw in Hin|]. exfalso.
      repeat (apply elem_of_cons in Hin as [Hin|Hin]; [discriminate|]);
        now apply elem_of_nil in Hin.
    + intros ids Hin Hfail. split_and!.
      * intros [Hl|Hl]%elem_of_app; [now apply Hw in Hl|].
        repeat (apply elem_of_cons in Hl as [Hl|Hl]; [discriminate|]);
          now apply elem_of_nil in Hl.
      * intros n [Hl|Hl]%elem_of_app; [now apply Hw in Hl|].
        repeat (apply elem_of_cons in Hl as [Hl|Hl]; [discriminate|]);
          now apply elem_of_nil in Hl.
      * apply elem_of_app. right. right. left.
      * exact Hnorm.
Qed.

(** X4 on a run whose [chrome.tabs.remove] rejects: the batch is requested,
    the error is logged and nothing is announced. *)
Lemma closing_step_is_one_batch_witness :
  TabsRemove [2] ∈
    traceOf simpleHostname (browserWithoutRemove limitFiveBlacklisting threeSites 1000)
      initialState ∧
  ConsoleError "Error in applyCleanupRules:" ∈
    traceOf simpleHostname (browserWithoutRemove limitFiveBlacklisting threeSites 1000)
      initialState.
Proof.
  assert (Hin : TabsRemove [2] ∈
    traceOf simpleHostname (browserWithoutRemove limitFiveBlacklisting threeSites 1000)
      initialState).
  { vm_compute. right. right. left. }
  split; [exact Hin|].
  exact (proj1 (proj2 (proj2
    (proj2 (proj2 (closing_step_is_one_batch simpleHostname
       (browserWithoutRemove limitFiveBlacklisting threeSites 1000) initialState))
       [2] Hin eq_refl)))).
Defined.

(** X5. A throwing warning notification aborts the run: when the run
    raises the approaching-limit notification and
    [chrome.notifications.create] throws on it, the latch stays set, no
    close request is made in that run, whatever the rules would have
    selected, and the run returns normally. *)
Theorem throwing_warning_aborts_run (urlHostname : string → option string)
    (b : Browser) (st : State) (allTabs : list Tab) :
  tabsQuery b = Some allTabs →
  raisesWarning (traceOf urlHostname b st) = true →
  notificationsCreate b
    (TabWarning (Z.of_nat (length allTabs)) (maxTabs (settingsOf b))) = false →
  requestsClose (traceOf urlHostname b st) = false ∧
  warningActive (stateAfter urlHostname b st) = true ∧
  completionOf urlHostname b st = Normal tt ∧
  ConsoleError "Error in applyCleanupRules:" ∈ traceOf urlHostname b st.
Proof.
  intros Hq Hwarn Hfail.
  destruct (run_warns urlHostname b st Hwarn) as (_ & _ & Hlatch).
  destruct (run_summary urlHostname b st)
    as [(_ & _ & _ & _ & _ & Hno)|(allTabs' & tail & Hen & Hq' & _)];
    [congruence|].
  rewrite Hq in Hq'. injection Hq' as <-.
  pose proof (applyCleanupRules_closed_form urlHostname b st allTabs Hen Hq) as Hrun.
  cbv zeta in Hrun.
  assert (Hwc : raisesWarning
            (warningCheck (settingsOf b) (Z.of_nat (length allTabs)) b st).2 = true).
  { unfold traceOf in Hwarn. rewrite Hrun in Hwarn. cbn [snd] in Hwarn.
    rewrite raisesWarning_app in Hwarn.
    apply orb_true_iff in Hwarn as [?|Htail]; [assumption|]. exfalso.
    destruct ((warningCheck _ _ b st).1.1); [|discriminate].
    unfold closingTrace in Htail. repeat case_match; discriminate. }
  pose proof (warningCheck_throws _ _ _ _ Hwc Hfail) as Hthrown.
  assert (Htr : traceOf urlHostname b st =
            (warningCheck (settingsOf b) (Z.of_nat (length allTabs)) b st).2 ++
            [ConsoleError "Error in applyCleanupRules:"]).
  { unfold traceOf. rewrite Hrun. cbn [snd]. now rewrite Hthrown. }
  split_and!; [|exact Hlatch|apply applyCleanupRules_never_throws|].
  - rewrite Htr. unfold requestsClose. rewrite existsb_app.
    apply orb_false_iff. split; [|reflexivity].
    now destruct (warningCheck_cases (settingsOf b) (Z.of_nat (length allTabs)) b st)
      as (_ & ? & _).
  - rewrite Htr. apply elem_of_app. right. left.
Qed.

(** X5 on a run: the same snapshot and settings as for X3, but the
    notification call throws; tab 2 on the blacklisted [b.com] stays open. *)
Lemma throwing_warning_aborts_run_witness :
  raisesWarning
    (traceOf simpleHostname
       (browserWithoutNotifications limitFiveBlacklisting threeSites 1000)
       initialState) = true ∧
  requestsClose
    (traceOf simpleHostname
       (browserWithoutNotifications limitFiveBlacklisting threeSites 1000)
       initialState) = false.
Proof.
  assert (Hw : raisesWarning
    (traceOf simpleHostname
       (browserWithoutNotifications limitFiveBlacklisting threeSites 1000)
       initialState) = true) by (vm_compute; reflexivity).
  split; [exact Hw|].
  exact (proj1 (throwing_warning_aborts_run simpleHostname
    (browserWithoutNotifications limitFiveBlacklisting threeSites 1000)
    initialState threeSites eq_refl Hw eq_refl)).
Defined.

(** ** X6 to X8: the duplicate pass and the detector *)

Lemma find_by_id (allTabs : list Tab) (t : Tab) (i : Z) :
  uniqueIds allTabs → t ∈ allTabs → tab_id t = Some i →
  find (λ t', bool_decide (tab_id t' = Some i)) allTabs = Some t.
Proof.
  intros Hu Ht Hid.
  destruct (find _ allTabs) as [t'|] eqn:Hfind.
  - apply find_some in Hfind as [Hin Hid']. apply list_elem_of_In in Hin.
    apply bool_decide_eq_true in Hid'.
    now rewrite (uniqueIds_same_tab allTabs t t' i Hu Ht Hin Hid Hid').
  - apply list_elem_of_In in Ht.
    pose proof (find_none _ _ Hfind t Ht) as Hno. simpl in Hno.
    now rewrite bool_decide_eq_true_2 in Hno.
Qed.

Lemma duplicateRule_spec (urlHostname : string → option string)
    (settings : Settings) (allTabs : list Tab) (tabsToClose : list Z) (id x : Z) :
  x ∈ duplicateRule urlHostname settings allTabs tabsToClose id ↔
  x ∈ tabsToClose ∨
  (x = id ∧ ∃ tab,
     find (λ t, bool_decide (tab_id t = Some id)) allTabs = Some tab ∧
     tab_active tab = false ∧
     someMatches urlHostname (whitelist settings) tab = false).
Proof.
  unfold duplicateRule.
  destruct (find _ allTabs) as [tab|];
    [|split; [auto|intros [?|(_ & ? & ? & _)]; [assumption|discriminate]]].
  destruct (tab_active tab) eqn:Hact; simpl;
    [split; [auto|intros [?|(_ & ? & [= <-] & ? & _)]; [assumption|congruence]]|].
  destruct (someMatches urlHostname (whitelist settings) tab) eqn:Hwl; simpl;
    [split; [auto|intros [?|(_ & ? & [= <-] & _ & ?)]; [assumption|congruence]]|].
  rewrite elem_of_setAdd. split.
  - intros [->|?]; [right|auto]. split; [reflexivity|]. now exists tab.
  - intros [?|[-> _]]; auto.
Qed.

(** X6. With unique tab ids, the duplicate pass adds exactly the ids the
    detector flags whose tab matches no whitelist pattern: a flagged
    duplicate is closed unless it is whitelisted, and nothing else is added
    by this pass. *)
Theorem duplicatePass_closes_flagged (urlHostname : string → option string)
    (settings : Settings) (allTabs : list Tab) (tabsToClose : list Z) (i : Z) :
  uniqueIds allTabs →
  (i ∈ duplicatePass urlHostname settings allTabs tabsToClose ↔
   i ∈ tabsToClose ∨
   (i ∈ getDuplicateTabs allTabs ∧
    ∃ t, t ∈ allTabs ∧ tab_id t = Some i ∧
         someMatches urlHostname (whitelist settings) t = false)).
Proof.
  intros Hu. unfold duplicatePass.
  rewrite (fold_left_adds (duplicateRule urlHostname settings allTabs)
             (λ id x, x = id ∧ ∃ tab,
                find (λ t, bool_decide (tab_id t = Some id)) allTabs = Some tab ∧
                tab_active tab = false ∧
                someMatches urlHostname (whitelist settings) tab = false))
    by (intros set id x; apply duplicateRule_spec).
  split.
  - intros [?|(id & Hid & -> & tab & Hfind & Hact & Hwl)]; [auto|].
    right. split; [assumption|]. exists tab.
    apply find_some in Hfind as [Hin Hb]. apply list_elem_of_In in Hin.
    apply bool_decide_eq_true in Hb. now split_and!.
  - intros [?|(Hdup & t & Ht & Hid & Hwl)]; [auto|].
    right. exists i. split; [assumption|]. split; [reflexivity|]. exists t.
    split_and!; [now apply find_by_id| |assumption].
    apply getDuplicateTabs_member in Hdup as (t' & Ht' & Hid' & Hact').
    now rewrite (uniqueIds_same_tab allTabs t t' i Hu Ht Ht' Hid Hid').
Qed.

(** X6 on a snapshot: tab 1 is the older of two tabs on one url and is
    flagged; with no whitelist the duplicate pass adds it. *)
Lemma duplicatePass_closes_flagged_witness :
  uniqueIds threeInactive ∧
  1 ∈ duplicatePass simpleHostname blacklisting threeInactive [].
Proof.
  assert (Hu : uniqueIds threeInactive).
  { apply (bool_decide_unpack _). vm_compute. exact I. }
  split; [exact Hu|].
  apply (duplicatePass_closes_flagged simpleHostname blacklisting threeInactive [] 1 Hu).
  right. split.
  - right. left.
  - exists (mkTab (Some 1) (Some exampleUrl) false (Some 100)).
    split_and!; [left|reflexivity|reflexivity].
Defined.

Lemma NoDup_omap_filter {A B} (f : A → option B) (P : A → Prop)
    `{∀ x, Decision (P x)} (l : list A) :
  NoDup (omap f l) → NoDup (omap f (filter P l)).
Proof.
  induction l as [|a l IH]; [trivial|].
  rewrite omap_cons, filter_cons. intros Hnd.
  destruct (f a) as [y|] eqn:Hfa.
  - apply NoDup_cons in Hnd as [Hy Hnd]. destruct (decide (P a)); [|auto].
    rewrite omap_cons, Hfa. apply NoDup_cons. split; [|auto].
    intros (x & Hx & Hfx)%list_elem_of_omap. apply Hy.
    apply list_elem_of_omap. exists x. split; [|assumption].
    now apply list_elem_of_filter in Hx as [_ ?].
  - destruct (decide (P a)); [rewrite omap_cons, Hfa|]; auto.
Qed.

(** X7. The detector spares the keeper: with unique tab ids, the tab at the
    head of a sorted group (a group of any size) is never among the ids
    [getDuplicateTabs] returns, so of the tabs sharing a url at least one is
    left open by the duplicate rule. *)
Theorem keeper_is_never_flagged (tabs : list Tab) (u : string) (g : list Tab)
    (keeper : Tab) (others : list Tab) (i : Z) :
  uniqueIds tabs → (u, g) ∈ buildUrlMap tabs →
  JS.sort compareDuplicates g = keeper :: others →
  tab_id keeper = Some i →
  i ∉ getDuplicateTabs tabs.
Proof.
  intros Hu Hg Hs Hid Hflag.
  apply elem_of_buildUrlMap in Hg as (_ & _ & ->).
  assert (Hperm : keeper :: others ≡ₚ sameUrl u tabs)
    by (rewrite <- Hs; apply sort_perm).
  assert (Hk : keeper ∈ tabs).
  { assert (Hin : keeper ∈ sameUrl u tabs) by (rewrite <- Hperm; left).
    now apply list_elem_of_filter in Hin as [_ ?]. }
  assert (Hku : tab_url keeper = Some u).
  { assert (Hin : keeper ∈ sameUrl u tabs) by (rewrite <- Hperm; left).
    now apply list_elem_of_filter in Hin as [? _]. }
  assert (Hnd : NoDup (omap tab_id (keeper :: others))).
  { rewrite Hperm. unfold sameUrl. now apply NoDup_omap_filter. }
  rewrite omap_cons, Hid in Hnd. apply NoDup_cons in Hnd as [Hnotin _].
  apply elem_of_getDuplicateTabs in Hflag as (u' & g' & Hg' & _ & Hi).
  apply elem_of_pushDuplicates in Hi as (t & Ht & Hidt & _ & _).
  apply elem_of_buildUrlMap in Hg' as (_ & _ & ->).
  assert (Htin : t ∈ sameUrl u' tabs) by (now apply tail_subset, elem_of_sort in Ht).
  apply list_elem_of_filter in Htin as [Htu Htabs].
  assert (t = keeper) as -> by (now apply (uniqueIds_same_tab tabs _ _ i)).
  assert (u' = u) as -> by congruence.
  rewrite Hs in Ht. simpl in Ht.
  apply Hnotin. apply list_elem_of_omap. now exists keeper.
Qed.

(** X7 on the three inactive tabs: tab 2, accessed last, is the keeper. *)
Lemma keeper_is_never_flagged_witness :
  uniqueIds threeInactive ∧ (exampleUrl, threeInactive) ∈ buildUrlMap threeInactive ∧
  2 ∉ getDuplicateTabs threeInactive.
Proof.
  assert (Hu : uniqueIds threeInactive).
  { apply (bool_decide_unpack _). vm_compute. exact I. }
  assert (Hg : (exampleUrl, threeInactive) ∈ buildUrlMap threeInactive) by left.
  split_and!; [exact Hu|exact Hg|].
  exact (keeper_is_never_flagged threeInactive exampleUrl threeInactive _ _ 2
           Hu Hg eq_refl eq_refl).
Defined.

(** X8. Without a shared url there is no duplicate: when every non-empty
    url is carried by at most one tab (in particular on the empty snapshot
    and on a single tab), [getDuplicateTabs] returns the empty array; tabs
    without url or with the empty url do not count, however many there
    are. *)
Theorem no_shared_url_no_duplicates (tabs : list Tab) :
  (∀ u, u ≠ "" → (length (sameUrl u tabs) ≤ 1)%nat) →
  getDuplicateTabs tabs = [].
Proof.
  intros Hone. apply elem_of_nil_inv. intros i Hi.
  apply elem_of_getDuplicateTabs in Hi as (u & g & Hg & Hlen & _).
  apply elem_of_buildUrlMap in Hg as (Hu & _ & ->).
  specialize (Hone u Hu). lia.
Qed.

(** X8 on three tabs on three sites. *)
Lemma no_shared_url_no_duplicates_witness :
  getDuplicateTabs threeSites = [].
Proof.
  apply no_shared_url_no_duplicates. intros u _.
  unfold sameUrl, threeSites. rewrite !filter_cons, filter_nil.
  repeat case_decide; simpl in *; simplify_eq; simpl; lia.
Defined.

(** ** X9: tabs without a domain *)




(** ** X10 and X11: the max-tab pass enforces the limit, oldest first *)

(** X10. With unique tab ids, a [maxTabs] that is an integer [z] and more
    remaining tabs than [maxTabs], the max-tab pass brings the number of
    remaining tabs down to exactly [maxTabs] whenever enough tabs are
    evictable (inactive, non-zero id, not yet in the close-set, not
    whitelisted); when fewer are, it adds all of them. (An array holds
    fewer than [2^32] elements.) *)
Theorem maxTabPass_enforces_limit (urlHostname : string → option string)
    (settings : Settings) (allTabs : list Tab) (tabsToClose : list Z) (z : Z) :
  uniqueIds allTabs →
  maxTabs settings = JS.ofZ z → Z.abs z < 2 ^ 52 →
  Z.of_nat (length allTabs) < 2 ^ 32 → JS.setSize tabsToClose < 2 ^ 32 →
  Z.of_nat (length allTabs) - JS.setSize tabsToClose > z →
  let extra := Z.of_nat (length allTabs) - JS.setSize tabsToClose - z in
  let candidates :=
    omap (evictable urlHostname settings tabsToClose)
         (JS.sort compareLastAccessed allTabs) in
  (extra ≤ Z.of_nat (length candidates) →
   Z.of_nat (length allTabs)
   - JS.setSize (maxTabPass urlHostname settings allTabs tabsToClose)
   = z) ∧
  (Z.of_nat (length candidates) ≤ extra →
   maxTabPass urlHostname settings allTabs tabsToClose = tabsToClose ++ candidates).
Proof.
  intros Hu Hz Hzb Hlen Hsize Hgt. cbv zeta.
  destruct (maxTabPass_takes_oldest urlHostname settings allTabs tabsToClose z
              Hu Hz Hzb Hlen Hsize Hgt)
    as (Heq & _). cbv zeta in Heq. rewrite Heq. split.
  - intros Hle. unfold JS.setSize. rewrite length_app, length_take.
    unfold JS.setSize in *. lia.
  - intros Hle. f_equal. apply take_ge. lia.
Qed.

(** X10 on a snapshot: limit two, three tabs, two of them evictable. *)
Lemma maxTabPass_enforces_limit_witness :
  uniqueIds threeSites ∧
  maxTabs limitTwo = JS.ofZ 2 ∧
  Z.of_nat (length threeSites)
  - JS.setSize (maxTabPass simpleHostname limitTwo threeSites [])
  = 2.
Proof.
  assert (Hu : uniqueIds threeSites).
  { apply (bool_decide_unpack _). vm_compute. exact I. }
  split; [exact Hu|]. split; [reflexivity|].
  refine (proj1 (maxTabPass_enforces_limit simpleHostname limitTwo threeSites [] 2
                   Hu eq_refl _ _ _ _) _); vm_compute; try reflexivity; discriminate.
Defined.

Lemma omap_split_sorted {A B} (R : A → A → Prop) (f : A → option B)
    (l : list A) (l1 l2 : list B) :
  StronglySorted R l → omap f l = l1 ++ l2 →
  ∀ x y, x ∈ l1 → y ∈ l2 →
    ∃ tx ty, tx ∈ l ∧ ty ∈ l ∧ f tx = Some x ∧ f ty = Some y ∧ R tx ty.
Proof.
  intros Hs. revert l1. induction Hs as [|a l Hs IH Ha]; intros l1 Heq x y Hx Hy.
  - symmetry in Heq. apply app_eq_nil in Heq as [-> _]. now apply elem_of_nil in Hx.
  - rewrite omap_cons in Heq. rewrite Forall_forall in Ha.
    assert (Hstep : ∀ l1', omap f l = l1' ++ l2 → x ∈ l1' →
              ∃ tx ty, tx ∈ a :: l ∧ ty ∈ a :: l ∧ f tx = Some x ∧ f ty = Some y ∧ R tx ty).
    { intros l1' Heq' Hx'.
      destruct (IH l1' Heq' x y Hx' Hy) as (tx & ty & ? & ? & ? & ? & ?).
      exists tx, ty. split_and!; try assumption; now right. }
    destruct (f a) as [z|] eqn:Hfa; [|now apply (Hstep l1)].
    destruct l1 as [|z' l1']; [now apply elem_of_nil in Hx|].
    rewrite <- app_comm_cons in Heq.
    assert (z' = z ∧ omap f l = l1' ++ l2) as [-> Heq'] by (split; congruence).
    apply elem_of_cons in Hx as [->|Hx]; [|now apply (Hstep l1')].
    assert (Hyin : y ∈ omap f l) by (rewrite Heq'; apply elem_of_app; now right).
    apply list_elem_of_omap in Hyin as (ty & Hty & Hfy).
    exists a, ty. split_and!; [left|now right|assumption|assumption|now apply Ha].
Qed.

(** X11. The max-tab pass evicts least recently used first: with unique
    tab ids and more remaining tabs than [maxTabs], if the pass adds the id
    of an evictable tab and leaves another evictable tab out, the tab it
    adds was not accessed later than the one it leaves ([lastAccessed],
    missing counting as 0). *)
Theorem maxTabPass_evicts_oldest (urlHostname : string → option string)
    (settings : Settings) (allTabs : list Tab) (tabsToClose : list Z)
    (t t' : Tab) (i j : Z) :
  uniqueIds allTabs →
  JS.gtb (JS.ofZ (Z.of_nat (length allTabs) - JS.setSize tabsToClose))
         (maxTabs settings) = true →
  t ∈ allTabs → t' ∈ allTabs →
  evictable urlHostname settings tabsToClose t = Some i →
  evictable urlHostname settings tabsToClose t' = Some j →
  i ∈ maxTabPass urlHostname settings allTabs tabsToClose →
  j ∉ maxTabPass urlHostname settings allTabs tabsToClose →
  JS.orZero (tab_lastAccessed t) ≤ JS.orZero (tab_lastAccessed t').
Proof.
  intros Hu Hgt Ht Ht' Hei Hej Hi Hj.
  destruct (maxTabPass_takes urlHostname settings allTabs tabsToClose Hu Hgt)
    as (n & Heq & _). cbv zeta in Heq.
  pose proof (sort_lastAccessed_ascending allTabs) as Hsorted.
  set (sorted := JS.sort compareLastAccessed allTabs) in *.
  set (cands := omap (evictable urlHostname settings tabsToClose) sorted) in *.
  destruct (evictable_id _ _ _ _ _ Hei) as [Hidt Hnoti].
  destruct (evictable_id _ _ _ _ _ Hej) as [Hidt' _].
  rewrite Heq in Hi, Hj.
  apply elem_of_app in Hi as [?|Hi]; [contradiction|].
  assert (Hjc : j ∈ cands).
  { apply list_elem_of_omap. exists t'. split; [|assumption].
    unfold sorted. now apply elem_of_sort. }
  rewrite <- (take_drop n cands) in Hjc.
  apply elem_of_app in Hjc as [Hjc|Hjc].
  { destruct Hj. apply elem_of_app. now right. }
  destruct (omap_split_sorted _ (evictable urlHostname settings tabsToClose)
              sorted (take n cands) (drop n cands) Hsorted
              (eq_sym (take_drop n cands)) i j Hi Hjc)
    as (tx & ty & Htx & Hty & Hfx & Hfy & HR).
  apply elem_of_sort in Htx, Hty.
  destruct (evictable_id _ _ _ _ _ Hfx) as [Hidx _].
  destruct (evictable_id _ _ _ _ _ Hfy) as [Hidy _].
  rewrite (uniqueIds_same_tab allTabs t tx i Hu Ht Htx Hidt Hidx).
  rewrite (uniqueIds_same_tab allTabs t' ty j Hu Ht' Hty Hidt' Hidy).
  exact HR.
Qed.

(** X11 on a snapshot: under the limit of two, tab 3 (accessed at 980) goes
    and tab 2 (accessed at 990) stays. *)
Lemma maxTabPass_evicts_oldest_witness :
  3 ∈ maxTabPass simpleHostname limitTwo threeSites [] ∧
  (2 ∉ maxTabPass simpleHostname limitTwo threeSites []) ∧
  JS.orZero (Some 980) ≤ JS.orZero (Some 990).
Proof.
  assert (Hu : uniqueIds threeSites).
  { apply (bool_decide_unpack _). vm_compute. exact I. }
  assert (H3 : 3 ∈ maxTabPass simpleHostname limitTwo threeSites [])
    by (vm_compute; left).
  assert (H2 : 2 ∉ maxTabPass simpleHostname limitTwo threeSites []).
  { vm_compute. intros H. apply elem_of_cons in H as [H|H]; [discriminate|].
    now apply elem_of_nil in H. }
  split_and!; [exact H3|exact H2|].
  refine (maxTabPass_evicts_oldest simpleHostname limitTwo threeSites []
            (mkTab (Some 3) (Some "https://c.com/") false (Some 980))
            (mkTab (Some 2) (Some "https://b.com/") false (Some 990))
            3 2 Hu _ _ _ eq_refl eq_refl H3 H2).
  - vm_compute. reflexivity.
  - right. right. left.
  - right. left.
Defined.

(** * Further properties of the activity tracker and the handlers *)

(** ** X12: records and lookups *)

(** X12. For a tab with a non-zero id: after [updateTabActivity] the
    tracker returns the recorded time, also over an older record; after
    [removeTabActivity] or [resetTabActivityMap] it falls back to
    [tab.lastAccessed], or 0; and recording or removing under another id
    changes nothing for this tab. *)
Theorem activity_record_round_trip (m : gmap Z Z) (now : Z) (i : Z) (tab : Tab) :
  tab_id tab = Some i → i ≠ 0 →
  getLastActivity (updateTabActivity now i m) tab = now ∧
  getLastActivity (removeTabActivity i m) tab = JS.orZero (tab_lastAccessed tab) ∧
  getLastActivity (removeTabActivity i (updateTabActivity now i m)) tab
    = JS.orZero (tab_lastAccessed tab) ∧
  getLastActivity (resetTabActivityMap m) tab = JS.orZero (tab_lastAccessed tab) ∧
  (∀ j ts, j ≠ i →
     getLastActivity (updateTabActivity ts j m) tab = getLastActivity m tab ∧
     getLastActivity (removeTabActivity j m) tab = getLastActivity m tab).
Proof.
  intros Hid Hi.
  assert (Hget : ∀ m', getLastActivity m' tab =
            match m' !! i with
            | Some ts => ts
            | None => JS.orZero (tab_lastAccessed tab)
            end).
  { intros m'. rewrite (getLastActivity_nonzero m' tab i Hid Hi).
    now destruct (tab_lastAccessed tab). }
  unfold updateTabActivity, removeTabActivity, resetTabActivityMap.
  split_and!.
  - now rewrite Hget, lookup_insert_eq.
  - now rewrite Hget, lookup_delete_eq.
  - now rewrite Hget, lookup_delete_eq.
  - now rewrite Hget, lookup_empty.
  - intros j ts Hj. rewrite !Hget.
    now rewrite lookup_insert_ne, lookup_delete_ne by assumption.
Qed.

(** X12 on tab 7, recorded at 5000 over a [lastAccessed] of 100. *)
Lemma activity_record_round_trip_witness :
  getLastActivity (updateTabActivity 5000 7 ∅)
    (mkTab (Some 7) (Some exampleUrl) false (Some 100)) = 5000 ∧
  getLastActivity (removeTabActivity 7 (updateTabActivity 5000 7 ∅))
    (mkTab (Some 7) (Some exampleUrl) false (Some 100)) = 100.
Proof.
  assert (H7 : (7 : Z) ≠ 0) by lia.
  destruct (activity_record_round_trip ∅ 5000 7
              (mkTab (Some 7) (Some exampleUrl) false (Some 100)) eq_refl H7)
    as (Hup & _ & Hrm & _).
  exact (conj Hup Hrm).
Defined.

(** ** X13: seeding the tracker at startup *)


Lemma seedActivity_zero (now : Z) (tabs : list Tab) (m : gmap Z Z) :
  fold_left (seedActivity now) tabs m !! 0 = m !! 0.
Proof.
  revert m. induction tabs as [|t tabs IH]; intros m; [reflexivity|].
  simpl. rewrite IH. unfold seedActivity.
  destruct (tab_id t) as [j|] eqn:Hj; [|reflexivity]. simpl.
  destruct (Z.eqb_spec j 0) as [->|Hne]; simpl; [reflexivity|].
  now apply lookup_insert_ne.
Qed.





(** ** X14: a change of the settings re-arms the warning *)

Lemma run_raises_warning (urlHostname : string → option string)
    (b : Browser) (st : State) (allTabs : list Tab) :
  warningActive st = false →
  enabled (settingsOf b) = true → tabsQuery b = Some allTabs →
  notificationsEnabled (settingsOf b) = true →
  JS.gtb (JS.sub (maxTabs (settingsOf b)) (JS.ofZ 2)) (JS.ofZ 0) = true →
  JS.geb (JS.ofZ (Z.of_nat (length allTabs)))
         (JS.sub (maxTabs (settingsOf b)) (JS.ofZ 2)) = true →
  raisesWarning (traceOf urlHostname b st) = true.
Proof.
  intros Hlatch Hen Hq Hne Hth Hn. unfold traceOf.
  rewrite (applyCleanupRules_closed_form urlHostname b st allTabs Hen Hq).
  cbn [snd]. rewrite raisesWarning_app. apply orb_true_iff. left.
  rewrite warningCheck_run. cbv zeta.
  rewrite Hth, Hn.
  rewrite Hlatch, Hne. cbn [andb snd]. rewrite raisesWarning_app.
  apply orb_true_iff. right. reflexivity.
Qed.

Lemma handleStorageChanged_run (changes : gset string) (namespace : string)
    (b : Browser) (st : State) :
  handleStorageChanged changes namespace b st =
  if String.eqb namespace "local"
     && (bool_decide ("maxTabs" ∈ changes) || bool_decide ("enabled" ∈ changes))
  then (Normal tt,
        {| tabActivityMap := tabActivityMap st; warningActive := false |},
        SetIcon false ::
        if actionSetIcon b false then [] else [ConsoleError "Error setting icon:"])
  else (Normal tt, st, []).
Proof.
  unfold handleStorageChanged.
  destruct (String.eqb namespace "local"); [|reflexivity].
  destruct (_ || _); [|reflexivity]. cbn [andb].
  rewrite bind_run. cbn [writeWarningActive]. now rewrite setWarningIcon_run.
Qed.

(** X14. [handleStorageChanged] never throws and never touches the activity
    map. For a change in the [local] area that names [maxTabs] or [enabled]
    it clears the warning latch and asks for the normal icon, so that the
    next run that finds the tab count at the threshold ([maxTabs - 2 > 0]
    and [tabCount >= maxTabs - 2], as JavaScript computes them) raises the
    warning again (notifications enabled); for any other area, or a change
    of other keys only, it does nothing at all. *)
Theorem settings_change_rearms_warning (urlHostname : string → option string)
    (changes : gset string) (namespace : string) (b0 : Browser) (st : State) :
  let r := handleStorageChanged changes namespace b0 st in
  r.1.1 = Normal tt ∧
  tabActivityMap r.1.2 = tabActivityMap st ∧
  (namespace = "local" → "maxTabs" ∈ changes ∨ "enabled" ∈ changes →
   warningActive r.1.2 = false ∧ SetIcon false ∈ r.2 ∧
   ∀ b allTabs,
     enabled (settingsOf b) = true → tabsQuery b = Some allTabs →
     notificationsEnabled (settingsOf b) = true →
     JS.gtb (JS.sub (maxTabs (settingsOf b)) (JS.ofZ 2)) (JS.ofZ 0) = true →
     JS.geb (JS.ofZ (Z.of_nat (length allTabs)))
            (JS.sub (maxTabs (settingsOf b)) (JS.ofZ 2)) = true →
     raisesWarning (traceOf urlHostname b r.1.2) = true) ∧
  (namespace ≠ "local" ∨ (("maxTabs" ∉ changes) ∧ ("enabled" ∉ changes)) →
   r = (Normal tt, st, [])).
Proof.
  cbv zeta. rewrite handleStorageChanged_run.
  destruct (String.eqb_spec namespace "local") as [Hns|Hns]; cbn [andb].
  - destruct (bool_decide ("maxTabs" ∈ changes) || bool_decide ("enabled" ∈ changes))
      eqn:Hkeys.
    + split_and!; [reflexivity|reflexivity| |].
      * intros _ _. cbn [fst snd]. split_and!; [reflexivity|left|].
        intros b allTabs Hen Hq Hne Hth Hn.
        now apply (run_raises_warning urlHostname b _ allTabs).
      * intros [?|[H1 H2]]; [contradiction|].
        apply orb_true_iff in Hkeys as [?%bool_decide_eq_true|?%bool_decide_eq_true];
          contradiction.
    + split_and!; [reflexivity|reflexivity| |reflexivity].
      intros _ Hin. apply orb_false_iff in Hkeys as [H1%bool_decide_eq_false
                                                      H2%bool_decide_eq_false].
      destruct Hin; contradiction.
  - split_and!; [reflexivity|reflexivity| |reflexivity].
    intros ?. contradiction.
Qed.

(** X14 on the latched state: after [maxTabs] changed, three tabs under the
    limit of five make the next run warn. *)
Lemma settings_change_rearms_warning_witness :
  warningActive latched = true ∧
  raisesWarning
    (traceOf simpleHostname (browserWith limitFive threeSites 1000)
       (handleStorageChanged {["maxTabs"]} "local"
          (browserWith limitFive threeSites 1000) latched).1.2) = true.
Proof.
  split; [reflexivity|].
  refine (proj2 (proj2 (proj1 (proj2 (proj2
    (settings_change_rearms_warning simpleHostname {["maxTabs"]} "local"
       (browserWith limitFive threeSites 1000) latched))) eq_refl _))
    (browserWith limitFive threeSites 1000) threeSites
    eq_refl eq_refl eq_refl _ _).
  - left. now apply elem_of_singleton.
  - vm_compute. reflexivity.
  - vm_compute. reflexivity.
Defined.

(** ** X15: who writes which part of the module state *)



(** * Further properties of the settings storage and its commands *)

Lemma bind_script {A B} (m : Script A) (f : A → Script B) (h : Host) (w : Store) :
  (m ≫= f) h w =
  match m h w with
  | (Normal a, w', out) => let '(r, w'', out') := f a h w' in (r, w'', out ++ out')
  | (Thrown, w', out) => (Thrown, w', out)
  end.
Proof. reflexivity. Qed.

Lemma settingsOf_browserOver (stored0 : StoredSettings) (b : Browser) :
  settingsOf (browserOver stored0 b) =
  match storageLocalGet b with
  | Some _ => mergeSettings DEFAULT_SETTINGS stored0
  | None => DEFAULT_SETTINGS
  end.
Proof. unfold settingsOf, browserOver. simpl. now destruct (storageLocalGet b). Qed.

Lemma liftRun_getSettings (h : Host) (w : Store) :
  liftRun getSettings h w =
  (Normal (settingsOf (browserOver (area w) (browser h))), w,
   match storageLocalGet (browser h) with
   | Some _ => []
   | None => [Requested (ConsoleError "Error getting settings:")]
   end).
Proof.
  unfold liftRun. rewrite getSettings_run. destruct w as [st a].
  unfold browserOver. cbn. now destruct (storageLocalGet (browser h)).
Qed.

Lemma saveSettings_run (items : StoredSettings) (h : Host) (w : Store) :
  saveSettings items h w =
  if storageLocalSet h items
  then (Normal tt,
        {| moduleState := moduleState w; area := storageSet items (area w) |},
        [StorageWrite items])
  else (Normal tt, w,
        [StorageWrite items; Requested (ConsoleError "Error saving settings:")]).
Proof.
  unfold saveSettings, tryCatchScript, chromeStorageLocalSet.
  destruct (storageLocalSet h items); [reflexivity|].
  unfold liftRun, consoleError, call. destruct w as [st a]. reflexivity.
Qed.

Lemma mergeSettings_storageSet (defaults : Settings) (items stored0 : StoredSettings) :
  mergeSettings defaults (storageSet items stored0) =
  mergeSettings (mergeSettings defaults stored0) items.
Proof.
  unfold mergeSettings, storageSet, overwrite. cbn.
  destruct items as [[?|] [?|] [?|] [?|] [?|] [?|]]; reflexivity.
Qed.

Lemma mergeSettings_stored (defaults s : Settings) :
  mergeSettings defaults (stored s) = s.
Proof. now destruct s. Qed.

(** X16. [saveSettings] never throws and never touches the module state.
    When [chrome.storage.local.set] resolves, the keys it was given are
    overwritten and the others kept, so [getSettings] then returns the
    previous settings with the saved keys replaced, and exactly the saved
    settings when all keys were given. When it rejects, the error is logged
    and the stored object is as before. *)
Theorem saveSettings_then_getSettings (items : StoredSettings) (h : Host) (w : Store) :
  let w' := (saveSettings items h w).1.2 in
  let before := settingsOf (browserOver (area w) (browser h)) in
  let after := settingsOf (browserOver (area w') (browser h)) in
  (saveSettings items h w).1.1 = Normal tt ∧
  moduleState w' = moduleState w ∧
  (liftRun getSettings h w').1.1 = Normal after ∧
  (storageLocalSet h items = true →
   area w' = storageSet items (area w) ∧
   (is_Some (storageLocalGet (browser h)) →
    after = mergeSettings before items ∧
    ∀ s, items = stored s → after = s)) ∧
  (storageLocalSet h items = false →
   w' = w ∧
   Requested (ConsoleError "Error saving settings:") ∈ (saveSettings items h w).2).
Proof.
  cbv zeta. rewrite saveSettings_run, liftRun_getSettings.
  destruct (storageLocalSet h items) eqn:Hset; cbn [fst snd moduleState area].
  - split_and!; [reflexivity|reflexivity|reflexivity| |discriminate].
    intros _. split; [reflexivity|]. intros [r Hr].
    rewrite !settingsOf_browserOver, Hr, mergeSettings_storageSet.
    split; [reflexivity|]. intros s ->. apply mergeSettings_stored.
  - split_and!; [reflexivity|reflexivity|reflexivity|discriminate|].
    intros _. split; [reflexivity|]. right. left.
Qed.

Lemma saveSettings_then_getSettings_witness :
  let h := {| browser := browserWith limitFive threeInactive 0;
              storageLocalSet := λ _, true |} in
  let w := {| moduleState := initialState; area := stored limitFive |} in
  settingsOf (browserOver (area (saveSettings (stored limitTwo) h w).1.2) (browser h))
  = limitTwo.
Proof.
  cbv zeta.
  pose proof (saveSettings_then_getSettings (stored limitTwo)
    {| browser := browserWith limitFive threeInactive 0;
       storageLocalSet := λ _, true |}
    {| moduleState := initialState; area := stored limitFive |})
    as (_ & _ & _ & H & _).
  assert (Hget : is_Some (storageLocalGet (browserWith limitFive threeInactive 0)))
    by (eexists; reflexivity).
  exact (proj2 (proj2 (H eq_refl) Hget) limitTwo eq_refl).
Defined.

Lemma toggle_clean_run (urlHostname : string → option string) (h : Host) (w : Store) :
  let newEnabled := negb (enabled (settingsOf (browserOver (area w) (browser h)))) in
  handleCommand urlHostname "toggle-clean" h w =
  ((Normal tt,
    (saveSettings (onlyEnabled newEnabled) h w).1.2),
   (liftRun getSettings h w).2 ++
   (saveSettings (onlyEnabled newEnabled) h w).2 ++
   [Info (if newEnabled
          then "Auto-clean enabled via keyboard shortcut"
          else "Auto-clean disabled via keyboard shortcut")]).
Proof.
  cbv zeta. unfold handleCommand. cbn [String.eqb Ascii.eqb Bool.eqb].
  rewrite bind_script, liftRun_getSettings. cbn [snd].
  set (new := negb _).
  change (saveSettings (onlyEnabled new);; consoleInfo ?m)
    with (saveSettings (onlyEnabled new) ≫= λ _, consoleInfo m).
  rewrite bind_script, saveSettings_run.
  destruct (storageLocalSet h (onlyEnabled new)); reflexivity.
Qed.

Lemma handleToggle_run (h : Host) (w : Store) :
  let newEnabled := negb (enabled (settingsOf (browserOver (area w) (browser h)))) in
  handleToggle h w =
  ((Normal tt,
    (saveSettings (onlyEnabled newEnabled) h w).1.2),
   (liftRun getSettings h w).2 ++
   (saveSettings (onlyEnabled newEnabled) h w).2 ++
   ButtonShown newEnabled ::
   (if newEnabled then [MessageSent "runCleanup"] else [])).
Proof.
  cbv zeta. unfold handleToggle.
  rewrite bind_script, liftRun_getSettings. cbn [snd].
  set (new := negb _).
  change (saveSettings (onlyEnabled new);; ?k)
    with (saveSettings (onlyEnabled new) ≫= λ _, k).
  rewrite bind_script, saveSettings_run.
  destruct (storageLocalSet h (onlyEnabled new)), new; reflexivity.
Qed.

Lemma mergeSettings_onlyEnabled (s : Settings) (v : bool) :
  mergeSettings s (onlyEnabled v) =
  {| enabled := v;
     idleTimeout := idleTimeout s;
     maxTabs := maxTabs s;
     whitelist := whitelist s;
     blacklist := blacklist s;
     notificationsEnabled := notificationsEnabled s |}.
Proof. reflexivity. Qed.

(** X17. The [toggle-clean] command returns normally, leaves the module
    state alone and asks the storage to write the one key [enabled], with
    the negation of what [getSettings] returned. When the write resolves
    and the storage can be read, the settings read afterwards are the
    previous ones with [enabled] negated and every other key as it was, and
    a second [toggle-clean] restores the settings read at the start. When
    the storage cannot be read, the value written is [true] whatever is
    stored, since [getSettings] then answers with the defaults. *)
Theorem toggle_clean_flips_enabled
    (urlHostname : string → option string) (h : Host) (w : Store) :
  let before := settingsOf (browserOver (area w) (browser h)) in
  let r := handleCommand urlHostname "toggle-clean" h w in
  let after := settingsOf (browserOver (area r.1.2) (browser h)) in
  let r2 := handleCommand urlHostname "toggle-clean" h r.1.2 in
  r.1.1 = Normal tt ∧
  moduleState r.1.2 = moduleState w ∧
  StorageWrite (onlyEnabled (negb (enabled before))) ∈ r.2 ∧
  (is_Some (storageLocalGet (browser h)) →
   storageLocalSet h (onlyEnabled (negb (enabled before))) = true →
   after = mergeSettings before (onlyEnabled (negb (enabled before))) ∧
   (storageLocalSet h (onlyEnabled (enabled before)) = true →
    settingsOf (browserOver (area r2.1.2) (browser h)) = before)) ∧
  (storageLocalGet (browser h) = None →
   storageLocalSet h (onlyEnabled true) = true →
   stored_enabled (area r.1.2) = Some true).
Proof.
  cbv zeta. rewrite !toggle_clean_run. cbn [fst snd].
  set (before := settingsOf (browserOver (area w) (browser h))).
  rewrite !saveSettings_run.
  split_and!.
  - reflexivity.
  - now destruct (storageLocalSet h _).
  - apply elem_of_app. right. apply elem_of_app. left.
    destruct (storageLocalSet h _); left.
  - intros [res Hres] Hset. rewrite Hset. cbn [fst snd area].
    assert (Hafter : settingsOf (browserOver
                       (storageSet (onlyEnabled (negb (enabled before))) (area w))
                       (browser h)) =
                     mergeSettings before (onlyEnabled (negb (enabled before)))).
    { subst before. now rewrite !settingsOf_browserOver, Hres, mergeSettings_storageSet. }
    split; [exact Hafter|]. intros Hset2.
    rewrite Hafter, mergeSettings_onlyEnabled. cbn [enabled].
    rewrite negb_involutive, Hset2. cbn [fst snd area].
    rewrite settingsOf_browserOver, Hres, !mergeSettings_storageSet.
    rewrite !mergeSettings_onlyEnabled. cbn.
    fold before. subst before.
    rewrite settingsOf_browserOver, Hres.
    reflexivity.
  - intros Hget Hset. subst before.
    rewrite settingsOf_browserOver, Hget. cbn [enabled DEFAULT_SETTINGS negb].
    rewrite Hset. reflexivity.
Qed.

Lemma toggle_clean_flips_enabled_witness :
  let h := {| browser := browserWith limitFive threeInactive 0;
              storageLocalSet := λ _, true |} in
  let w := {| moduleState := initialState; area := stored limitFive |} in
  settingsOf (browserOver
                (area (handleCommand simpleHostname "toggle-clean" h w).1.2)
                (browser h)) =
  mergeSettings limitFive (onlyEnabled false).
Proof.
  cbv zeta.
  refine (proj1 (proj1 (proj2 (proj2 (proj2 (toggle_clean_flips_enabled
    simpleHostname
    {| browser := browserWith limitFive threeInactive 0;
       storageLocalSet := λ _, true |}
    {| moduleState := initialState; area := stored limitFive |})))) _ _)).
  - eexists. reflexivity.
  - reflexivity.
Defined.

(** X18. The [run-cleanup] command obeys the [enabled] switch like every
    other run: with auto-clean disabled it logs that a manual cleanup was
    triggered and then requests no close action, no notification and no
    icon change. Neither [run-cleanup] nor a command the script does not
    know writes the settings, and an unknown command does nothing at all. *)
Theorem run_cleanup_command_obeys_enabled
    (urlHostname : string → option string) (command : string)
    (h : Host) (w : Store) :
  command ≠ "toggle-clean" →
  let r := handleCommand urlHostname command h w in
  area r.1.2 = area w ∧
  (∀ items, StorageWrite items ∉ r.2) ∧
  (command ≠ "run-cleanup" → r = (Normal tt, w, [])) ∧
  (command = "run-cleanup" →
   enabled (settingsOf (browserOver (area w) (browser h))) = false →
   r.1.1 = Normal tt ∧ r.1.2 = w ∧
   ∀ o, o ∈ r.2 →
     o = Info "Manual cleanup triggered via keyboard shortcut" ∨
     o = Requested (ConsoleError "Error getting settings:")).
Proof.
  intros Hno. cbv zeta. unfold handleCommand.
  destruct (String.eqb_spec command "run-cleanup") as [->|Hrun].
  - change (consoleInfo ?m;; ?k) with (consoleInfo m ≫= λ _, k).
    rewrite bind_script. unfold consoleInfo, liftRun. cbv beta iota.
    destruct (applyCleanupRules urlHostname (browserOver (area w) (browser h))
                (moduleState w)) as [[c st] tr] eqn:Hrun.
    cbn [fst snd area]. split_and!.
    + reflexivity.
    + intros items [Heq|Hin]%elem_of_cons; [discriminate|].
      apply list_elem_of_fmap in Hin as (? & ? & _). discriminate.
    + intros Hne. now contradiction Hne.
    + intros _ Hen. rewrite applyCleanupRules_disabled in Hrun by exact Hen.
      injection Hrun as <- <- <-. destruct w as [st a]. split_and!; [reflexivity..|].
      intros o [->|Hin]%elem_of_cons; [now left|]. right.
      cbn [browserOver storageLocalGet] in Hin.
      destruct (storageLocalGet (browser h)); cbn in Hin.
      * now apply elem_of_nil in Hin.
      * now apply list_elem_of_singleton in Hin.
  - destruct (String.eqb_spec command "toggle-clean") as [->|_]; [now contradiction Hno|].
    cbn. split_and!; [reflexivity| |reflexivity|intros ->; now contradiction Hrun].
    intros items Hin. now apply elem_of_nil in Hin.
Qed.

Lemma run_cleanup_command_obeys_enabled_witness :
  let h := {| browser := browserWith DEFAULT_SETTINGS threeInactive 0;
              storageLocalSet := λ _, true |} in
  let w := {| moduleState := initialState; area := stored DEFAULT_SETTINGS |} in
  (handleCommand simpleHostname "run-cleanup" h w).1.2 = w.
Proof.
  cbv zeta.
  assert (Hno : "run-cleanup" ≠ "toggle-clean") by discriminate.
  pose proof (run_cleanup_command_obeys_enabled simpleHostname "run-cleanup"
    {| browser := browserWith DEFAULT_SETTINGS threeInactive 0;
       storageLocalSet := λ _, true |}
    {| moduleState := initialState; area := stored DEFAULT_SETTINGS |} Hno)
    as (_ & _ & _ & H).
  exact (proj1 (proj2 (H eq_refl eq_refl))).
Defined.

(** X19. The popup's [handleToggle] always returns normally and makes the
    button show the negation of the [enabled] it read, and it sends the
    [runCleanup] message exactly when that negation is [true]. It does so
    whether or not the write succeeded: when [chrome.storage.local.set]
    rejects, the stored settings are unchanged, so the button shows a state
    that a later [getSettings] contradicts. *)
Theorem handleToggle_shows_negated_state (h : Host) (w : Store) :
  let before := settingsOf (browserOver (area w) (browser h)) in
  let r := handleToggle h w in
  let after := settingsOf (browserOver (area r.1.2) (browser h)) in
  r.1.1 = Normal tt ∧
  (∀ v, ButtonShown v ∈ r.2 ↔ v = negb (enabled before)) ∧
  (∀ action, MessageSent action ∈ r.2 ↔
             action = "runCleanup" ∧ enabled before = false) ∧
  (storageLocalSet h (onlyEnabled (negb (enabled before))) = false →
   r.1.2 = w ∧ enabled after = enabled before ∧
   ButtonShown (negb (enabled after)) ∈ r.2).
Proof.
  cbv zeta. rewrite handleToggle_run, liftRun_getSettings, saveSettings_run.
  cbn [fst snd].
  set (before := settingsOf (browserOver (area w) (browser h))).
  assert (Hget : ∀ o, o ∈ match storageLocalGet (browser h) with
                          | Some _ => []
                          | None => [Requested (ConsoleError "Error getting settings:")]
                          end → ∃ q, o = Requested q).
  { intros o Hin. destruct (storageLocalGet (browser h)).
    - now apply elem_of_nil in Hin.
    - apply list_elem_of_singleton in Hin. eauto. }
  assert (Hsave : ∀ o, o ∈ (if storageLocalSet h (onlyEnabled (negb (enabled before)))
                            then (Normal tt,
                                  {| moduleState := moduleState w;
                                     area := storageSet (onlyEnabled (negb (enabled before)))
                                               (area w) |},
                                  [StorageWrite (onlyEnabled (negb (enabled before)))])
                            else (Normal tt, w,
                                  [StorageWrite (onlyEnabled (negb (enabled before)));
                                   Requested (ConsoleError "Error saving settings:")])).2 →
                       (∃ q, o = Requested q) ∨ ∃ items, o = StorageWrite items).
  { intros o Hin. destruct (storageLocalSet h _); cbn [snd] in Hin.
    - apply list_elem_of_singleton in Hin. eauto.
    - apply elem_of_cons in Hin as [->|Hin]; [eauto|].
      apply list_elem_of_singleton in Hin. eauto. }
  split_and!.
  - reflexivity.
  - intros v. split.
    + intros [Hin|[Hin|Hin]%elem_of_app]%elem_of_app.
      * apply Hget in Hin as [? [=]].
      * apply Hsave in Hin as [[? [=]]|[? [=]]].
      * apply elem_of_cons in Hin as [[= ->]|Hin]; [reflexivity|].
        destruct (negb (enabled before)).
        -- apply list_elem_of_singleton in Hin. discriminate.
        -- now apply elem_of_nil in Hin.
    + intros ->. apply elem_of_app. right. apply elem_of_app. right. left.
  - intros action. split.
    + intros [Hin|[Hin|Hin]%elem_of_app]%elem_of_app.
      * apply Hget in Hin as [? [=]].
      * apply Hsave in Hin as [[? [=]]|[? [=]]].
      * apply elem_of_cons in Hin as [[=]|Hin].
        destruct (enabled before); cbn [negb] in Hin.
        -- now apply elem_of_nil in Hin.
        -- apply list_elem_of_singleton in Hin as [= ->]. now split.
    + intros [-> Hen]. rewrite Hen. cbn [negb].
      apply elem_of_app. right. apply elem_of_app. right. right. left.
  - intros Hset. rewrite Hset. cbn [fst snd]. split_and!; [reflexivity..|].
    apply elem_of_app. right. apply elem_of_app. right. left.
Qed.

Lemma handleToggle_shows_negated_state_witness :
  let h := {| browser := browserWith limitFive threeInactive 0;
              storageLocalSet := λ _, false |} in
  let w := {| moduleState := initialState; area := stored limitFive |} in
  (handleToggle h w).1.2 = w ∧
  ButtonShown false ∈ (handleToggle h w).2.
Proof.
  cbv zeta.
  pose proof (proj2 (proj2 (proj2 (handleToggle_shows_negated_state
    {| browser := browserWith limitFive threeInactive 0;
       storageLocalSet := λ _, false |}
    {| moduleState := initialState; area := stored limitFive |}))) eq_refl)
    as (Hw & _ & Hshown).
  split; [exact Hw|exact Hshown].
Defined.

(** * The time formatter *)

Lemma numeral_pretty_N_char (x : N) : numeral (pretty_N_char x) = true.
Proof. unfold pretty_N_char. repeat case_match; reflexivity. Qed.

Lemma numerals_pretty_N_go (x : N) (s : string) :
  numerals s = true → numerals (pretty_N_go x s) = true.
Proof.
  revert s. induction (N.lt_wf_0 x) as [x _ IH]. intros s Hs.
  assert (x = 0 ∨ 0 < x)%N as [->|Hpos] by lia.
  - now rewrite pretty_N_go_0.
  - rewrite pretty_N_go_step by exact Hpos. apply IH.
    + now apply N.div_lt.
    + cbn [numerals]. now rewrite numeral_pretty_N_char.
Qed.

Lemma numerals_pretty_N (x : N) : numerals (pretty x) = true.
Proof.
  unfold pretty, pretty_N. case_decide; [reflexivity|].
  now apply numerals_pretty_N_go.
Qed.

Lemma numerals_pretty_Z (x : Z) : numerals (pretty x) = true.
Proof.
  destruct x as [|p|p]; unfold pretty, pretty_Z.
  - reflexivity.
  - apply numerals_pretty_N.
  - rewrite string_app_cons. cbn [numerals]. apply numerals_pretty_N.
Qed.

(** Two equal strings that each start with numerals followed by a character
    that is none split at the same place. *)
Lemma numerals_split (s1 s2 : string) (c d : ascii) (r1 r2 : string) :
  numerals s1 = true → numerals s2 = true →
  numeral c = false → numeral d = false →
  s1 +:+ String c r1 = s2 +:+ String d r2 →
  s1 = s2 ∧ c = d ∧ r1 = r2.
Proof.
  revert s2. induction s1 as [|a s1 IH]; intros [|b s2] H1 H2 Hc Hd Heq.
  - injection Heq as -> ->. done.
  - rewrite string_app_cons in Heq. injection Heq as -> _.
    cbn [numerals] in H2. rewrite Hc in H2. discriminate.
  - rewrite string_app_cons in Heq. injection Heq as -> _.
    cbn [numerals] in H1. rewrite Hd in H1. discriminate.
  - rewrite !string_app_cons in Heq. injection Heq as -> Heq.
    cbn [numerals] in H1, H2.
    apply andb_true_iff in H1 as [_ H1], H2 as [_ H2].
    destruct (IH s2 H1 H2 Hc Hd Heq) as (-> & -> & ->). done.
Qed.

(** X20. [formatTime] never prints two different minute counts that are
    safe integers the same way: the text it returns determines the number
    of minutes, whether it has the form [<m>m] (below an hour, negative
    counts included) or [<h>h <m>m]. *)
Theorem formatTime_tells_minutes_apart (minutes minutes' : SafeInteger) :
  integer minutes ≠ integer minutes' → formatTime minutes ≠ formatTime minutes'.
Proof.
  intros Hne Heq. apply Hne. revert Heq.
  unfold formatTime. cbv zeta.
  generalize (integer minutes) (integer minutes'). clear. intros a b.
  destruct (Z.ltb_spec a 60) as [Ha|Ha], (Z.ltb_spec b 60) as [Hb|Hb]; intros Heq.
  - apply numerals_split in Heq as (Heq & _); [|apply numerals_pretty_Z..|done|done].
    now apply (inj pretty) in Heq.
  - apply numerals_split in Heq as (_ & [=] & _);
      [apply numerals_pretty_Z..|done|done].
  - apply numerals_split in Heq as (_ & [=] & _);
      [apply numerals_pretty_Z..|done|done].
  - apply numerals_split in Heq as (Hh & _ & Heq);
      [|apply numerals_pretty_Z..|done|done].
    injection Heq as Heq.
    apply numerals_split in Heq as (Hm & _); [|apply numerals_pretty_Z..|done|done].
    apply (inj pretty) in Hh, Hm.
    rewrite (Z.div_mod a 60), (Z.div_mod b 60) by lia. now rewrite Hh, Hm.
Qed.

Lemma formatTime_tells_minutes_apart_witness :
  formatTime (mkSafeInteger 90 eq_refl) = "1h 30m" ∧
  formatTime (mkSafeInteger 30 eq_refl) = "30m" ∧
  formatTime (mkSafeInteger 90 eq_refl) ≠ formatTime (mkSafeInteger 30 eq_refl).
Proof.
  split; [reflexivity|]. split; [reflexivity|].
  apply formatTime_tells_minutes_apart. cbn [integer]. lia.
Defined.
